(** * property_finder: the parallel work-queue scrapers

    A shallow embedding of the two scraper drivers
    [services/scrapers/examples/dallasprobate.py] and
    [services/scrapers/examples/dallastax.py] and of the CAPTCHA adapter
    [services/captcha/solver.py].

    Python [str] values are modelled as ASCII strings, Python [int] values as
    [Z].  The browser, the vendor API and the scheduler are the environment:
    what they answer is a parameter of the functions below, what the code does
    with the answer is the function. *)

From Stdlib Require Import String Ascii List ZArith Lia Bool Arith.
From Stdlib Require Import DecimalString Sorted.
Import ListNotations.

Local Open Scope string_scope.
Local Open Scope list_scope.
Local Open Scope nat_scope.

(* ===================================================================== *)
(** * Python string primitives *)
(* ===================================================================== *)

Module PyStr.

(** [str.isspace] on the ASCII range: TAB, LF, VT, FF, CR, FS, GS, RS, US
    and the blank. *)
Definition is_space (c : ascii) : bool :=
  let n := nat_of_ascii c in
  ((9 <=? n) && (n <=? 13)) || ((28 <=? n) && (n <=? 32)).

Definition upper_char (c : ascii) : ascii :=
  let n := nat_of_ascii c in
  if (97 <=? n) && (n <=? 122) then ascii_of_nat (n - 32) else c.

(** [s.upper()] *)
Fixpoint upper (s : string) : string :=
  match s with
  | EmptyString => EmptyString
  | String c r => String (upper_char c) (upper r)
  end.

Fixpoint lstrip (s : string) : string :=
  match s with
  | EmptyString => EmptyString
  | String c r => if is_space c then lstrip r else s
  end.

Fixpoint rstrip (s : string) : string :=
  match s with
  | EmptyString => EmptyString
  | String c r =>
      match rstrip r with
      | EmptyString => if is_space c then EmptyString else String c EmptyString
      | r' => String c r'
      end
  end.

(** [s.strip()] *)
Definition strip (s : string) : string := rstrip (lstrip s).

(** [s.startswith(p)] *)
Definition startswith (s p : string) : bool := prefix p s.

(** [sub in s] *)
Fixpoint contains (sub s : string) : bool :=
  prefix sub s ||
  match s with
  | EmptyString => false
  | String _ r => contains sub r
  end.

(** [s.split()]: runs of whitespace separate the words, no empty word. *)
Fixpoint split_ws_aux (cur : string) (s : string) : list string :=
  match s with
  | EmptyString =>
      match cur with EmptyString => [] | _ => [cur] end
  | String c r =>
      if is_space c
      then match cur with
           | EmptyString => split_ws_aux EmptyString r
           | _ => cur :: split_ws_aux EmptyString r
           end
      else split_ws_aux (cur ++ String c EmptyString) r
  end.

Definition split_ws (s : string) : list string := split_ws_aux EmptyString s.

(** [s.split(sep)] for a one-character separator: always at least one
    field, empty fields kept. *)
Fixpoint split_on_aux (sep : ascii) (cur : string) (s : string) : list string :=
  match s with
  | EmptyString => [cur]
  | String c r =>
      if Ascii.eqb c sep
      then cur :: split_on_aux sep EmptyString r
      else split_on_aux sep (cur ++ String c EmptyString) r
  end.

Definition split_on (sep : ascii) (s : string) : list string :=
  split_on_aux sep EmptyString s.

(** [sep.join(l)] *)
Definition join (sep : string) (l : list string) : string := String.concat sep l.

(** [s.replace(old, new)] for a non-empty [old]: occurrences are replaced
    from the left and do not overlap.  [skip] counts the characters of the
    occurrence just replaced that are still to be dropped. *)
Fixpoint replace_aux (old new : string) (skip : nat) (s : string) : string :=
  match s with
  | EmptyString => EmptyString
  | String c r =>
      match skip with
      | S k => replace_aux old new k r
      | O =>
          if prefix old s
          then (new ++ replace_aux old new (String.length old - 1) r)%string
          else String c (replace_aux old new 0 r)
      end
  end.

Definition replace (s old new : string) : string := replace_aux old new 0 s.

(** [str(n)] for an integer *)
Definition str_of_Z (n : Z) : string := NilZero.string_of_int (Z.to_int n).

(** Truthiness of a string: [if s] *)
Definition truthy (s : string) : bool :=
  match s with EmptyString => false | _ => true end.

End PyStr.

(* ===================================================================== *)
(** * Name/Owner parser ([parse_owner_name], dallasprobate.py) *)
(* ===================================================================== *)

(** One parsed party.  The source builds the tuple
    [(first, middle, last, search)]. *)
Record Identity := mkIdentity {
  first_name  : string;
  middle_name : string;
  last_name   : string;
  search_term : string
}.

Definition cleanup_phrases : list string :=
  ["EST OF"; "ET AL"; "ESTATE OF"; "ESTATE"; "EST"].

(** [' '.join(ws[2:]) if len(ws) > 2 else ''] *)
Definition middle_of (ws : list string) : string :=
  if 2 <? List.length ws then PyStr.join " " (skipn 2 ws) else "".

(** [f"{last}, {first}"] *)
Definition search_format (last first : string) : string :=
  (last ++ ", " ++ first)%string.

Definition parse_owner_name (raw_owner_string : string) : list Identity :=
  let cleaned := PyStr.strip (PyStr.upper raw_owner_string) in
  let cleaned :=
    fold_left (fun acc phrase => PyStr.replace acc phrase " ") cleanup_phrases cleaned in
  let cleaned := PyStr.join " " (PyStr.split_ws cleaned) in
  if PyStr.contains "&" cleaned then
    let parts := PyStr.split_on "&" cleaned in
    let first_part := PyStr.strip (nth 0 parts "") in
    let second_part :=
      if 1 <? List.length parts then PyStr.strip (nth 1 parts "") else "" in
    let first_part :=
      fold_left (fun acc phrase => PyStr.strip (PyStr.replace acc phrase " "))
                cleanup_phrases first_part in
    let second_part :=
      fold_left (fun acc phrase => PyStr.strip (PyStr.replace acc phrase " "))
                cleanup_phrases second_part in
    let first_owner_words := PyStr.split_ws first_part in
    let owners_list :=
      if 2 <=? List.length first_owner_words then
        let last1 := nth 0 first_owner_words "" in
        let first1 := nth 1 first_owner_words "" in
        let middle1 := middle_of first_owner_words in
        [mkIdentity first1 middle1 last1 (search_format last1 first1)]
      else [] in
    let second_words := PyStr.split_ws second_part in
    if (List.length second_words =? 1) && (1 <=? List.length first_owner_words) then
      let last2 := nth 0 first_owner_words "" in
      let first2 := nth 0 second_words "" in
      owners_list ++ [mkIdentity first2 "" last2 (search_format last2 first2)]
    else if 2 <=? List.length second_words then
      let last2 := nth 0 second_words "" in
      let first2 := nth 1 second_words "" in
      let middle2 := middle_of second_words in
      owners_list ++ [mkIdentity first2 middle2 last2 (search_format last2 first2)]
    else owners_list
  else
    let words := PyStr.split_ws cleaned in
    if PyStr.contains "," cleaned then
      let parts := PyStr.split_on "," cleaned in
      let last := PyStr.strip (nth 0 parts "") in
      let rest := if 1 <? List.length parts then PyStr.strip (nth 1 parts "") else "" in
      let rest_words := PyStr.split_ws rest in
      let first := nth 0 rest_words "" in
      let middle :=
        if 1 <? List.length rest_words then PyStr.join " " (skipn 1 rest_words) else "" in
      [mkIdentity first middle last (search_format last first)]
    else if 2 <=? List.length words then
      let last := nth 0 words "" in
      let first := nth 1 words "" in
      [mkIdentity first (middle_of words) last (search_format last first)]
    else
      let last := nth 0 words "" in
      [mkIdentity "" "" last last].

(* ===================================================================== *)
(** * Exceptions *)
(* ===================================================================== *)

(** A Python exception is represented by its message, [str(e)]. *)
Definition exn := string.

Inductive res (A : Type) : Type :=
| Ok (a : A)
| Raise (e : exn).
Arguments Ok {A} a.
Arguments Raise {A} e.

Definition bind {A B : Type} (c : res A) (k : A -> res B) : res B :=
  match c with
  | Ok a => k a
  | Raise e => Raise e
  end.

Notation "x <- c ;; k" := (bind c (fun x => k))
  (at level 61, c at next level, right associativity).
Notation "' p <- c ;; k" := (bind c (fun x => let p := x in k))
  (at level 61, p pattern, c at next level, right associativity).

(** [try: body  except Exception as e: handler(e)] *)
Definition try_except {A : Type} (body : res A) (handler : exn -> A) : A :=
  match body with
  | Ok a => a
  | Raise e => handler e
  end.

(** [d.get(k, default)] on a dict of strings kept as an association list. *)
Fixpoint dict_get {V : Type} (d : list (string * V)) (k : string) (default : V) : V :=
  match d with
  | [] => default
  | (k', v) :: r => if String.eqb k' k then v else dict_get r k default
  end.

(* ===================================================================== *)
(** * CAPTCHA vendor and the two solve routines *)
(* ===================================================================== *)

Module Captcha.

(** JSON answer of [createTask]; a missing key is [None]. *)
Record CreateResp := mkCreateResp {
  errorId : option Z;
  errorDescription : option string;
  taskId : option string
}.

(** JSON answer of [getTaskResult]: [solution] is [None] when the key
    ["solution"] is missing, and [Some None] when the solution object has
    no key ["gRecaptchaResponse"]. *)
Record PollResp := mkPollResp {
  status : option string;
  solution : option (option string)
}.

(** The token carried by an answer, if any. *)
Definition gRecaptchaResponse (data : PollResp) : option string :=
  match solution data with
  | Some token => token
  | None => None
  end.

(** [data["solution"]["gRecaptchaResponse"]], with the [KeyError] of the
    first key that is missing. *)
Definition token_of (data : PollResp) : res string :=
  match solution data with
  | None => Raise "'solution'"
  | Some None => Raise "'gRecaptchaResponse'"
  | Some (Some token) => Ok token
  end.

(** The vendor as the code sees it: [requests.post(...).json()] for the task
    creation and for the [attempt]-th poll; either may raise. *)
Record Vendor := mkVendor {
  createTask : res CreateResp;
  getTaskResult : nat -> res PollResp
}.

Definition poll_interval : nat := 3.

(** [data.get("status") == "ready"] *)
Definition is_ready (data : PollResp) : bool :=
  match status data with
  | Some s => String.eqb s "ready"
  | None => false
  end.

(** The loop shared by both routines:
    [for attempt in range(n): time.sleep(3); data = post(...).json();
     if data.get("status") == "ready": return data["solution"][...]].
    The result is [Ok (Some token)] on a return from inside the loop and
    [Ok None] when the range is exhausted; the second component is the
    number of seconds slept. *)
Fixpoint poll (v : Vendor) (n : nat) (attempt : nat) : res (option string) * nat :=
  match n with
  | O => (Ok None, 0)
  | S k =>
      let '(r, t) :=
        match getTaskResult v attempt with
        | Raise e => (Raise e, 0)
        | Ok data =>
            if is_ready data then
              match token_of data with
              | Ok token => (Ok (Some token), 0)
              | Raise e => (Raise e, 0)
              end
            else poll v k (S attempt)
        end in
      (r, poll_interval + t)
  end.

(** [result.get("errorId") != 0] *)
Definition is_error (r : CreateResp) : bool :=
  match errorId r with
  | Some 0%Z => false
  | _ => true
  end.

(** [solve_captcha(api_key, captcha_type, site_key, url)] of
    dallasprobate.py: raises on a vendor error and when the 60 polls are
    exhausted. *)
Definition solve_captcha (v : Vendor) : res string * nat :=
  match createTask v with
  | Raise e => (Raise e, 0)
  | Ok result =>
      if is_error result then
        (Raise ("CapSolver error: " ++
                match errorDescription result with Some d => d | None => "None" end)%string,
         0)
      else
        match taskId result with
        | None => (Raise "'taskId'", 0)
        | Some _ =>
            match poll v 60 0 with
            | (Ok (Some token), t) => (Ok token, t)
            | (Ok None, t) => (Raise "CAPTCHA solving timeout", t)
            | (Raise e, t) => (Raise e, t)
            end
        end
  end.

(** [CaptchaSolver.solve(captcha_type, site_key, page_url, timeout)] of
    services/captcha/solver.py.  The body of its [try] is [solve_body]; the
    [except Exception] clause returns [None]. *)
Definition solve_body (v : Vendor) (timeout : Z) : res (option string) * nat :=
  match createTask v with
  | Raise e => (Raise e, 0)
  | Ok result =>
      if is_error result then (Ok None, 0)
      else
        match taskId result with
        | None => (Raise "'taskId'", 0)
        | Some _ =>
            let max_attempts := (timeout / 3)%Z in
            poll v (Z.to_nat max_attempts) 0
        end
  end.

Definition solve (v : Vendor) (timeout : Z) : res (option string) * nat :=
  let '(r, t) := solve_body v timeout in
  (Ok (try_except r (fun _ => None)), t).

End Captcha.

(* ===================================================================== *)
(** * The result page *)
(* ===================================================================== *)

(** What one run of the in-page [checkResults] sees. *)
Record Snapshot := mkSnapshot {
  has_body : bool;              (* document.body *)
  party_cards : nat;            (* querySelectorAll('div.party-card').length *)
  body_text : string            (* document.body.textContent || '' *)
}.

Record PollResult := mkPollResult {
  success : bool;
  count : nat
}.

Definition maxAttempts : nat := 20.

Definition no_results_marker (bodyText : string) : bool :=
  PyStr.contains "No cases match your search" bodyText
  || PyStr.contains "No records" bodyText
  || PyStr.contains "no results found" bodyText.

(** The in-page poll of [wait_for_results].  [dom k] is the document at the
    [k]-th check, [attempts] the counter of the script, [budget] bounds the
    number of checks still allowed to run.  The list collects the delays of
    the [setTimeout(checkResults, 1000)] calls made. *)
Fixpoint checkResults (budget : nat) (attempts : nat) (dom : nat -> Snapshot)
  : option (PollResult * list nat) :=
  match budget with
  | O => None
  | S budget' =>
      let attempts := S attempts in
      let again :=
        if attempts <? maxAttempts
        then option_map (fun '(r, timers) => (r, 1000 :: timers))
                        (checkResults budget' attempts dom)
        else Some (mkPollResult false 0, []) in
      let doc := dom attempts in
      if negb (has_body doc) then again
      else if 0 <? party_cards doc then Some (mkPollResult true (party_cards doc), [])
      else if no_results_marker (body_text doc) then Some (mkPollResult true 0, [])
      else again
  end.

(** [wait_for_results(page)]: the wait for the loading mask swallows its own
    exception; [page.evaluate] either raises or runs the poll to its end. *)
Definition wait_for_results (page : res (nat -> Snapshot)) : res (bool * nat) :=
  dom <- page ;;
  match checkResults maxAttempts 0 dom with
  | Some (result, _) => Ok (success result, count result)
  | None => Raise "promise never resolved"
  end.

(** One [td.card-data] cell, one [table.kgrid-card-table], one
    [div.party-card], as read from the page.  [text_content()] may return
    [None], on which the code raises and skips the element; the locators
    themselves do not raise. *)
Record Td := mkTd {
  td_class : option string;     (* td.get_attribute('class') *)
  td_text : option string       (* td.text_content() *)
}.

Definition CaseTable := list Td.

Record PartyCard := mkPartyCard {
  card_text : option string;    (* party_card.text_content() *)
  case_tables : list CaseTable
}.

(** The loop over the cells of one case table; [None] when
    [td.text_content().strip()] raises on a missing text. *)
Fixpoint read_case (tds : list Td) (case_type case_status : option string)
  : option (option string * option string) :=
  match tds with
  | [] => Some (case_type, case_status)
  | td :: r =>
      let td_classes := match td_class td with Some c => c | None => "" end in
      match td_text td with
      | None => None
      | Some t =>
          let td_text := PyStr.upper (PyStr.strip t) in
          if PyStr.contains "party-case-type" td_classes
          then read_case r (Some td_text) case_status
          else if PyStr.contains "party-case-status" td_classes
          then read_case r case_type (Some td_text)
          else read_case r case_type case_status
      end
  end.

Definition is_disqualifying_type (case_type : string) : bool :=
  PyStr.startswith case_type "DECEDENT - WILL"
  || PyStr.startswith case_type "HEIRSHIP"
  || PyStr.contains "HEIRSHIP" case_type.

Definition is_open (case_status : option string) : bool :=
  match case_status with
  | Some s => String.eqb s "OPEN"
  | None => false
  end.

(** Body of the [for case_table in case_tables] loop: [true] is the [break]
    with [disqualifying_case_found = True], [false] every [continue]. *)
Definition case_disqualifies (t : CaseTable) : bool :=
  match read_case t None None with
  | None => false
  | Some (case_type, case_status) =>
      match case_type with
      | None => false
      | Some ty =>
          PyStr.truthy ty && is_disqualifying_type ty && is_open case_status
      end
  end.

(** The name test that opens the body of the [for party_card] loop. *)
Definition find_owner_line (lines : list string) (expected_exact : string)
    (expected_with_middle : option string) : option string :=
  find (fun line_clean =>
          PyStr.contains "," line_clean
          && (5 <? String.length line_clean) && (String.length line_clean <? 100)
          && (PyStr.contains expected_exact line_clean
              || match expected_with_middle with
                 | Some m => PyStr.contains m line_clean
                 | None => false
                 end))
       (map (fun line => PyStr.join " " (PyStr.split_ws (PyStr.strip line))) lines).

Definition name_matches (card_full_text expected_exact : string)
    (expected_with_middle : option string) : bool :=
  let is_middle (s : string) :=
    match expected_with_middle with
    | Some m => String.eqb s m
    | None => false
    end in
  let lines := PyStr.split_on "010"%char card_full_text in
  let owner_text := find_owner_line lines expected_exact expected_with_middle in
  let owner_text :=
    match owner_text with
    | Some t => Some t
    | None =>
        if PyStr.contains expected_exact card_full_text then Some expected_exact
        else match expected_with_middle with
             | Some m => if PyStr.contains m card_full_text then Some m else None
             | None => None
             end
    end in
  match owner_text with
  | None => false
  | Some owner_text =>
      if negb (PyStr.truthy owner_text) then false
      else
        let owner_normalized := PyStr.join " " (PyStr.split_ws owner_text) in
        if String.eqb owner_normalized expected_exact then true
        else if is_middle owner_normalized then true
        else if PyStr.contains expected_exact owner_normalized then
          let remaining := PyStr.strip (PyStr.replace owner_normalized expected_exact "") in
          let remaining_words := filter PyStr.truthy (PyStr.split_ws remaining) in
          List.length remaining_words <=? 1
        else false
  end.

Definition expected_names (first_name middle_name last_name : string)
  : string * option string :=
  let first_upper := PyStr.strip (PyStr.upper first_name) in
  let middle_upper :=
    if PyStr.truthy middle_name then PyStr.strip (PyStr.upper middle_name) else "" in
  let last_upper := PyStr.strip (PyStr.upper last_name) in
  let expected_exact := (last_upper ++ ", " ++ first_upper)%string in
  let expected_with_middle :=
    match middle_upper with
    | String c _ =>
        Some (last_upper ++ ", " ++ first_upper ++ " " ++ String c ".")%string
    | EmptyString => None
    end in
  (expected_exact, expected_with_middle).

Definition card_matches (names : string * option string) (card : PartyCard) : bool :=
  match card_text card with
  | None => false
  | Some t => name_matches (PyStr.upper t) (fst names) (snd names)
  end.

(** What the scan looks at, in order. *)
Inductive Visit :=
| VCard (c : PartyCard)
| VCase (t : CaseTable).

(** [for case_table in case_tables: ... break] with the tables inspected. *)
Fixpoint scan_cases (ts : list CaseTable) : bool * list Visit :=
  match ts with
  | [] => (false, [])
  | t :: r =>
      if case_disqualifies t then (true, [VCase t])
      else let '(found, seen) := scan_cases r in (found, VCase t :: seen)
  end.

(** [for party_card in party_cards: ... if disqualifying_case_found: break] *)
Fixpoint scan_cards (names : string * option string) (cards : list PartyCard)
  : bool * list Visit :=
  match cards with
  | [] => (false, [])
  | card :: r =>
      if card_matches names card then
        let '(found, seen) := scan_cases (case_tables card) in
        if found then (true, VCard card :: seen)
        else let '(found', seen') := scan_cards names r in
             (found', VCard card :: seen ++ seen')
      else let '(found', seen') := scan_cards names r in
           (found', VCard card :: seen')
  end.

Definition process_search_results_trace (party_cards : list PartyCard)
    (first_name middle_name last_name : string) : bool * list Visit :=
  scan_cards (expected_names first_name middle_name last_name) party_cards.

(** [process_search_results(page, first_name, middle_name, last_name)] *)
Definition process_search_results (party_cards : list PartyCard)
    (first_name middle_name last_name : string) : bool :=
  fst (process_search_results_trace party_cards first_name middle_name last_name).

(* ===================================================================== *)
(** * The per-identity search routine of the probate worker *)
(* ===================================================================== *)

Inductive Status := FOUND_CLEAN | DISQUALIFIED | NOT_FOUND | TIMEOUT | ERROR.

Definition Status_eqb (a b : Status) : bool :=
  match a, b with
  | FOUND_CLEAN, FOUND_CLEAN | DISQUALIFIED, DISQUALIFIED | NOT_FOUND, NOT_FOUND
  | TIMEOUT, TIMEOUT | ERROR, ERROR => true
  | _, _ => false
  end.

(** A work-queue task of the probate driver:
    [(idx, raw_owner, parsed_owners)]. *)
Record WorkItem := mkWorkItem {
  original_row : Z;
  raw_owner : string;
  parsed_owners : list Identity
}.

(** The [log_entry] dict as it is when it is put on the results queue. *)
Record LogEntry := mkLogEntry {
  entry_row : string;
  entry_raw_owner : string;
  entry_identity : Identity;
  entry_property : list (string * string);
  entry_status : Status;
  entry_count : nat;
  entry_error : option string;
  disqualifying_probate_found : bool;
  overall_property_failed : bool
}.

Definition property_keys : list string :=
  ["account_number"; "address"; "market_value"; "total_tax_owed";
   "tax_to_value_ratio"; "prior_year_due"; "current_levy"; "unpaid_years"].

(** [f"{original_row}" if len(parsed_owners) == 1 else f"{original_row}.{owner_idx+1}"] *)
Definition owner_label (it : WorkItem) (owner_idx : nat) : string :=
  if List.length (parsed_owners it) =? 1
  then PyStr.str_of_Z (original_row it)
  else (PyStr.str_of_Z (original_row it) ++ "." ++
        PyStr.str_of_Z (Z.of_nat owner_idx + 1))%string.

(** What the browser and the vendor answer during one search attempt.  Every
    browser call may raise; [go_back_to_search] and [process_search_results]
    swallow their own exceptions and are not listed. *)
Record SearchEnv := mkSearchEnv {
  env_fill : res unit;                                 (* clear() and fill(search_term) *)
  env_detect : res (option string * option string);    (* detect_captcha_type(page) *)
  env_vendor : Captcha.Vendor;                         (* the CapSolver answers *)
  env_inject : res unit;                               (* page.evaluate(token injection) *)
  env_submit : res unit;                               (* click on the submit button *)
  env_page : res (nat -> Snapshot);                    (* page.evaluate of the result poll *)
  env_cards : list PartyCard                           (* div.party-card elements *)
}.

Definition captcha_truthy (captcha_type : option string) : bool :=
  match captcha_type with
  | Some t => PyStr.truthy t
  | None => false
  end.

(** The dict built at the top of the loop body, before its status is
    known. *)
Definition new_log_entry (property_data_dict : list (string * list (string * string)))
    (it : WorkItem) (owner_idx : nat) (ident : Identity)
  : Status -> nat -> option string -> bool -> bool -> LogEntry :=
  let prop_data := dict_get property_data_dict (raw_owner it) [] in
  mkLogEntry (owner_label it owner_idx) (raw_owner it) ident
             (map (fun k => (k, dict_get prop_data k "N/A")) property_keys).

(** The [try] block of one pass of [for owner_idx, (first, middle, last,
    search_term) in enumerate(parsed_owners)]: the entry as updated and the
    new value of [owners_failed_filter], or the exception that left the
    block. *)
Definition search_body (log_entry : Status -> nat -> option string -> bool -> bool -> LogEntry)
    (ident : Identity) (owners_failed_filter : bool) (env : SearchEnv)
  : res (LogEntry * bool) :=
  _ <- env_fill env ;;
  ' (captcha_type, site_key) <- env_detect env ;;
  _ <- (if captcha_truthy captcha_type
        then token <- fst (Captcha.solve_captcha (env_vendor env)) ;;
             env_inject env
        else Ok tt) ;;
  _ <- env_submit env ;;
  ' (success, row_count) <- wait_for_results (env_page env) ;;
  if negb success then
    Ok (log_entry TIMEOUT 0 None false owners_failed_filter, owners_failed_filter)
  else if 0 <? row_count then
    let owner_disqualified :=
      process_search_results (env_cards env) (first_name ident)
                             (middle_name ident) (last_name ident) in
    let owners_failed_filter :=
      if owner_disqualified then true else owners_failed_filter in
    Ok (log_entry (if owner_disqualified then DISQUALIFIED else FOUND_CLEAN)
                  row_count None owner_disqualified owners_failed_filter,
        owners_failed_filter)
  else
    Ok (log_entry NOT_FOUND 0 None false owners_failed_filter, owners_failed_filter).

(** One pass of the loop body with its [except Exception as e] clause: the
    entry put on the results queue and the new [owners_failed_filter]. *)
Definition search_identity (property_data_dict : list (string * list (string * string)))
    (it : WorkItem) (owner_idx : nat) (ident : Identity)
    (owners_failed_filter : bool) (env : SearchEnv) : LogEntry * bool :=
  let log_entry := new_log_entry property_data_dict it owner_idx ident in
  try_except
    (search_body log_entry ident owners_failed_filter env)
    (fun e => (log_entry ERROR 0 (Some e) false owners_failed_filter, owners_failed_filter)).

(** The [try] block up to and including the click on the submit button. *)
Definition submit_search (env : SearchEnv) : res unit :=
  _ <- env_fill env ;;
  ' (captcha_type, site_key) <- env_detect env ;;
  _ <- (if captcha_truthy captcha_type
        then token <- fst (Captcha.solve_captcha (env_vendor env)) ;;
             env_inject env
        else Ok tt) ;;
  env_submit env.

(** A document in which [checkResults] finds neither party cards nor a
    no-results text (or no body at all). *)
Definition unready (d : Snapshot) : bool :=
  negb (has_body d)
  || ((party_cards d =? 0) && negb (no_results_marker (body_text d))).

(* ===================================================================== *)
(** * Shared statistics *)
(* ===================================================================== *)

Record SharedStats := mkStats {
  completed : Z;
  qualified : Z;
  in_progress : Z
}.

(** [stats_dict['completed'] = 0; ['qualified'] = 0; ['in_progress'] = 0] *)
Definition stats_init : SharedStats := mkStats 0 0 0.

(** [with stats_lock: stats_dict['in_progress'] += 1] *)
Definition stats_begin (st : SharedStats) : SharedStats :=
  mkStats (completed st) (qualified st) (in_progress st + 1).

(** [with stats_lock: stats_dict['completed'] += 1;
     stats_dict['qualified'] += dq; stats_dict['in_progress'] -= 1],
    where the probate worker has no [qualified] line ([dq = 0]). *)
Definition stats_finish (dq : Z) (st : SharedStats) : SharedStats :=
  mkStats (completed st + 1) (qualified st + dq) (in_progress st - 1).

(** The test made under [stats_lock] in the [except] clause for the empty
    queue. *)
Definition worker_exits_on_empty (st : SharedStats) : bool :=
  (in_progress st =? 0)%Z.

(* ===================================================================== *)
(** * The worker pool *)
(* ===================================================================== *)

(** How a worker left its [while True] loop: on a poison pill, on
    [queue.Empty] with nothing in progress, before the loop because its
    one-time setup failed, or with an exception that no clause of the loop
    catches and that ends the process. *)
Inductive ExitReason := ByPill | ByEmpty | SetupFailed | Died.

Fixpoint sumZ {A : Type} (f : A -> Z) (l : list A) : Z :=
  match l with
  | [] => 0%Z
  | x :: r => (f x + sumZ f r)%Z
  end.

(** The loop of [worker_process] has the same shape in both drivers; they
    differ in the task type, in what is done with a task and in the clause
    written for the empty queue.  [Job] is the local state of the per-task
    routine, [job_step] one interaction of it (with the records it puts on
    the results queue) and [job_finish] its last action (with the records
    put and the amount added to [qualified]).  [catches_empty] says whether
    the clause catches [queue.Empty]: the probate driver writes
    [except Empty] with [from queue import Empty]; the tax driver writes
    [except multiprocessing.queues.Empty], and with the imports of that file
    the package [multiprocessing] has no attribute [queues], so that the
    evaluation of the clause raises [AttributeError] while [queue.Empty] is
    being handled. *)
Module Pool.
Section Generic.

Local Open Scope Z_scope.

Context {Item Job Out : Type}.
Variable start_job : Item -> Job.
Variable job_step : Item -> Job -> Job -> list Out -> Prop.
Variable job_finish : Item -> Job -> list Out -> Z -> Prop.
Variable catches_empty : bool.

Inductive Worker :=
| WSetup                                (* before the initial setup *)
| WIdle                                 (* at work_queue.get(timeout=2) *)
| WHolding (it : Item)                  (* task popped, stats not yet touched *)
| WWorking (it : Item) (j : Job)        (* inside the per-task routine *)
| WExited (r : ExitReason).

(** The state shared through the manager. *)
Record Shared := mkShared {
  work_queue : list (option Item);      (* None is the poison pill *)
  results_queue : list Out;
  stats : SharedStats
}.

(** One atomic action of one worker.  The actions are the accesses to the
    shared state: a [get] on the work queue, a block under [stats_lock], a
    [put] on the results queue together with the browser work that precedes
    it.  Calls on the manager proxies and the prints of the loop do not
    raise; the code between two accesses is local to the worker. *)
Inductive wstep : Shared -> Worker -> Shared -> Worker -> Prop :=
| w_setup_ok : forall sh,
    (* the INITIAL SETUP block runs to its end *)
    wstep sh WSetup sh WIdle
| w_setup_failed : forall sh,
    (* except Exception: browser.close(); return *)
    wstep sh WSetup sh (WExited SetupFailed)
| w_pill : forall q rq st,
    (* if owner_task is None: break *)
    wstep (mkShared (None :: q) rq st) WIdle (mkShared q rq st) (WExited ByPill)
| w_item : forall it q rq st,
    (* owner_task = work_queue.get(timeout=2) *)
    wstep (mkShared (Some it :: q) rq st) WIdle (mkShared q rq st) (WHolding it)
| w_empty_exit : forall rq st,
    (* except Empty: with stats_lock: if stats_dict['in_progress'] == 0: break *)
    catches_empty = true ->
    worker_exits_on_empty st = true ->
    wstep (mkShared [] rq st) WIdle (mkShared [] rq st) (WExited ByEmpty)
| w_empty_retry : forall rq st,
    (* except Empty: ... continue *)
    catches_empty = true ->
    worker_exits_on_empty st = false ->
    wstep (mkShared [] rq st) WIdle (mkShared [] rq st) WIdle
| w_empty_dies : forall rq st,
    (* the clause itself raises: the exception leaves worker_process *)
    catches_empty = false ->
    wstep (mkShared [] rq st) WIdle (mkShared [] rq st) (WExited Died)
| w_begin : forall it q rq st,
    (* with stats_lock: stats_dict['in_progress'] += 1 *)
    wstep (mkShared q rq st) (WHolding it)
          (mkShared q rq (stats_begin st)) (WWorking it (start_job it))
| w_job : forall it j j' outs q rq st,
    job_step it j j' outs ->
    wstep (mkShared q rq st) (WWorking it j)
          (mkShared q (rq ++ outs) st) (WWorking it j')
| w_finish : forall it j outs dq q rq st,
    (* with stats_lock: stats_dict['completed'] += 1; ...['in_progress'] -= 1 *)
    job_finish it j outs dq ->
    wstep (mkShared q rq st) (WWorking it j)
          (mkShared q (rq ++ outs) (stats_finish dq st)) WIdle.

Record System := mkSystem {
  shared : Shared;
  workers : list Worker
}.

(** Interleaving: any worker may take the next action. *)
Inductive step : System -> System -> Prop :=
| step_worker : forall sh sh' l1 w w' l2,
    wstep sh w sh' w' ->
    step (mkSystem sh (l1 ++ w :: l2)) (mkSystem sh' (l1 ++ w' :: l2)).

Inductive steps : nat -> System -> System -> Prop :=
| steps_O : forall s, steps O s s
| steps_S : forall n s s' s'',
    steps n s s' -> step s' s'' -> steps (S n) s s''.

Definition stuck (s : System) : Prop := forall s', ~ step s s'.

(** [main]: the queue holds the tasks, then [pills] poison pills; [W]
    workers are started in state [w0]. *)
Definition pool_init (items : list Item) (pills W : nat) (w0 : Worker) : System :=
  mkSystem (mkShared (map Some items ++ repeat None pills) [] stats_init)
           (repeat w0 W).

Definition holding (w : Worker) : Z :=
  match w with WHolding _ | WWorking _ _ => 1 | _ => 0 end.

Definition working (w : Worker) : Z :=
  match w with WWorking _ _ => 1 | _ => 0 end.

(** 1 on the action that ends a task (the update of [completed]). *)
Definition finishes (w w' : Worker) : Z :=
  match w, w' with
  | WWorking _ _, WIdle => 1
  | _, _ => 0
  end.

Definition is_exited (w : Worker) : bool :=
  match w with WExited _ => true | _ => false end.

Definition exited_normally (w : Worker) : bool :=
  match w with WExited ByPill | WExited ByEmpty => true | _ => false end.

Definition exited_by_pill (w : Worker) : bool :=
  match w with WExited ByPill => true | _ => false end.

(** The worker has not met an empty queue. *)
Definition not_by_empty (w : Worker) : bool :=
  match w with WExited ByEmpty | WExited Died => false | _ => true end.

(** Pills a worker has still to take out of the queue (a worker whose setup
    failed leaves its pill there). *)
Definition owed (w : Worker) : Z :=
  match w with WExited ByPill | WExited ByEmpty => 0 | _ => 1 end.

Definition real_items (q : list (option Item)) : Z :=
  sumZ (fun x => match x with Some _ => 1 | None => 0 end) q.

Definition pills_in (q : list (option Item)) : Z :=
  sumZ (fun x => match x with Some _ => 0 | None => 1 end) q.

(** Tasks first, pills last. *)
Fixpoint pills_last (q : list (option Item)) : bool :=
  match q with
  | [] => true
  | Some _ :: r => pills_last r
  | None :: r => forallb (fun x => match x with None => true | Some _ => false end) r
  end.

(** Every task is in exactly one place: in the queue, in the hands of a
    worker, or counted in [completed]. *)
Definition conserved (N : Z) (s : System) : Prop :=
  let q := work_queue (shared s) in
  let st := stats (shared s) in
  (completed st + sumZ holding (workers s) + real_items q = N)%Z
  /\ in_progress st = sumZ working (workers s)
  /\ pills_last q = true
  /\ (existsb exited_normally (workers s) = true -> real_items q = 0%Z).

(** The pills still in the queue are those of the workers that have not
    taken theirs, and no worker has met an empty queue. *)
Definition pills_match (s : System) : Prop :=
  pills_in (work_queue (shared s)) = sumZ owed (workers s)
  /\ forallb not_by_empty (workers s) = true.

Variable job_cost : Job -> nat.

(** A task costs its pop, the stats update, its routine and the final
    update; a pill costs its pop. *)
Definition task_cost (x : option Item) : nat :=
  match x with
  | Some it => 3 + job_cost (start_job it)
  | None => 1
  end.

Definition worker_cost (w : Worker) : nat :=
  match w with
  | WSetup => 1
  | WIdle => 0
  | WHolding it => 2 + job_cost (start_job it)
  | WWorking _ j => 1 + job_cost j
  | WExited _ => 0
  end.

Definition sys_cost (s : System) : nat :=
  list_sum (map task_cost (work_queue (shared s)))
  + list_sum (map worker_cost (workers s)).

End Generic.
End Pool.

(* ===================================================================== *)
(** * The output side of the probate driver *)
(* ===================================================================== *)

Definition is_digit (c : ascii) : bool :=
  let n := nat_of_ascii c in (48 <=? n) && (n <=? 57).

(** [s[m.start():]] for [m = re.search(r'\d+', s)]: the text from the first
    digit on, [None] when there is no digit. *)
Fixpoint from_first_digit (s : string) : option string :=
  match s with
  | EmptyString => None
  | String c r => if is_digit c then Some s else from_first_digit r
  end.

(** [extract_property_address(full_address_string)] *)
Definition extract_property_address (full_address_string : string) : string :=
  if negb (PyStr.truthy full_address_string) || String.eqb full_address_string "N/A"
  then "N/A"
  else
    match from_first_digit full_address_string with
    | Some property_address => PyStr.strip property_address
    | None => full_address_string
    end.

(** [parse_address(address_string)]: street, city, state, zip. *)
Definition parse_address (address_string : string)
  : string * string * string * string :=
  if negb (PyStr.truthy address_string) || String.eqb address_string "N/A"
  then ("", "", "", "")
  else
    let address := PyStr.strip address_string in
    let parts := map PyStr.strip (PyStr.split_on "," address) in
    if 3 <=? List.length parts then
      let street := nth 0 parts "" in
      let city := nth 1 parts "" in
      let state_zip := PyStr.split_ws (nth 2 parts "") in
      let state := if 0 <? List.length state_zip then nth 0 state_zip "" else "" in
      let zip_code := if 1 <? List.length state_zip then nth 1 state_zip "" else "" in
      (street, city, state, zip_code)
    else if List.length parts =? 2 then
      let street := nth 0 parts "" in
      let rest := PyStr.split_ws (nth 1 parts "") in
      if 3 <=? List.length rest then
        (street,
         PyStr.join " " (firstn (List.length rest - 2) rest),
         nth (List.length rest - 2) rest "",
         nth (List.length rest - 1) rest "")
      else if List.length rest =? 2 then
        (street, "", nth 0 rest "", nth 1 rest "")
      else
        (street, nth 1 parts "", "", "")
    else
      (address, "", "", "").

(** Every character of the string passes the test. *)
Fixpoint string_forall (p : ascii -> bool) (s : string) : bool :=
  match s with
  | EmptyString => true
  | String c r => p c && string_forall p r
  end.

Definition not_space (c : ascii) : bool := negb (PyStr.is_space c).
Definition not_digit (c : ascii) : bool := negb (is_digit c).
Definition not_comma (c : ascii) : bool := negb (Ascii.eqb c ",").

(** [d[k]]: [None] stands for the [KeyError]. *)
Fixpoint dict_lookup {V : Type} (d : list (string * V)) (k : string) : option V :=
  match d with
  | [] => None
  | (k', v) :: r => if String.eqb k' k then Some v else dict_lookup r k
  end.

(** The row handed to [csv.DictWriter.writerow]. *)
Record CsvRow := mkCsvRow {
  csv_first_name : string;
  csv_last_name : string;
  csv_middle_name : string;
  csv_address : string;
  csv_city : string;
  csv_state : string;
  csv_zip : string
}.

(** The CSV part of the writer's body for one kept entry; [None] when
    [entry['address']] is missing. *)
Definition csv_row (entry : LogEntry) : option CsvRow :=
  match dict_lookup (entry_property entry) "address" with
  | None => None
  | Some address =>
      let property_address := extract_property_address address in
      let '(street, city, state, zip_code) := parse_address property_address in
      Some (mkCsvRow (first_name (entry_identity entry))
                     (last_name (entry_identity entry))
                     (middle_name (entry_identity entry))
                     street city state zip_code)
  end.

(* ===================================================================== *)
(** * The probate driver (dallasprobate.py) *)
(* ===================================================================== *)

(** [l[start:stop]] *)
Definition py_slice {A : Type} (l : list A) (start stop : Z) : list A :=
  let n := Z.of_nat (List.length l) in
  let clamp (i : Z) := if (i <? 0)%Z then Z.max 0 (i + n) else Z.min i n in
  let a := clamp start in
  let b := clamp stop in
  firstn (Z.to_nat (b - a)) (skipn (Z.to_nat a) l).

(** [enumerate(l, start=start)] *)
Fixpoint enumerate {A : Type} (l : list A) (start : Z) : list (Z * A) :=
  match l with
  | [] => []
  | x :: r => (start, x) :: enumerate r (start + 1)
  end.

Module Probate.

(** Local variables of the loop over the identities of one task. *)
Record Job := mkJob {
  owner_idx : nat;
  remaining : list Identity;
  owners_failed_filter : bool
}.

Definition start_job (it : WorkItem) : Job := mkJob 0 (parsed_owners it) false.

Section Driver.

Variable property_data_dict : list (string * list (string * string)).

(** One search, whatever the browser and the vendor answer. *)
Inductive job_step (it : WorkItem) : Job -> Job -> list LogEntry -> Prop :=
| search_step : forall idx ident rest off env,
    job_step it (mkJob idx (ident :: rest) off)
      (mkJob (S idx) rest
             (snd (search_identity property_data_dict it idx ident off env)))
      [fst (search_identity property_data_dict it idx ident off env)].

(** The stats update after the loop; the probate worker does not touch
    [qualified]. *)
Inductive job_finish (it : WorkItem) : Job -> list LogEntry -> Z -> Prop :=
| loop_done : forall idx off, job_finish it (mkJob idx [] off) [] 0%Z.

(** Searches still to be made for the task in hand. *)
Definition job_cost (j : Job) : nat := List.length (remaining j).

Definition Worker := @Pool.Worker WorkItem Job.
Definition Shared := @Pool.Shared WorkItem LogEntry.
Definition System := @Pool.System WorkItem Job LogEntry.

(** [except Empty:] with [from queue import Empty]. *)
Definition catches_empty : bool := true.

Definition wstep : Shared -> Worker -> Shared -> Worker -> Prop :=
  Pool.wstep start_job job_step job_finish catches_empty.

Definition step : System -> System -> Prop :=
  Pool.step start_job job_step job_finish catches_empty.

Definition steps : nat -> System -> System -> Prop :=
  Pool.steps start_job job_step job_finish catches_empty.

Definition stuck : System -> Prop :=
  Pool.stuck start_job job_step job_finish catches_empty.

(** The loop over the identities run to its end by one worker; [envs k]
    is the environment of the [k]-th search. *)
Fixpoint search_all (it : WorkItem) (idx : nat) (owners : list Identity)
    (off : bool) (envs : nat -> SearchEnv) : list LogEntry * bool :=
  match owners with
  | [] => ([], off)
  | ident :: rest =>
      let r := search_identity property_data_dict it idx ident off (envs idx) in
      let rs := search_all it (S idx) rest (snd r) envs in
      (fst r :: fst rs, snd rs)
  end.

(** Lines 471-598 for one task: the shared state afterwards and the final
    value of [owners_failed_filter]. *)
Definition process_item (it : WorkItem) (envs : nat -> SearchEnv) (sh : Shared)
  : Shared * bool :=
  let st := stats_begin (Pool.stats sh) in
  let r := search_all it 0 (parsed_owners it) false envs in
  (Pool.mkShared (Pool.work_queue sh)
                 (Pool.results_queue sh ++ fst r)
                 (stats_finish 0 st),
   snd r).

End Driver.

(** ** [main] *)

(** [owners_to_process = all_owners[start_idx:end_idx]] with the row it
    starts at. *)
Definition owners_to_process (all_owners : list string)
    (START_FROM_ROW END_AT_ROW : Z) : Z * list string :=
  let start_idx := Z.max 0 (START_FROM_ROW - 1) in
  let end_idx := Z.min (Z.of_nat (List.length all_owners)) END_AT_ROW in
  (start_idx, py_slice all_owners start_idx end_idx).

(** [for idx, raw_owner in enumerate(owners_to_process, start=start_idx+1)] *)
Definition tasks (start_idx : Z) (owners : list string) : list WorkItem :=
  map (fun p => mkWorkItem (fst p) (snd p) (parse_owner_name (snd p)))
      (enumerate owners (start_idx + 1)).

(** The queue after "Populate work queue" and "Add poison pills". *)
Definition populate (start_idx : Z) (owners : list string)
    (NUM_PARALLEL_INSTANCES : Z) : list (option WorkItem) :=
  map Some (tasks start_idx owners) ++ repeat None (Z.to_nat NUM_PARALLEL_INSTANCES).

(** The system [main] starts: [None] when there is nothing to process. *)
Definition main (all_owners : list string)
    (START_FROM_ROW END_AT_ROW NUM_PARALLEL_INSTANCES : Z) : option System :=
  let '(start_idx, owners) := owners_to_process all_owners START_FROM_ROW END_AT_ROW in
  match owners with
  | [] => None
  | _ =>
      Some (Pool.mkSystem
              (Pool.mkShared (populate start_idx owners NUM_PARALLEL_INSTANCES)
                             [] stats_init)
              (repeat Pool.WSetup (Z.to_nat NUM_PARALLEL_INSTANCES)))
  end.

(** ** The result writer *)

(** What [results_queue.get(timeout=5)] gives. *)
Inductive Got :=
| GotEntry (entry : LogEntry)
| GotPill
| GotEmpty.

(** The two counters of the writer and what it has appended so far: the
    entries whose block went to the TXT file in full, and the rows that went
    to the CSV file. *)
Record WriterState := mkWriterState {
  qualified_count : Z;
  total_processed : Z;
  txt_written : list LogEntry;
  csv_written : list CsvRow
}.

(** [entry.get('status') in ['FOUND_CLEAN', 'NOT_FOUND']] *)
Definition kept (entry : LogEntry) : bool :=
  existsb (Status_eqb (entry_status entry)) [FOUND_CLEAN; NOT_FOUND].

(** The test made by the writer on [queue.Empty]. *)
Definition writer_exits_on_empty (st : SharedStats) (total_tasks : Z) : bool :=
  (total_tasks <=? completed st)%Z && (in_progress st =? 0)%Z.

(** The [with open(txt_output_file, 'a')] block: it reads the eight
    property keys of the entry, and the file operations may raise. *)
Definition txt_block (entry : LogEntry) (txt_append : res unit) : res unit :=
  if forallb (fun k => match dict_lookup (entry_property entry) k with
                       | Some _ => true
                       | None => false
                       end) property_keys
  then txt_append
  else Raise "KeyError".

(** The CSV part: [entry['address']], the two address routines and the
    [with open(csv_output_file, 'a')] block. *)
Definition csv_block (entry : LogEntry) (csv_append : res unit) : res CsvRow :=
  match csv_row entry with
  | Some row => _ <- csv_append ;; Ok row
  | None => Raise "'address'"
  end.

(** One turn of the writer's [while True] from what [get] gave on;
    [txt_append] and [csv_append] are what the file operations of the two
    blocks do, [st] is the shared statistics at the one moment the turn
    takes [stats_lock].  The boolean is [true] on [break].  For an entry
    that is kept, [qualified_count += 1] comes first; an exception in one of
    the blocks goes to [except Exception: continue], past the update of
    [stats_dict['qualified']] and past [total_processed += 1]. *)
Definition result_writer_turn (total_tasks : Z) (g : Got)
    (txt_append csv_append : res unit)
    (w : WriterState) (st : SharedStats) : WriterState * SharedStats * bool :=
  match g with
  | GotPill => (w, st, true)
  | GotEntry entry =>
      if kept entry then
        let qc := (qualified_count w + 1)%Z in
        match txt_block entry txt_append with
        | Raise _ =>
            (mkWriterState qc (total_processed w) (txt_written w) (csv_written w),
             st, false)
        | Ok _ =>
            let txt := txt_written w ++ [entry] in
            match csv_block entry csv_append with
            | Raise _ =>
                (mkWriterState qc (total_processed w) txt (csv_written w), st, false)
            | Ok row =>
                (mkWriterState qc (total_processed w + 1) txt (csv_written w ++ [row]),
                 mkStats (completed st) qc (in_progress st), false)
            end
        end
      else
        (mkWriterState (qualified_count w) (total_processed w + 1)
                       (txt_written w) (csv_written w),
         st, false)
  | GotEmpty => (w, st, writer_exits_on_empty st total_tasks)
  end.

End Probate.

(* ===================================================================== *)
(** * The tax driver (dallastax.py) *)
(* ===================================================================== *)

Module Tax.

(** A task: [(idx, last_name, first_name)]. *)
Record Owner := mkOwner {
  owner_row : Z;
  owner_last : string;
  owner_first : string
}.

Section Driver.

(** The dict returned by [search_and_extract]; its fields play no part
    in the accounting. *)
Variable PropertyData : Type.

(** The record put on the results queue for a qualified property. *)
Record Qualified := mkQualified {
  q_worker_id : Z;
  q_row : Z;
  q_data : PropertyData
}.

(** [search_and_extract] catches its own exceptions and returns the
    property or [None]; appending to the shared file may raise. *)
Record Env := mkEnv {
  env_search : option PropertyData;
  env_write : res unit
}.

(** The inner [try] block up to the block under [stats_lock]: the records
    put on the results queue and [1 if property_data else 0].  The tax
    worker has no setup block, its workers start at the queue. *)
Definition try_body (worker_id : Z) (it : Owner) (env : Env)
  : res (list Qualified * Z) :=
  match env_search env with
  | Some property_data =>
      _ <- env_write env ;;
      Ok ([mkQualified worker_id (owner_row it) property_data], 1%Z)
  | None => Ok ([], 0%Z)
  end.

(** With its [except Exception as e] clause, which adds nothing to
    [qualified] and puts nothing on the results queue. *)
Definition process_owner (worker_id : Z) (it : Owner) (env : Env)
  : list Qualified * Z :=
  try_except (try_body worker_id it env) (fun _ => ([], 0%Z)).

(** Where the worker is in the routine of one task: before the inner [try]
    block, or past [results_queue.put] with the block under [stats_lock]
    still to come. *)
Inductive Job := searching | recorded.

(** A qualified property: the search, the append to the shared file and
    [results_queue.put(...)], which is the access to the shared state. *)
Inductive job_step (it : Owner) : Job -> Job -> list Qualified -> Prop :=
| owner_recorded : forall worker_id env r,
    process_owner worker_id it env = ([r], 1%Z) ->
    job_step it searching recorded [r].

(** The block under [stats_lock] that ends the task.  Without a property,
    and in the [except] clause, nothing was put and [qualified] stays; after
    the put, [qualified] is moved by one together with [completed] and
    [in_progress]. *)
Inductive job_finish (it : Owner) : Job -> list Qualified -> Z -> Prop :=
| owner_done : forall worker_id env,
    process_owner worker_id it env = ([], 0%Z) ->
    job_finish it searching [] 0%Z
| owner_counted : job_finish it recorded [] 1%Z.

Definition start_job (it : Owner) : Job := searching.

Definition job_cost (j : Job) : nat :=
  match j with searching => 1 | recorded => 0 end.

(** 1 for a worker whose record is on the results queue and not yet counted
    in [qualified]. *)
Definition uncounted (w : @Pool.Worker Owner Job) : Z :=
  match w with Pool.WWorking _ recorded => 1%Z | _ => 0%Z end.

Definition Worker := @Pool.Worker Owner Job.
Definition Shared := @Pool.Shared Owner Qualified.
Definition System := @Pool.System Owner Job Qualified.

(** [except multiprocessing.queues.Empty:] after [import multiprocessing]
    and [from multiprocessing import Manager, Queue, Lock]: the name
    [multiprocessing.queues] does not resolve. *)
Definition catches_empty : bool := false.

Definition wstep : Shared -> Worker -> Shared -> Worker -> Prop :=
  Pool.wstep start_job job_step job_finish catches_empty.

Definition step : System -> System -> Prop :=
  Pool.step start_job job_step job_finish catches_empty.

Definition steps : nat -> System -> System -> Prop :=
  Pool.steps start_job job_step job_finish catches_empty.

Definition stuck : System -> Prop :=
  Pool.stuck start_job job_step job_finish catches_empty.

(** The queue and the workers started by [main]. *)
Definition populate (all_owners : list Owner) (NUM_PARALLEL_INSTANCES : Z)
  : list (option Owner) :=
  map Some all_owners ++ repeat None (Z.to_nat NUM_PARALLEL_INSTANCES).

Definition main (all_owners : list Owner) (NUM_PARALLEL_INSTANCES : Z)
  : option System :=
  match all_owners with
  | [] => None
  | _ =>
      Some (Pool.mkSystem
              (Pool.mkShared (populate all_owners NUM_PARALLEL_INSTANCES)
                             [] stats_init)
              (repeat Pool.WIdle (Z.to_nat NUM_PARALLEL_INSTANCES)))
  end.

End Driver.

(** [load_owners_from_file]: the lines after the two header lines, numbered
    from 1; lines with fewer than two words are skipped. *)
Definition load_owners_from_file (lines : list string)
    (start_from_row : Z) (end_at_row : option Z) : list Owner :=
  let data_lines := skipn 2 lines in
  let all_owners :=
    flat_map (fun p =>
                let parts := PyStr.split_ws (snd p) in
                if 2 <=? List.length parts
                then [mkOwner (fst p) (nth 0 parts "") (nth 1 parts "")]
                else [])
             (enumerate data_lines 1) in
  let all_owners :=
    if (1 <? start_from_row)%Z
    then filter (fun o => (start_from_row <=? owner_row o)%Z) all_owners
    else all_owners in
  match end_at_row with
  | Some e => filter (fun o => (owner_row o <=? e)%Z) all_owners
  | None => all_owners
  end.

End Tax.

(* ===================================================================== *)
(** * Sample data and auxiliary predicates *)
(* ===================================================================== *)

(** An environment in which the search field cannot even be filled. *)
Definition dead_env : SearchEnv :=
  mkSearchEnv (Raise "closed") (Raise "closed")
              (Captcha.mkVendor (Raise "closed") (fun _ => Raise "closed"))
              (Raise "closed") (Raise "closed") (Raise "closed") [].

Definition amp_item : WorkItem := mkWorkItem 1 "&" (parse_owner_name "&").

Definition probate_demo (k : nat) : Probate.System :=
  let sys q st ws := Pool.mkSystem (Pool.mkShared q [] st) ws in
  match k with
  | 0 => sys [Some amp_item; None] (mkStats 0 0 0) [Pool.WSetup]
  | 1 => sys [Some amp_item; None] (mkStats 0 0 0) [Pool.WIdle]
  | 2 => sys [None] (mkStats 0 0 0) [Pool.WHolding amp_item]
  | 3 => sys [None] (mkStats 0 0 1) [Pool.WWorking amp_item (Probate.mkJob 0 [] false)]
  | 4 => sys [None] (mkStats 1 0 0) [Pool.WIdle]
  | _ => sys [] (mkStats 1 0 0) [Pool.WExited ByPill]
  end.

Definition jane : Tax.Owner := Tax.mkOwner 1 "DOE" "JANE".

Definition tax_demo (k : nat) : Tax.System unit :=
  let sys q st ws := Pool.mkSystem (Pool.mkShared q [] st) ws in
  match k with
  | 0 => sys [Some jane; None] (mkStats 0 0 0) [Pool.WIdle]
  | 1 => sys [None] (mkStats 0 0 0) [Pool.WHolding jane]
  | 2 => sys [None] (mkStats 0 0 1) [Pool.WWorking jane Tax.searching]
  | 3 => sys [None] (mkStats 1 0 0) [Pool.WIdle]
  | _ => sys [] (mkStats 1 0 0) [Pool.WExited ByPill]
  end.

(** The same task when the property qualifies, at the moment its record is
    on the results queue and the block under [stats_lock] is still to
    come. *)
Definition tax_recorded : Tax.System unit :=
  Pool.mkSystem
    (Pool.mkShared [None] [Tax.mkQualified unit 1 1 tt] (mkStats 0 0 1))
    [Pool.WWorking jane Tax.recorded].

Definition row_before (a b : Tax.Owner) : Prop := (Tax.owner_row a < Tax.owner_row b)%Z.

Definition stalled_env : SearchEnv :=
  mkSearchEnv (Ok tt) (Ok (None, None))
              (Captcha.mkVendor (Raise "unused") (fun _ => Raise "unused"))
              (Ok tt) (Ok tt)
              (Ok (fun _ => mkSnapshot true 0 "Loading...")) [].

Definition smith_item : WorkItem :=
  mkWorkItem 7 "SMITH JOHN" (parse_owner_name "SMITH JOHN").

(** No visited case of the list disqualifies. *)
Definition clean (seen : list Visit) : Prop :=
  forall t, In (VCase t) seen -> case_disqualifies t = false.

Definition type_cell (text : string) : Td :=
  mkTd (Some "card-data party-case-type") (Some text).

Definition status_cell (text : string) : Td :=
  mkTd (Some "card-data party-case-status") (Some text).

Definition heirship_card : PartyCard :=
  mkPartyCard (Some "Party
   Smith,   John  Q
 Case")
   [[type_cell "Guardianship"; status_cell "Open"];
    [type_cell " Heirship proceeding "; status_cell " open "];
    [type_cell "Decedent - Will"; status_cell "Open"]].

Definition found_env (cards : list PartyCard) : SearchEnv :=
  mkSearchEnv (Ok tt) (Ok (None, None))
              (Captcha.mkVendor (Raise "unused") (fun _ => Raise "unused"))
              (Ok tt) (Ok tt)
              (Ok (fun _ => mkSnapshot true (List.length cards) "")) cards.

Definition couple_item : WorkItem :=
  mkWorkItem 4 "SMITH JOHN & MARY EST OF" (parse_owner_name "SMITH JOHN & MARY EST OF").

Definition couple_envs (k : nat) : SearchEnv :=
  match k with
  | 0 => found_env [heirship_card]
  | _ => stalled_env
  end.

Definition vendor_refusing : Captcha.Vendor :=
  Captcha.mkVendor
    (Ok (Captcha.mkCreateResp (Some 1%Z) (Some "ERROR_KEY_DENIED_ACCESS") None))
    (fun _ => Raise "unused").

Definition vendor_stalling : Captcha.Vendor :=
  Captcha.mkVendor
    (Ok (Captcha.mkCreateResp (Some 0%Z) None (Some "task-1")))
    (fun _ => Ok (Captcha.mkPollResp (Some "processing") None)).

Definition captcha_env (v : Captcha.Vendor) : SearchEnv :=
  mkSearchEnv (Ok tt) (Ok (Some "ReCaptchaV2TaskProxyLess", Some "site-key"))
              v (Ok tt) (Ok tt)
              (Ok (fun _ => mkSnapshot true 0 "No records")) [].

(* ===================================================================== *)
(** * Workers, writer and [main] together *)
(* ===================================================================== *)

Module ProbateRun.

(** Where the writer process is: at [results_queue.get(timeout=5)]; past
    the get, with what it gave, before the rest of the turn; or out of its
    loop, on the pill or on the test of the [except Empty] clause. *)
Inductive WriterAt :=
| AtGet
| AtBody (g : Probate.Got)
| OutOnPill
| OutOnEmpty.

(** The pool, the writer process, whether [main] has put the writer's pill
    (it does so once every worker has been joined), and two histories: all
    entries put on the results queue so far, and all entries the writer has
    got from it. *)
Record Full := mkFull {
  pool : Probate.System;
  writer : Probate.WriterState;
  writer_at : WriterAt;
  pill_sent : bool;
  produced : list LogEntry;
  taken : list LogEntry
}.

(** [results_queue.get(timeout=5)] as the writer sees it: the oldest entry,
    the pill once [main] has put it behind the entries, or a timeout. *)
Definition writer_get (rq : list LogEntry) (pill_sent : bool)
  : Probate.Got * list LogEntry :=
  match rq with
  | e :: r => (Probate.GotEntry e, r)
  | [] => if pill_sent then (Probate.GotPill, []) else (Probate.GotEmpty, [])
  end.

(** The entry the writer holds between its get and the end of the turn. *)
Definition got_entry (g : Probate.Got) : list LogEntry :=
  match g with
  | Probate.GotEntry e => [e]
  | _ => []
  end.

Definition in_hand (a : WriterAt) : list LogEntry :=
  match a with
  | AtBody g => got_entry g
  | _ => []
  end.

(** Where the writer is after a turn. *)
Definition writer_after (g : Probate.Got) (brk : bool) : WriterAt :=
  if brk then
    match g with
    | Probate.GotPill => OutOnPill
    | _ => OutOnEmpty
    end
  else AtGet.

Section Run.

Variable property_data_dict : list (string * list (string * string)).
Variable total_tasks : Z.

(** One action of one process.  The writer makes two kinds of access to the
    shared state: its get on the results queue, and later in the same turn
    the block under [stats_lock] (the update of [qualified] for an entry,
    the test of the counters after a timeout).  Workers and [main] may act
    between the two. *)
Inductive full_step : Full -> Full -> Prop :=
| f_worker : forall p p' outs w a ps h t,
    (* any action of any worker *)
    Probate.step property_data_dict p p' ->
    Pool.results_queue (Pool.shared p')
    = Pool.results_queue (Pool.shared p) ++ outs ->
    full_step (mkFull p w a ps h t) (mkFull p' w a ps (h ++ outs) t)
| f_join : forall p w a h t,
    (* for p in processes: p.join(); results_queue.put(None) *)
    forallb Pool.is_exited (Pool.workers p) = true ->
    full_step (mkFull p w a false h t) (mkFull p w a true h t)
| f_get : forall q rq st ws w ps h t g rq',
    (* entry = results_queue.get(timeout=5) *)
    writer_get rq ps = (g, rq') ->
    full_step (mkFull (Pool.mkSystem (Pool.mkShared q rq st) ws) w AtGet ps h t)
              (mkFull (Pool.mkSystem (Pool.mkShared q rq' st) ws) w (AtBody g) ps h
                      (t ++ got_entry g))
| f_turn : forall q rq st ws w ps h t g txt_append csv_append w' st' brk,
    (* the rest of the turn *)
    Probate.result_writer_turn total_tasks g txt_append csv_append w st
    = (w', st', brk) ->
    full_step (mkFull (Pool.mkSystem (Pool.mkShared q rq st) ws) w (AtBody g) ps h t)
              (mkFull (Pool.mkSystem (Pool.mkShared q rq st') ws) w'
                      (writer_after g brk) ps h t).

Inductive full_steps : Full -> Full -> Prop :=
| full_refl : forall s, full_steps s s
| full_next : forall s s' s'', full_steps s s' -> full_step s' s'' -> full_steps s s''.

End Run.

(** The state in which [main] starts the writer and the workers. *)
Definition full_init (sys : Probate.System) : Full :=
  mkFull sys (Probate.mkWriterState 0 0 [] []) AtGet false [] [].

(** Searches still to be made for the tasks in the queue and in the hands of
    the workers. *)
Definition pending_in_queue (q : list (option WorkItem)) : Z :=
  sumZ (fun x => match x with
                 | Some it => Z.of_nat (List.length (parsed_owners it))
                 | None => 0%Z
                 end) q.

Definition pending_at (w : Probate.Worker) : Z :=
  match w with
  | Pool.WHolding it => Z.of_nat (List.length (parsed_owners it))
  | Pool.WWorking _ j => Z.of_nat (List.length (Probate.remaining j))
  | _ => 0%Z
  end.

Definition pending (p : Probate.System) : Z :=
  (pending_in_queue (Pool.work_queue (Pool.shared p))
   + sumZ pending_at (Pool.workers p))%Z.

(** Identities of a list of tasks. *)
Definition identities (items : list WorkItem) : Z :=
  sumZ (fun it => Z.of_nat (List.length (parsed_owners it))) items.

(** Turns of the writer that ended in [except Exception]: the kept entries
    counted in [qualified_count] whose row did not reach the CSV file. *)
Definition write_errors (w : Probate.WriterState) : Z :=
  (Probate.qualified_count w - Z.of_nat (List.length (Probate.csv_written w)))%Z.

(** The writer holds the pill, or has left on it. *)
Definition at_pill (a : WriterAt) : bool :=
  match a with
  | AtBody Probate.GotPill | OutOnPill => true
  | _ => false
  end.

(** What the writer has done with the entries whose turn is over. *)
Definition writer_inv (w : Probate.WriterState) (handled : list LogEntry) : Prop :=
  Probate.qualified_count w = Z.of_nat (List.length (filter Probate.kept handled))
  /\ (Probate.total_processed w + write_errors w = Z.of_nat (List.length handled))%Z
  /\ incl (Probate.txt_written w) (filter Probate.kept handled)
  /\ Forall (fun row => exists e, In e (Probate.txt_written w) /\ csv_row e = Some row)
            (Probate.csv_written w)
  /\ (List.length (Probate.csv_written w) <= List.length (Probate.txt_written w))
  /\ (Z.of_nat (List.length (Probate.txt_written w)) <= Probate.qualified_count w)%Z
  /\ (write_errors w = 0%Z -> Probate.txt_written w = filter Probate.kept handled).

(** What holds of the whole system at every moment: [N] tasks and [T]
    identities in all. *)
Definition full_inv (N T : Z) (s : Full) : Prop :=
  let sh := Pool.shared (pool s) in
  let w := writer s in
  Pool.conserved N (pool s)
  /\ produced s = taken s ++ Pool.results_queue sh
  /\ (exists handled,
         taken s = handled ++ in_hand (writer_at s) /\ writer_inv w handled)
  /\ (0 <= qualified (Pool.stats sh) <= Probate.qualified_count w)%Z
  /\ (write_errors w = 0%Z -> qualified (Pool.stats sh) = Probate.qualified_count w)
  /\ (Z.of_nat (List.length (produced s)) + pending (pool s) = T)%Z
  /\ (pill_sent s = true -> forallb Pool.is_exited (Pool.workers (pool s)) = true)
  /\ (at_pill (writer_at s) = true ->
      pill_sent s = true /\ Pool.results_queue sh = []).

End ProbateRun.

(** A page that answers "No records" at once. *)
Definition no_records_env : SearchEnv :=
  mkSearchEnv (Ok tt) (Ok (None, None))
              (Captcha.mkVendor (Raise "unused") (fun _ => Raise "unused"))
              (Ok tt) (Ok tt)
              (Ok (fun _ => mkSnapshot true 0 "No records")) [].

Definition john : Identity := mkIdentity "JOHN" "" "SMITH" "SMITH, JOHN".

Definition john_entry : LogEntry :=
  fst (search_identity [] smith_item 0 john false no_records_env).

(** One worker, one task with one identity, the writer: the state [main]
    starts and the state when all have finished. *)
Definition smith_start : ProbateRun.Full :=
  ProbateRun.full_init (Pool.pool_init [smith_item] 1 1 Pool.WSetup).

Definition john_row : list CsvRow :=
  match csv_row john_entry with
  | Some row => [row]
  | None => []
  end.

Definition smith_end : ProbateRun.Full :=
  ProbateRun.mkFull
    (Pool.mkSystem (Pool.mkShared [] [] (mkStats 1 1 0)) [Pool.WExited ByPill])
    (Probate.mkWriterState 1 1 [john_entry] john_row) ProbateRun.OutOnPill true
    [john_entry] [john_entry].

(** The same task when the writer's get times out before the worker has put
    its entry, and the writer reaches its test after the worker has counted
    the task. *)
Definition smith_race : ProbateRun.Full :=
  ProbateRun.mkFull
    (Pool.mkSystem (Pool.mkShared [] [john_entry] (mkStats 1 0 0)) [Pool.WExited ByPill])
    (Probate.mkWriterState 0 0 [] []) ProbateRun.OutOnEmpty false
    [john_entry] [].

(** The same task when the append to the TXT file fails. *)
Definition smith_failed_write : ProbateRun.Full :=
  ProbateRun.mkFull
    (Pool.mkSystem (Pool.mkShared [] [] (mkStats 1 0 0)) [Pool.WExited ByPill])
    (Probate.mkWriterState 1 0 [] []) ProbateRun.AtGet false
    [john_entry] [john_entry].

(* ===================================================================== *)
(** * The reusable solver ([CaptchaSolver], services/captcha/solver.py) *)
(* ===================================================================== *)

Definition lower_char (c : ascii) : ascii :=
  let n := nat_of_ascii c in
  if (65 <=? n) && (n <=? 90) then ascii_of_nat (n + 32) else c.

(** [s.lower()] *)
Fixpoint lower (s : string) : string :=
  match s with
  | EmptyString => EmptyString
  | String c r => String (lower_char c) (lower r)
  end.

Module Solver.

(** The script handed to the page executor, named by the response field it
    fills with the token. *)
Inductive Script :=
| fill_g_recaptcha_response (token : string)
| fill_h_captcha_response (token : string).

(** The Playwright page as the solver uses it; every call may raise. *)
Record Page := mkPage {
  content : res string;                          (* page.content() *)
  has_locator : bool;                            (* hasattr(page, 'locator') *)
  g_recaptcha_count : res nat;                   (* locator('.g-recaptcha').count() *)
  g_recaptcha_sitekey : res (option string);     (* ....get_attribute('data-sitekey') *)
  h_captcha_count : res nat;                     (* locator('.h-captcha').count() *)
  h_captcha_sitekey : res (option string);
  evaluate : Script -> res unit                  (* page.evaluate(script) *)
}.

(** [try: if count() > 0: return get_attribute(...)  except: pass] *)
Definition locator_probe (page_locator : option Page)
    (count : Page -> res nat) (sitekey : Page -> res (option string))
  : option (option string) :=
  match page_locator with
  | Some p =>
      if has_locator p then
        try_except
          (n <- count p ;;
           if 0 <? n then site_key <- sitekey p ;; Ok (Some site_key) else Ok None)
          (fun _ => None)
      else None
  | None => None
  end.

Section Detect.

(** The three [re.search] calls on the page content: the first group of the
    match, if any. *)
Variables re_recaptcha_v2 re_execute re_hcaptcha : string -> option string.

Definition detect_captcha_type (page_content : string) (page_locator : option Page)
  : option string * option string :=
  match locator_probe page_locator g_recaptcha_count g_recaptcha_sitekey with
  | Some site_key => (Some "ReCaptchaV2TaskProxyLess", site_key)
  | None =>
  match re_recaptcha_v2 page_content with
  | Some g => (Some "ReCaptchaV2TaskProxyLess", Some g)
  | None =>
  match (if PyStr.contains "grecaptcha.execute" page_content
         then re_execute page_content else None) with
  | Some g => (Some "ReCaptchaV3TaskProxyLess", Some g)
  | None =>
  match locator_probe page_locator h_captcha_count h_captcha_sitekey with
  | Some site_key => (Some "HCaptchaTaskProxyLess", site_key)
  | None =>
  match re_hcaptcha page_content with
  | Some g => (Some "HCaptchaTaskProxyLess", Some g)
  | None => (None, None)
  end end end end end.

(** [inject_token(page_executor, token, captcha_type)]: the result of the
    executor and the scripts handed to it. *)
Definition inject_token (page_executor : Script -> res unit)
    (token captcha_type : string) : res unit * list Script :=
  if String.eqb (lower captcha_type) "recaptcha" then
    (page_executor (fill_g_recaptcha_response token), [fill_g_recaptcha_response token])
  else if String.eqb (lower captcha_type) "hcaptcha" then
    (page_executor (fill_h_captcha_response token), [fill_h_captcha_response token])
  else (Ok tt, []).

(** [solve_and_inject(page, page_url, timeout)]: its result, the scripts
    handed to [page.evaluate] and the seconds slept. *)
Definition solve_and_inject (v : Captcha.Vendor) (page : Page) (timeout : Z)
  : res bool * list Script * nat :=
  match content page with
  | Raise e => (Raise e, [], 0)
  | Ok page_content =>
      let '(captcha_type, site_key) := detect_captcha_type page_content (Some page) in
      if negb (captcha_truthy captcha_type) then (Ok true, [], 0)
      else
        let '(token, t) := Captcha.solve v timeout in
        match token with
        | Raise e => (Raise e, [], t)
        | Ok None => (Ok false, [], t)
        | Ok (Some token) =>
            if negb (PyStr.truthy token) then (Ok false, [], t)
            else
              let '(r, scripts) := inject_token (evaluate page) token "recaptcha" in
              (_ <- r ;; Ok true, scripts, t)
        end
  end.

(** [solve_captcha_quick(api_key, page, page_url)] *)
Definition solve_captcha_quick (v : Captcha.Vendor) (page : Page)
  : res bool * list Script * nat :=
  solve_and_inject v page 180.

End Detect.

End Solver.

(* ===================================================================== *)
(** * The tax criteria ([check_consecutive_unpaid_years], dallastax.py) *)
(* ===================================================================== *)

Module TaxCriteria.

Definition MIN_CONSECUTIVE_YEARS : nat := 3.
Definition CURRENT_YEAR : Z := 2025.

Definition digit_value (c : ascii) : Z := Z.of_nat (nat_of_ascii c - 48).

(** [re.search(r'^(\d{4})\s', row_text)] and [int(year_match.group(1))] *)
Definition year_of (row_text : string) : option Z :=
  match row_text with
  | String a (String b (String c (String d (String s _)))) =>
      if is_digit a && is_digit b && is_digit c && is_digit d && PyStr.is_space s
      then Some (1000 * digit_value a + 100 * digit_value b
                 + 10 * digit_value c + digit_value d)%Z
      else None
  | _ => None
  end.

Section Floats.

(** Python floats and the operations the routine uses on them. *)
Variable F : Type.
Variable zero : F.
Variable sum : list F -> F.                  (* sum(values) *)
Variables div mul : F -> F -> F.
Variables gt ge : F -> F -> bool.            (* a > b, a >= b *)
Variables MIN_ANNUAL_TAX_RATE MAX_TOTAL_TAX_RATIO : F.

(** [[float(a.replace(',', '')) for a in re.findall(r'\$?([\d,]+\.\d{2})', row_text)]] *)
Variable amounts_of : string -> list F.

(** [year_data[year] = total_due] on a dict kept in insertion order. *)
Fixpoint year_set (year_data : list (Z * F)) (year : Z) (total_due : F) : list (Z * F) :=
  match year_data with
  | [] => [(year, total_due)]
  | (y, v) :: r =>
      if (y =? year)%Z then (y, total_due) :: r
      else (y, v) :: year_set r year total_due
  end.

Fixpoint year_get (year_data : list (Z * F)) (year : Z) : option F :=
  match year_data with
  | [] => None
  | (y, v) :: r => if (y =? year)%Z then Some v else year_get r year
  end.

(** The loop over the table rows; [row.inner_text()] may raise. *)
Fixpoint read_rows (rows : list (res string)) (year_data : list (Z * F))
  : res (list (Z * F)) :=
  match rows with
  | [] => Ok year_data
  | row :: r =>
      row_text <- row ;;
      match year_of row_text with
      | Some year =>
          match rev (amounts_of row_text) with
          | total_due :: _ => read_rows r (year_set year_data year total_due)
          | [] => read_rows r year_data
          end
      | None => read_rows r year_data
      end
  end.

(** [for year in range(CURRENT_YEAR - 1, CURRENT_YEAR - 10, -1)] *)
Definition years_checked : list Z :=
  map (fun k => (CURRENT_YEAR - 1 - Z.of_nat k)%Z) (seq 0 9).

(** The loop that collects [consecutive_years], with its two [break]s. *)
Fixpoint streak (years : list Z) (year_data : list (Z * F)) (expected_annual_tax : F)
  : list Z :=
  match years with
  | [] => []
  | year :: r =>
      match year_get year_data year with
      | None => []
      | Some amount_due =>
          if ge amount_due expected_annual_tax
          then year :: streak r year_data expected_annual_tax
          else []
      end
  end.

Definition check_body (page : res (list (res string))) (market_value : F)
  : res (bool * list (Z * F) * F) :=
  rows <- page ;;
  year_data <- read_rows rows [] ;;
  match year_data with
  | [] => Ok (false, [], zero)
  | _ =>
      let total_tax_all_years := sum (map snd year_data) in
      let tax_ratio :=
        if gt market_value zero then div total_tax_all_years market_value else zero in
      if gt tax_ratio MAX_TOTAL_TAX_RATIO then Ok (false, year_data, total_tax_all_years)
      else
        let expected_annual_tax := mul market_value MIN_ANNUAL_TAX_RATE in
        let consecutive_years := streak years_checked year_data expected_annual_tax in
        if List.length consecutive_years <? MIN_CONSECUTIVE_YEARS
        then Ok (false, year_data, total_tax_all_years)
        else Ok (true, year_data, total_tax_all_years)
  end.

(** [check_consecutive_unpaid_years(page, market_value)]; [page] stands for
    the click, the wait and [page.locator('table tr').all()]. *)
Definition check_consecutive_unpaid_years (page : res (list (res string)))
    (market_value : F) : bool * list (Z * F) * F :=
  try_except (check_body page market_value) (fun _ => (false, [], zero)).

End Floats.

End TaxCriteria.

(* ===================================================================== *)
(** * The tax search ([search_and_extract], dallastax.py) *)
(* ===================================================================== *)

(** [s.find(sub)]: the index of the first occurrence, [-1] when there is
    none. *)
Fixpoint find_from (sub s : string) (i : Z) : Z :=
  if prefix sub s then i
  else match s with
       | EmptyString => (-1)%Z
       | String _ r => find_from sub r (i + 1)
       end.

Definition py_find (s sub : string) : Z := find_from sub s 0.

(** [s[n:]] for [n >= 0] *)
Fixpoint drop (n : nat) (s : string) : string :=
  match n, s with
  | O, _ => s
  | S _, EmptyString => EmptyString
  | S k, String _ r => drop k r
  end.

Module TaxSearch.

(** [owner_text.split('\n')[0].strip()] *)
Definition name_line (owner_text : string) : string :=
  PyStr.strip (nth 0 (PyStr.split_on "010" owner_text) "").

(** The test on the owner cell of one result row: [true] when the row is
    opened, [false] on each way to the next row. *)
Definition row_accepted (owner_text search_pattern : string) : bool :=
  if PyStr.startswith owner_text search_pattern && PyStr.contains "EST OF" owner_text
  then
    let first_line := name_line owner_text in
    if PyStr.contains "EST OF" first_line then
      let est_of_pos_in_line := py_find first_line "EST OF" in
      let after_est_of_in_line :=
        PyStr.strip (drop (Z.to_nat (est_of_pos_in_line + 6)) first_line) in
      negb (PyStr.truthy after_est_of_in_line)
    else true
  else false.

Section Floats.

Variable F : Type.
Variable zero : F.
Variable sum : list F -> F.
Variables div mul : F -> F -> F.
Variables gt ge : F -> F -> bool.
Variable is_zero : F -> bool.                (* on which [/] raises *)
Variables MIN_ANNUAL_TAX_RATE MAX_TOTAL_TAX_RATIO : F.
Variable amounts_of : string -> list F.

(** The dict built by [extract_property_data]. *)
Record Extracted := mkExtracted {
  account_number : string;
  address : string;
  market_value : F;
  current_levy : F;
  prior_year_due : F
}.

(** The dict returned for a qualified property: the extracted data with
    the four keys added by [search_and_extract]. *)
Record PropertyData := mkPropertyData {
  extracted_data : Extracted;
  owner_name : string;
  year_data : list (Z * F);
  total_tax_owed : F;
  tax_to_value_ratio : F
}.

(** One row of the result table and what the site answers once its account
    link is followed. *)
Record ResultRow := mkResultRow {
  owner_cell : res string;                  (* row.locator('td').nth(1).inner_text() *)
  open_account : res unit;                  (* account_link.click() and the wait *)
  extracted : option Extracted;             (* extract_property_data(page) *)
  tax_detail : res (list (res string));     (* the rows of the tax detail table *)
  search_again : res unit                   (* goto, fill, fill, click and the wait *)
}.

(** The [for i, row in enumerate(rows)] loop; [Ok None] when it runs to its
    end. *)
Fixpoint scan_rows (rows : list ResultRow) (search_pattern : string)
  : res (option PropertyData) :=
  match rows with
  | [] => Ok None
  | row :: r =>
      cell <- owner_cell row ;;
      let owner_text := PyStr.strip cell in
      if row_accepted owner_text search_pattern then
        _ <- open_account row ;;
        match extracted row with
        | None => _ <- search_again row ;; scan_rows r search_pattern
        | Some property_data =>
            let '(meets_criteria, year_data, total_tax) :=
              TaxCriteria.check_consecutive_unpaid_years
                F zero sum div mul gt ge MIN_ANNUAL_TAX_RATE MAX_TOTAL_TAX_RATIO
                amounts_of (tax_detail row) (market_value property_data) in
            if meets_criteria then
              if is_zero (market_value property_data)
              then Raise "float division by zero"
              else Ok (Some (mkPropertyData property_data (name_line owner_text)
                               year_data total_tax
                               (div total_tax (market_value property_data))))
            else _ <- search_again row ;; scan_rows r search_pattern
        end
      else scan_rows r search_pattern
  end.

(** A row the loop passes over: its owner cell is read and either fails the
    test, or the row is opened, gives no data or fails the criteria, and
    the search is made again. *)
Definition passed_over (row : ResultRow) (search_pattern : string) : Prop :=
  exists cell,
    owner_cell row = Ok cell
    /\ (row_accepted (PyStr.strip cell) search_pattern = false
        \/ (open_account row = Ok tt
            /\ search_again row = Ok tt
            /\ (extracted row = None
                \/ exists e, extracted row = Some e
                             /\ fst (fst (TaxCriteria.check_consecutive_unpaid_years
                                            F zero sum div mul gt ge MIN_ANNUAL_TAX_RATE
                                            MAX_TOTAL_TAX_RATIO amounts_of (tax_detail row)
                                            (market_value e))) = false))).

(** The row that gives the result. *)
Definition wins (row : ResultRow) (search_pattern : string)
    (pd : PropertyData) : Prop :=
  exists cell,
    owner_cell row = Ok cell
    /\ row_accepted (PyStr.strip cell) search_pattern = true
    /\ open_account row = Ok tt
    /\ extracted row = Some (extracted_data pd)
    /\ TaxCriteria.check_consecutive_unpaid_years
         F zero sum div mul gt ge MIN_ANNUAL_TAX_RATE MAX_TOTAL_TAX_RATIO amounts_of
         (tax_detail row) (market_value (extracted_data pd))
       = (true, year_data pd, total_tax_owed pd)
    /\ is_zero (market_value (extracted_data pd)) = false
    /\ owner_name pd = name_line (PyStr.strip cell)
    /\ tax_to_value_ratio pd
       = div (total_tax_owed pd) (market_value (extracted_data pd)).

(** [search_and_extract(page, last_name, first_name)]; [search] stands for
    the navigation to the result table and [locator(...).all()]. *)
Definition search_and_extract (search : res (list ResultRow))
    (last_name first_name : string) : option PropertyData :=
  try_except
    (rows <- search ;; scan_rows rows (last_name ++ " " ++ first_name)%string)
    (fun _ => None).

End Floats.

End TaxSearch.

(** Sample data for the routines above. *)
Definition vendor_ready_third : Captcha.Vendor :=
  Captcha.mkVendor
    (Ok (Captcha.mkCreateResp (Some 0%Z) None (Some "task-1")))
    (fun attempt =>
       if attempt <? 2 then Ok (Captcha.mkPollResp (Some "processing") None)
       else Ok (Captcha.mkPollResp (Some "ready") (Some (Some "token-1")))).

Definition hcaptcha_page : Solver.Page :=
  Solver.mkPage (Ok "<div class='h-captcha' data-sitekey='k'></div>") true
                (Ok 0) (Ok None) (Ok 1) (Ok (Some "k")) (fun _ => Ok tt).

(** Three unpaid years of 3,100.00 each on a market value of 100,000.00;
    the sample counts in whole cents and takes the ratio in percent. *)
Definition sample_amounts (row_text : string) : list Z :=
  if PyStr.contains "$3,100.00" row_text then [310000%Z] else [].

Definition unpaid_rows : list (res string) :=
  [Ok "Year Levy Due"; Ok "2024 $3,100.00"; Ok "2023 $3,100.00"; Ok "2022 $3,100.00"].

Definition sample_check (page : res (list (res string))) (market_value : Z)
  : bool * list (Z * Z) * Z :=
  TaxCriteria.check_consecutive_unpaid_years
    Z 0%Z (fold_right Z.add 0%Z) (fun a b => (a * 100 / b)%Z) (fun a b => (a * b / 1000)%Z)
    (fun a b => (b <? a)%Z) (fun a b => (b <=? a)%Z) 15%Z 70%Z sample_amounts
    page market_value.

(** One result row whose owner cell reads [DOE JANE EST OF] and whose tax
    detail shows the three unpaid years. *)
Definition doe_cell : string :=
  ("DOE JANE EST OF" ++ String "010" "123 MAIN ST")%string.

Definition doe_row : TaxSearch.ResultRow Z :=
  TaxSearch.mkResultRow Z
    (Ok doe_cell) (Ok tt)
    (Some (TaxSearch.mkExtracted Z "00001" "123 MAIN ST" 10000000%Z 310000%Z 620000%Z))
    (Ok unpaid_rows) (Ok tt).

Definition sample_search (search : res (list (TaxSearch.ResultRow Z)))
    (last_name first_name : string) : option (TaxSearch.PropertyData Z) :=
  TaxSearch.search_and_extract
    Z 0%Z (fold_right Z.add 0%Z) (fun a b => (a * 100 / b)%Z) (fun a b => (a * b / 1000)%Z)
    (fun a b => (b <? a)%Z) (fun a b => (b <=? a)%Z) (Z.eqb 0) 15%Z 70%Z sample_amounts
    search last_name first_name.

Definition doe_property : TaxSearch.PropertyData Z :=
  TaxSearch.mkPropertyData Z
    (TaxSearch.mkExtracted Z "00001" "123 MAIN ST" 10000000%Z 310000%Z 620000%Z)
    "DOE JANE EST OF" [(2024, 310000); (2023, 310000); (2022, 310000)]%Z 930000%Z 9%Z.

(* ===================================================================== *)
(** * Facts about the worker pool *)
(* ===================================================================== *)

Module PoolFacts.
Import Pool.
Section Generic.

Local Open Scope Z_scope.

Context {Item Job Out : Type}.
Variable start_job : Item -> Job.
Variable job_step : Item -> Job -> Job -> list Out -> Prop.
Variable job_finish : Item -> Job -> list Out -> Z -> Prop.
Variable catches_empty : bool.
Variable job_cost : Job -> nat.

Local Abbreviation Worker := (@Pool.Worker Item Job).
Local Abbreviation System := (@Pool.System Item Job Out).
Local Abbreviation wstep := (Pool.wstep start_job job_step job_finish catches_empty).
Local Abbreviation step := (Pool.step start_job job_step job_finish catches_empty).
Local Abbreviation steps := (Pool.steps start_job job_step job_finish catches_empty).
Local Abbreviation stuck := (Pool.stuck start_job job_step job_finish catches_empty).
Local Abbreviation sys_cost := (Pool.sys_cost start_job job_cost).
Local Abbreviation pool_init := (@Pool.pool_init Item Job Out).

Lemma sumZ_app : forall (A : Type) (f : A -> Z) l1 l2,
  sumZ f (l1 ++ l2) = (sumZ f l1 + sumZ f l2)%Z.
Proof. induction l1; intros; simpl; [reflexivity | rewrite IHl1; lia]. Qed.

Lemma sumZ_mid : forall (A : Type) (f : A -> Z) l1 x l2,
  sumZ f (l1 ++ x :: l2) = (sumZ f l1 + f x + sumZ f l2)%Z.
Proof. intros; rewrite sumZ_app; simpl; lia. Qed.

Lemma sumZ_repeat : forall (A : Type) (f : A -> Z) x n,
  sumZ f (repeat x n) = (Z.of_nat n * f x)%Z.
Proof. induction n; [reflexivity |]. cbn [repeat sumZ]. rewrite IHn. lia. Qed.

Lemma sumZ_nonneg : forall (A : Type) (f : A -> Z) l,
  (forall x, 0 <= f x)%Z -> (0 <= sumZ f l)%Z.
Proof. induction l; intros; simpl; [lia | pose proof (H a); specialize (IHl H); lia]. Qed.

Lemma sumZ_zero : forall (A : Type) (f : A -> Z) (p : A -> bool) l,
  (forall x, p x = true -> f x = 0%Z) -> forallb p l = true -> sumZ f l = 0%Z.
Proof.
  induction l; intros Hp Hall; simpl in *; [reflexivity |].
  apply andb_true_iff in Hall as [Ha Hl]. rewrite (Hp _ Ha), IHl; auto.
Qed.

Lemma owed_nonneg : forall w : Worker, 0 <= owed w.
Proof. destruct w as [ | | | | []]; simpl; lia. Qed.

Lemma all_pills_no_items : forall q : list (option Item),
  forallb (fun x : option Item => match x with None => true | Some _ => false end) q = true ->
  real_items q = 0%Z.
Proof.
  intros q H. unfold real_items.
  apply sumZ_zero with (p := fun x : option Item => match x with None => true | Some _ => false end);
    [intros [it|]; [discriminate | reflexivity] | exact H].
Qed.

Lemma pills_last_init : forall (items : list Item) n,
  pills_last (map Some items ++ repeat None n) = true.
Proof.
  induction items; intros; simpl; [| apply IHitems].
  destruct n; simpl; [reflexivity |].
  induction n; simpl; [reflexivity | exact IHn].
Qed.

Lemma real_items_init : forall (items : list Item) n,
  real_items (map Some items ++ repeat None n) = Z.of_nat (List.length items).
Proof.
  intros. unfold real_items. rewrite sumZ_app, sumZ_repeat.
  induction items as [|it items IH]; [simpl; lia |].
  cbn [map sumZ List.length]. rewrite Nat2Z.inj_succ. lia.
Qed.

Lemma pills_in_init : forall (items : list Item) n,
  pills_in (map Some items ++ repeat None n) = Z.of_nat n.
Proof.
  intros. unfold pills_in. rewrite sumZ_app, sumZ_repeat.
  induction items as [|it items IH]; [simpl; lia |].
  cbn [map sumZ]. lia.
Qed.

(** ** Conservation of tasks *)

Lemma conserved_init : forall (items : list Item) pills W (w0 : Worker),
  is_exited w0 = false -> holding w0 = 0%Z ->
  conserved (Z.of_nat (List.length items)) (pool_init items pills W w0).
Proof.
  intros items pills W w0 Hex Hh. unfold conserved, Pool.pool_init; simpl.
  rewrite !sumZ_repeat, real_items_init, pills_last_init.
  assert (Hw : working w0 = 0%Z) by (destruct w0; simpl in *; congruence).
  rewrite Hh, Hw. repeat split; try lia.
  intros H. apply existsb_exists in H as (w & Hin & Hw').
  apply repeat_spec in Hin; subst w. destruct w0 as [ | | | | []]; discriminate.
Qed.

Lemma real_items_some : forall (it : Item) q, real_items (Some it :: q) = 1 + real_items q.
Proof. reflexivity. Qed.

Lemma real_items_none : forall q : list (option Item), real_items (None :: q) = real_items q.
Proof. intros; unfold real_items; cbn [sumZ]; lia. Qed.

Lemma real_items_nonneg : forall q : list (option Item), 0 <= real_items q.
Proof. intros; apply sumZ_nonneg; intros [?|]; lia. Qed.

Lemma conserved_step : forall N (s s' : System),
  conserved N s -> step s s' -> conserved N s'.
Proof.
  intros N s s' (H1 & H2 & H3 & H4) Hs.
  destruct Hs as [sh sh' l1 w w' l2 Hw]. unfold conserved in *.
  cbn [shared workers] in *.
  rewrite !sumZ_mid in *. rewrite !existsb_app in *. cbn [existsb] in *.
  destruct Hw;
    cbn [work_queue stats completed in_progress stats_begin stats_finish
         holding working exited_normally orb] in *;
    rewrite ?real_items_some, ?real_items_none in *;
    (split; [lia | split; [lia | split; [try assumption | try assumption]]]).
  - (* pill: only pills are left *)
    cbn [pills_last] in H3.
    destruct q as [|[it|] r]; cbn [pills_last forallb] in *;
      [reflexivity | discriminate | exact H3].
  - intros _. apply all_pills_no_items. exact H3.
  - (* task popped: no worker has left yet *)
    intros H. specialize (H4 H). pose proof (real_items_nonneg q). lia.
  - (* empty queue *)
    intros _. reflexivity.
Qed.

Lemma conserved_steps : forall N n (s s' : System),
  conserved N s -> steps n s s' -> conserved N s'.
Proof. intros N n s s' Hc Hs. induction Hs; eauto using conserved_step. Qed.

(** At the end of a run in which every worker left its loop on a pill or on
    the empty-queue test, every task has been counted. *)
Lemma conserved_final : forall N (s : System),
  conserved N s -> workers s <> [] ->
  forallb exited_normally (workers s) = true ->
  completed (stats (shared s)) = N /\ in_progress (stats (shared s)) = 0%Z
  /\ real_items (work_queue (shared s)) = 0%Z.
Proof.
  intros N s (H1 & H2 & H3 & H4) Hne Hall.
  assert (Hh : sumZ holding (workers s) = 0%Z).
  { apply sumZ_zero with (p := exited_normally); [| exact Hall].
    intros [ | | | | []]; simpl; congruence. }
  assert (Hw : sumZ working (workers s) = 0%Z).
  { apply sumZ_zero with (p := exited_normally); [| exact Hall].
    intros [ | | | | []]; simpl; congruence. }
  assert (He : existsb exited_normally (workers s) = true).
  { destruct (workers s) as [|w r]; [congruence |].
    simpl in *. apply andb_true_iff in Hall as [-> _]. reflexivity. }
  specialize (H4 He). repeat split; lia.
Qed.

(** ** Progress *)

Lemma not_all_exited_split : forall ws : list Worker,
  forallb is_exited ws = false ->
  exists l1 w l2, ws = l1 ++ w :: l2 /\ is_exited w = false.
Proof.
  induction ws as [|w r IH]; cbn [forallb]; intros H; [discriminate |].
  destruct (is_exited w) eqn:Hw.
  - destruct (IH H) as (l1 & w' & l2 & -> & Hw').
    exists (w :: l1), w', l2. split; [reflexivity | exact Hw'].
  - exists [], w, r. split; [reflexivity | exact Hw].
Qed.

Hypothesis job_progress : forall it j,
  (exists j' outs, job_step it j j' outs) \/ (exists outs dq, job_finish it j outs dq).

(** A worker that has not left its loop can always act. *)
Lemma progress : forall s : System,
  forallb is_exited (workers s) = false -> exists s', step s s'.
Proof.
  intros [sh ws] H. cbn [workers] in H.
  destruct (not_all_exited_split _ H) as (l1 & w & l2 & -> & Hw).
  destruct sh as [q rq st].
  destruct w as [ | | it | it j | r]; [ | | | | discriminate].
  - eexists. apply step_worker. apply w_setup_ok.
  - destruct q as [|[it|] q].
    + destruct catches_empty.
      * destruct (worker_exits_on_empty st) eqn:He.
        -- eexists. apply step_worker. apply w_empty_exit; [reflexivity | exact He].
        -- eexists. apply step_worker. apply w_empty_retry; [reflexivity | exact He].
      * eexists. apply step_worker. apply w_empty_dies. reflexivity.
    + eexists. apply step_worker. apply w_item.
    + eexists. apply step_worker. apply w_pill.
  - eexists. apply step_worker. apply w_begin.
  - destruct (job_progress it j) as [(j' & outs & Hj) | (outs & dq & Hj)].
    + eexists. apply step_worker. eapply w_job. exact Hj.
    + eexists. apply step_worker. eapply w_finish. exact Hj.
Qed.

Lemma stuck_all_exited : forall s : System,
  stuck s -> forallb is_exited (workers s) = true.
Proof.
  intros s Hs. destruct (forallb is_exited (workers s)) eqn:H; [reflexivity |].
  destruct (progress _ H) as (s' & Hstep). destruct (Hs _ Hstep).
Qed.

(** ** As many pills as workers *)

Lemma pills_match_init : forall (items : list Item) W (w0 : Worker),
  is_exited w0 = false ->
  pills_match (pool_init items W W w0).
Proof.
  intros items W w0 Hex. unfold pills_match, Pool.pool_init.
  cbn [shared workers work_queue].
  rewrite pills_in_init, sumZ_repeat. split.
  - destruct w0; cbn [owed]; try lia; discriminate.
  - apply forallb_forall. intros w Hin. apply repeat_spec in Hin; subst w.
    destruct w0; try reflexivity; discriminate.
Qed.

Lemma pills_in_none : forall q : list (option Item), pills_in (None :: q) = 1 + pills_in q.
Proof. reflexivity. Qed.

Lemma pills_in_some : forall (it : Item) q, pills_in (Some it :: q) = pills_in q.
Proof. intros; unfold pills_in; cbn [sumZ]; lia. Qed.

Lemma sumZ_owed_nonneg : forall ws : list Worker, 0 <= sumZ owed ws.
Proof. intros; apply sumZ_nonneg, owed_nonneg. Qed.

(** With the pills matched, an idle worker never finds the queue empty. *)
Lemma pills_match_nonempty : forall (sh : @Shared Item Out) (l1 l2 : list Worker),
  pills_match (mkSystem sh (l1 ++ WIdle :: l2)) -> work_queue sh <> [].
Proof.
  intros sh l1 l2 [H _] Hq. cbn [shared workers] in H.
  rewrite Hq, sumZ_mid in H. cbn [owed] in H.
  pose proof (sumZ_owed_nonneg l1). pose proof (sumZ_owed_nonneg l2).
  unfold pills_in in H; cbn [sumZ] in H. lia.
Qed.

Lemma pills_match_step : forall s s' : System,
  pills_match s -> step s s' -> pills_match s'.
Proof.
  intros s s' Hm Hs. destruct Hs as [sh sh' l1 w w' l2 Hw].
  destruct Hw;
    try (exfalso; exact (pills_match_nonempty _ _ _ Hm eq_refl));
    destruct Hm as [H1 H2]; unfold pills_match in *; cbn [shared workers work_queue] in *;
    rewrite !sumZ_mid in *; rewrite !forallb_app in *; cbn [forallb] in *;
    cbn [owed not_by_empty] in *; rewrite ?pills_in_none, ?pills_in_some in *;
    (split; [lia | assumption]).
Qed.

Lemma pills_match_steps : forall n (s s' : System),
  pills_match s -> steps n s s' -> pills_match s'.
Proof. intros n s s' Hm Hs. induction Hs; eauto using pills_match_step. Qed.

(** ** A measure that every action decreases *)

Hypothesis job_step_cost : forall it j j' outs,
  job_step it j j' outs -> (job_cost j' < job_cost j)%nat.

Lemma list_sum_cons : forall x l, list_sum (x :: l) = (x + list_sum l)%nat.
Proof. reflexivity. Qed.

Lemma cost_step : forall s s' : System,
  pills_match s -> step s s' -> (sys_cost s' < sys_cost s)%nat.
Proof.
  intros s s' Hm Hs. destruct Hs as [sh sh' l1 w w' l2 Hw].
  unfold Pool.sys_cost. cbn [shared workers].
  rewrite !map_app, !list_sum_app. cbn [map list_sum].
  destruct Hw;
    try (exfalso; exact (pills_match_nonempty _ _ _ Hm eq_refl));
    cbn [work_queue map task_cost worker_cost]; rewrite !list_sum_cons;
    try match goal with H : job_step _ _ _ _ |- _ => apply job_step_cost in H end;
    lia.
Qed.

(** Every schedule is finite: a run of [n] actions has spent [n] of the
    initial measure. *)
Lemma steps_bounded : forall n (s s' : System),
  pills_match s -> steps n s s' -> (n + sys_cost s' <= sys_cost s)%nat.
Proof.
  intros n s s' Hm Hs. induction Hs; [lia |].
  specialize (IHHs Hm).
  pose proof (cost_step _ _ (pills_match_steps _ _ _ Hm Hs) H). lia.
Qed.

Lemma no_items_no_pills_empty : forall q : list (option Item),
  real_items q = 0 -> pills_in q = 0 -> q = [].
Proof.
  intros [|[it|] q] Hr Hp; [reflexivity | | ].
  - rewrite real_items_some in Hr. pose proof (real_items_nonneg q). lia.
  - rewrite pills_in_none in Hp.
    assert (0 <= pills_in q) by (apply sumZ_nonneg; intros [?|]; lia). lia.
Qed.

Lemma steps_head : forall n (s s1 s' : System),
  step s s1 -> steps n s1 s' -> steps (S n) s s'.
Proof.
  intros n s s1 s' H Hs. induction Hs.
  - eapply steps_S; [apply steps_O | exact H].
  - eapply steps_S; [apply IHHs; exact H | assumption].
Qed.

(** From any state with the pills matched the pool can be run until every
    worker has left its loop. *)
Lemma run_to_end : forall c (s : System),
  (sys_cost s <= c)%nat -> pills_match s ->
  exists m s', steps m s s' /\ forallb is_exited (workers s') = true.
Proof.
  induction c as [|c IH]; intros s Hc Hm.
  - destruct (forallb is_exited (workers s)) eqn:He.
    + exists O, s. split; [apply steps_O | exact He].
    + destruct (progress _ He) as (s1 & H1).
      pose proof (cost_step _ _ Hm H1). lia.
  - destruct (forallb is_exited (workers s)) eqn:He.
    + exists O, s. split; [apply steps_O | exact He].
    + destruct (progress _ He) as (s1 & H1).
      pose proof (cost_step _ _ Hm H1) as Hlt.
      destruct (IH s1 ltac:(lia) (pills_match_step _ _ Hm H1)) as (m & s' & Hs & Hall).
      exists (S m), s'. split; [eapply steps_head; eassumption | exact Hall].
Qed.

(** Only the end of a task moves [completed], and by one. *)
Lemma completed_wstep : forall sh w sh' w',
  wstep sh w sh' w' ->
  completed (stats sh') = completed (stats sh) + finishes w w'.
Proof.
  intros sh w sh' w' H.
  destruct H; cbn [stats stats_begin stats_finish completed finishes]; lia.
Qed.

(** The pool with [W] pills for [W] workers: every schedule ends, it ends
    with every worker out of its loop, none of them through the empty-queue
    test; when no setup failed, each worker has taken one pill, the queue
    is empty and every task is counted. *)
Lemma pool_shutdown : forall (items : list Item) W (w0 : Worker) n (s : System),
  (0 < W)%nat -> is_exited w0 = false -> holding w0 = 0 ->
  steps n (pool_init items W W w0) s ->
  (n <= sys_cost (pool_init items W W w0))%nat
  /\ (stuck s ->
      forallb is_exited (workers s) = true
      /\ forallb not_by_empty (workers s) = true
      /\ (forallb exited_normally (workers s) = true ->
          forallb exited_by_pill (workers s) = true
          /\ work_queue (shared s) = []
          /\ completed (stats (shared s)) = Z.of_nat (List.length items)
          /\ in_progress (stats (shared s)) = 0)).
Proof.
  intros items W w0 n s HW Hex Hh Hs.
  pose proof (pills_match_init items W w0 Hex) as Hm0.
  pose proof (steps_bounded _ _ _ Hm0 Hs) as Hb.
  pose proof (pills_match_steps _ _ _ Hm0 Hs) as [Hp Hne].
  pose proof (conserved_steps _ _ _ _ (conserved_init items W W w0 Hex Hh) Hs) as Hc.
  split; [lia |]. intros Hst.
  split; [apply stuck_all_exited; exact Hst |]. split; [exact Hne |].
  intros Hnorm.
  assert (Hpill : forallb exited_by_pill (workers s) = true).
  { apply forallb_forall. intros w Hin.
    pose proof (proj1 (forallb_forall _ _) Hnorm w Hin) as Ha.
    pose proof (proj1 (forallb_forall _ _) Hne w Hin) as Hb'.
    destruct w as [ | | | | []]; try discriminate; reflexivity. }
  assert (Hlen : workers s <> []).
  { clear - Hs HW. assert (Hl : List.length (workers s) = W).
    { remember (pool_init items W W w0) as s0 eqn:E.
      induction Hs; [subst; apply repeat_length |].
      specialize (IHHs E). destruct H. cbn [workers] in *.
      rewrite length_app in *. cbn [List.length] in *. exact IHHs. }
    intros E. rewrite E in Hl. cbn in Hl. lia. }
  destruct (conserved_final _ _ Hc Hlen Hnorm) as (Hc1 & Hc2 & Hc3).
  repeat split; try assumption.
  apply no_items_no_pills_empty; [exact Hc3 |].
  rewrite Hp. apply sumZ_zero with (p := exited_by_pill); [| exact Hpill].
  intros [ | | | | []]; cbn; congruence.
Qed.

End Generic.
End PoolFacts.

(* ===================================================================== *)
(** * Checks on concrete inputs *)
(* ===================================================================== *)

Example replace_does_not_overlap : PyStr.replace "aaaa" "aa" "b" = "bb".
Proof. reflexivity. Qed.

Example split_keeps_empty_fields : PyStr.split_on "," "a,,b," = ["a"; ""; "b"; ""].
Proof. reflexivity. Qed.

Example split_ws_drops_blanks :
  PyStr.split_ws "  SMITH   JOHN
 Q " = ["SMITH"; "JOHN"; "Q"].
Proof. reflexivity. Qed.

Example slice_inside : py_slice [1; 2; 3; 4] 1 3 = [2; 3].
Proof. reflexivity. Qed.

Example slice_clamped : py_slice [1; 2; 3; 4] 0 10 = [1; 2; 3; 4]
                        /\ py_slice [1; 2; 3; 4] 0 (-1) = [1; 2; 3]
                        /\ py_slice [1; 2; 3; 4] 2 1 = [].
Proof. repeat split. Qed.

Example single_owner : parse_owner_name "DOE, JANE EST OF"
                       = [mkIdentity "JANE" "" "DOE" "DOE, JANE"].
Proof. vm_compute. reflexivity. Qed.

Example phrase_inside_a_word : parse_owner_name "forest esther q"
                               = [mkIdentity "HER" "Q" "FOR" "FOR, HER"].
Proof. vm_compute. reflexivity. Qed.

Example label_of_co_owner : owner_label couple_item 1 = "4.2"
                            /\ owner_label smith_item 0 = "7".
Proof. split; vm_compute; reflexivity. Qed.

Example poll_sees_late_marker :
  checkResults maxAttempts 0
    (fun k => mkSnapshot true 0 (if k =? 20 then "No records" else ""))
  = Some (mkPollResult true 0, repeat 1000 19).
Proof. vm_compute. reflexivity. Qed.

Example name_with_middle_initial :
  process_search_results [heirship_card] "John" "Quincy" "Smith" = true
  /\ process_search_results [heirship_card] "John" "" "Smyth" = false.
Proof. split; vm_compute; reflexivity. Qed.

(* ===================================================================== *)
(** * The drivers as pools *)
(* ===================================================================== *)

Lemma probate_job_step_cost : forall pdd it j j' outs,
  Probate.job_step pdd it j j' outs -> Probate.job_cost j' < Probate.job_cost j.
Proof. intros pdd it j j' outs H. destruct H. unfold Probate.job_cost; simpl. lia. Qed.

Lemma probate_job_progress : forall pdd it j,
  (exists j' outs, Probate.job_step pdd it j j' outs)
  \/ (exists outs dq, Probate.job_finish it j outs dq).
Proof.
  intros pdd it [idx [|ident rest] off].
  - right. do 2 eexists. apply Probate.loop_done.
  - left. do 2 eexists. apply Probate.search_step with (env := dead_env).
Qed.

Lemma tax_job_step_cost : forall D it j j' outs,
  Tax.job_step D it j j' outs -> Tax.job_cost j' < Tax.job_cost j.
Proof. intros D it j j' outs H. destruct H. cbn. lia. Qed.

Lemma tax_job_progress : forall D it j,
  (exists j' outs, Tax.job_step D it j j' outs)
  \/ (exists outs dq, Tax.job_finish D it j outs dq).
Proof.
  intros D it [|]; right; do 2 eexists.
  - apply Tax.owner_done with (worker_id := 1%Z) (env := Tax.mkEnv D None (Ok tt)).
    reflexivity.
  - apply Tax.owner_counted.
Qed.

Lemma probate_main_init : forall all_owners S E NUM sys,
  Probate.main all_owners S E NUM = Some sys ->
  exists start_idx owners,
    Probate.owners_to_process all_owners S E = (start_idx, owners)
    /\ owners <> []
    /\ sys = Pool.pool_init (Probate.tasks start_idx owners)
                            (Z.to_nat NUM) (Z.to_nat NUM) Pool.WSetup.
Proof.
  intros all_owners S E NUM sys H. unfold Probate.main in H.
  destruct (Probate.owners_to_process all_owners S E) as [start_idx owners] eqn:Ho.
  exists start_idx, owners. split; [reflexivity |].
  destruct owners as [|o r]; [discriminate |].
  injection H as <-. split; [discriminate | reflexivity].
Qed.

Lemma tax_main_init : forall D all_owners NUM sys,
  Tax.main D all_owners NUM = Some sys ->
  all_owners <> []
  /\ sys = Pool.pool_init all_owners (Z.to_nat NUM) (Z.to_nat NUM) Pool.WIdle.
Proof.
  intros D all_owners NUM sys H. unfold Tax.main in H.
  destruct all_owners as [|o r]; [discriminate |].
  injection H as <-. split; [discriminate | reflexivity].
Qed.

(** ** A complete run of each driver on one task and one worker *)

Lemma probate_demo_main : Probate.main ["&"] 1 10 1 = Some (probate_demo 0).
Proof. reflexivity. Qed.

Lemma probate_demo_run : Probate.steps [] 5 (probate_demo 0) (probate_demo 5).
Proof.
  apply Pool.steps_S with (s' := probate_demo 4).
  apply Pool.steps_S with (s' := probate_demo 3).
  apply Pool.steps_S with (s' := probate_demo 2).
  apply Pool.steps_S with (s' := probate_demo 1).
  apply Pool.steps_S with (s' := probate_demo 0).
  apply Pool.steps_O.
  - apply (Pool.step_worker _ _ _ _ _ _ [] Pool.WSetup Pool.WIdle []). apply Pool.w_setup_ok.
  - apply (Pool.step_worker _ _ _ _ _ _ [] Pool.WIdle (Pool.WHolding amp_item) []).
    apply Pool.w_item.
  - apply (Pool.step_worker _ _ _ _ _ _ [] (Pool.WHolding amp_item)
             (Pool.WWorking amp_item (Probate.mkJob 0 [] false)) []).
    apply (Pool.w_begin Probate.start_job _ _ _ amp_item).
  - apply (Pool.step_worker _ _ _ _ _ _ [] (Pool.WWorking amp_item (Probate.mkJob 0 [] false))
             Pool.WIdle []).
    apply (Pool.w_finish _ _ _ _ amp_item (Probate.mkJob 0 [] false) [] 0%Z [None] []
             (mkStats 0 0 1)).
    apply Probate.loop_done.
  - apply (Pool.step_worker _ _ _ _ _ _ [] Pool.WIdle (Pool.WExited ByPill) []).
    apply Pool.w_pill.
Qed.

Lemma tax_demo_main : Tax.main unit [jane] 1 = Some (tax_demo 0).
Proof. reflexivity. Qed.

Lemma tax_demo_run : Tax.steps unit 4 (tax_demo 0) (tax_demo 4).
Proof.
  apply Pool.steps_S with (s' := tax_demo 3).
  apply Pool.steps_S with (s' := tax_demo 2).
  apply Pool.steps_S with (s' := tax_demo 1).
  apply Pool.steps_S with (s' := tax_demo 0).
  apply Pool.steps_O.
  - apply (Pool.step_worker _ _ _ _ _ _ [] Pool.WIdle (Pool.WHolding jane) []).
    apply Pool.w_item.
  - apply (Pool.step_worker _ _ _ _ _ _ [] (Pool.WHolding jane) (Pool.WWorking jane Tax.searching) []).
    apply (Pool.w_begin (Tax.start_job) _ _ _ jane).
  - apply (Pool.step_worker _ _ _ _ _ _ [] (Pool.WWorking jane Tax.searching) Pool.WIdle []).
    apply (Pool.w_finish _ _ _ _ jane Tax.searching [] 0%Z [None] [] (mkStats 0 0 1)).
    apply (Tax.owner_done unit jane 1%Z (Tax.mkEnv unit None (Ok tt))). reflexivity.
  - apply (Pool.step_worker _ _ _ _ _ _ [] Pool.WIdle (Pool.WExited ByPill) []).
    apply Pool.w_pill.
Qed.

(* ===================================================================== *)
(** * Conservation *)
(* ===================================================================== *)

(** C1.  In both drivers, under every schedule: each task is at any moment
    either still queued, in the hands of one worker, or counted in
    [completed]; [completed] moves only on the action that ends a task, by
    exactly one, whatever the searches of that task returned or raised; and
    once every worker has left its loop on a pill or on its empty-queue
    test, [completed] is the number of tasks enqueued and [in_progress] is
    0. *)
Theorem conservation :
  (forall pdd items pills W n (s : Probate.System),
      0 < W ->
      Probate.steps pdd n (Pool.pool_init items pills W Pool.WSetup) s ->
      Pool.conserved (Z.of_nat (List.length items)) s
      /\ (forallb Pool.exited_normally (Pool.workers s) = true ->
          completed (Pool.stats (Pool.shared s)) = Z.of_nat (List.length items)
          /\ in_progress (Pool.stats (Pool.shared s)) = 0%Z))
  /\ (forall pdd sh w sh' w',
         Probate.wstep pdd sh w sh' w' ->
         completed (Pool.stats sh') = (completed (Pool.stats sh) + Pool.finishes w w')%Z)
  /\ (forall D items pills W n (s : Tax.System D),
         0 < W ->
         Tax.steps D n (Pool.pool_init items pills W Pool.WIdle) s ->
         Pool.conserved (Z.of_nat (List.length items)) s
         /\ (forallb Pool.exited_normally (Pool.workers s) = true ->
             completed (Pool.stats (Pool.shared s)) = Z.of_nat (List.length items)
             /\ in_progress (Pool.stats (Pool.shared s)) = 0%Z))
  /\ (forall D sh w sh' w',
         Tax.wstep D sh w sh' w' ->
         completed (Pool.stats sh') = (completed (Pool.stats sh) + Pool.finishes w w')%Z).
Proof.
  assert (Hlen : forall (Item Job Out : Type) sj js jf ce items pills W w0 n
                        (s : @Pool.System Item Job Out),
             0 < W ->
             Pool.steps sj js jf ce n (Pool.pool_init items pills W w0) s ->
             Pool.workers s <> []).
  { intros Item Job Out sj js jf ce items pills W w0 n s HW Hs.
    assert (Hl : List.length (Pool.workers s) = W).
    { remember (Pool.pool_init items pills W w0) as s0 eqn:E.
      induction Hs; [subst; apply repeat_length |].
      specialize (IHHs E). destruct H. cbn [Pool.workers] in *.
      rewrite length_app in *. cbn [List.length] in *. exact IHHs. }
    intros E. rewrite E in Hl. cbn in Hl. lia. }
  split; [| split; [| split]].
  - intros pdd items pills W n s HW Hs.
    pose proof (PoolFacts.conserved_steps _ _ _ _ _ _ _ _
                  (PoolFacts.conserved_init items pills W Pool.WSetup eq_refl eq_refl) Hs) as Hc.
    split; [exact Hc |]. intros Hall.
    destruct (PoolFacts.conserved_final _ _ Hc (Hlen _ _ _ _ _ _ _ _ _ _ _ _ _ HW Hs) Hall)
      as (H1 & H2 & _).
    split; assumption.
  - intros pdd sh w sh' w' H. eapply PoolFacts.completed_wstep. exact H.
  - intros D items pills W n s HW Hs.
    pose proof (PoolFacts.conserved_steps _ _ _ _ _ _ _ _
                  (PoolFacts.conserved_init items pills W Pool.WIdle eq_refl eq_refl) Hs) as Hc.
    split; [exact Hc |]. intros Hall.
    destruct (PoolFacts.conserved_final _ _ Hc (Hlen _ _ _ _ _ _ _ _ _ _ _ _ _ HW Hs) Hall)
      as (H1 & H2 & _).
    split; assumption.
  - intros D sh w sh' w' H. eapply PoolFacts.completed_wstep. exact H.
Qed.

Lemma conservation_witness :
  (completed (Pool.stats (Pool.shared (probate_demo 5))) = 1%Z
   /\ in_progress (Pool.stats (Pool.shared (probate_demo 5))) = 0%Z)
  /\ (completed (Pool.stats (Pool.shared (tax_demo 4))) = 1%Z
      /\ in_progress (Pool.stats (Pool.shared (tax_demo 4))) = 0%Z).
Proof.
  split.
  - apply (proj2 (proj1 conservation [] [amp_item] 1 1 5 (probate_demo 5)
                        ltac:(lia) probate_demo_run)).
    reflexivity.
  - apply (proj2 (proj1 (proj2 (proj2 conservation)) unit [jane] 1 1 4 (tax_demo 4)
                        ltac:(lia) tax_demo_run)).
    reflexivity.
Defined.

(* ===================================================================== *)
(** * Population of the queue and shutdown on the pills *)
(* ===================================================================== *)

Lemma enumerate_fst : forall (A : Type) (l : list A) (a : Z),
  map fst (enumerate l a) = map (fun k => (a + Z.of_nat k)%Z) (seq 0 (List.length l)).
Proof.
  induction l as [|x l IH]; intros a; [reflexivity |].
  cbn [enumerate map List.length seq fst]. rewrite IH, <- seq_shift, map_map.
  f_equal; [cbn; lia |]. apply map_ext. intros k. lia.
Qed.

Lemma enumerate_snd : forall (A : Type) (l : list A) (a : Z),
  map snd (enumerate l a) = l.
Proof. induction l as [|x l IH]; intros a; [reflexivity |]. cbn. now rewrite IH. Qed.

Lemma tasks_in_order : forall start_idx owners,
  map original_row (Probate.tasks start_idx owners)
  = map (fun k => (start_idx + 1 + Z.of_nat k)%Z) (seq 0 (List.length owners))
  /\ map raw_owner (Probate.tasks start_idx owners) = owners.
Proof.
  intros. unfold Probate.tasks. rewrite !map_map. cbn [original_row raw_owner]. split.
  - change (fun x : Z * string => fst x) with (@fst Z string). apply enumerate_fst.
  - change (fun x : Z * string => snd x) with (@snd Z string). apply enumerate_snd.
Qed.

Lemma StronglySorted_filter_keeps : forall (A : Type) (R : A -> A -> Prop) p l,
  StronglySorted R l -> StronglySorted R (filter p l).
Proof.
  induction 1 as [|x l Hs IH Hf]; cbn [filter]; [constructor |].
  destruct (p x); [| exact IH]. constructor; [exact IH |].
  apply Forall_forall. intros y Hy. apply filter_In in Hy as [Hy _].
  exact (proj1 (Forall_forall _ _) Hf y Hy).
Qed.

Lemma loaded_rows_sorted : forall lines start_from_row end_at_row,
  StronglySorted row_before (Tax.load_owners_from_file lines start_from_row end_at_row).
Proof.
  intros lines a b. unfold Tax.load_owners_from_file.
  set (f := fun p : Z * string => _).
  assert (H : forall l k,
             StronglySorted row_before (flat_map f (enumerate l k))
             /\ Forall (fun o => (k <= Tax.owner_row o)%Z) (flat_map f (enumerate l k))).
  { induction l as [|x l IH]; intros k; cbn [enumerate flat_map]; [split; constructor |].
    destruct (IH (k + 1)%Z) as [Hs Hf].
    assert (Hf' : Forall (fun o => (k <= Tax.owner_row o)%Z) (flat_map f (enumerate l (k + 1)))).
    { eapply Forall_impl; [| exact Hf]. cbn. intros; lia. }
    subst f. cbn beta. cbn [fst snd].
    destruct (2 <=? List.length (PyStr.split_ws x)); cbn [app]; [| split; assumption].
    split.
    - constructor; [exact Hs |]. eapply Forall_impl; [| exact Hf].
      unfold row_before. cbn. intros; lia.
    - constructor; [cbn; lia | exact Hf']. }
  destruct (H (skipn 2 lines) 1%Z) as [Hs _].
  destruct (1 <? a)%Z; destruct b; repeat apply StronglySorted_filter_keeps; exact Hs.
Qed.

(** C2.  [main] puts the tasks on the queue in the order of their original
    index and then exactly as many pills as it starts workers.  From that
    state every schedule is finite, the pool can always be run until every
    worker has left its loop, no worker ever meets an empty queue, and when
    nothing can move any more and no setup has failed each worker has left on
    one pill, the queue is empty and every task is counted. *)
Theorem sentinel_shutdown :
  (forall pdd all_owners S E NUM sys,
      (0 < NUM)%Z ->
      Probate.main all_owners S E NUM = Some sys ->
      exists start_idx owners,
        Probate.owners_to_process all_owners S E = (start_idx, owners)
        /\ Pool.work_queue (Pool.shared sys)
           = map Some (Probate.tasks start_idx owners) ++ repeat None (Z.to_nat NUM)
        /\ map original_row (Probate.tasks start_idx owners)
           = map (fun k => (start_idx + 1 + Z.of_nat k)%Z) (seq 0 (List.length owners))
        /\ map raw_owner (Probate.tasks start_idx owners) = owners
        /\ List.length (Pool.workers sys) = Z.to_nat NUM
        /\ forall n s,
             Probate.steps pdd n sys s ->
             n <= Pool.sys_cost Probate.start_job Probate.job_cost sys
             /\ (exists m s', Probate.steps pdd m s s'
                              /\ forallb Pool.is_exited (Pool.workers s') = true)
             /\ forallb Pool.not_by_empty (Pool.workers s) = true
             /\ (Probate.stuck pdd s ->
                 forallb Pool.is_exited (Pool.workers s) = true
                 /\ (forallb Pool.exited_normally (Pool.workers s) = true ->
                     forallb Pool.exited_by_pill (Pool.workers s) = true
                     /\ Pool.work_queue (Pool.shared s) = []
                     /\ completed (Pool.stats (Pool.shared s))
                        = Z.of_nat (List.length owners)
                     /\ in_progress (Pool.stats (Pool.shared s)) = 0%Z)))
  /\ (forall D lines start_from_row end_at_row NUM sys,
         (0 < NUM)%Z ->
         Tax.main D (Tax.load_owners_from_file lines start_from_row end_at_row) NUM
         = Some sys ->
         let all_owners := Tax.load_owners_from_file lines start_from_row end_at_row in
         Pool.work_queue (Pool.shared sys)
         = map Some all_owners ++ repeat None (Z.to_nat NUM)
         /\ StronglySorted row_before all_owners
         /\ List.length (Pool.workers sys) = Z.to_nat NUM
         /\ forall n s,
              Tax.steps D n sys s ->
              n <= Pool.sys_cost Tax.start_job Tax.job_cost sys
              /\ (exists m s', Tax.steps D m s s'
                               /\ forallb Pool.is_exited (Pool.workers s') = true)
              /\ forallb Pool.not_by_empty (Pool.workers s) = true
              /\ (Tax.stuck D s ->
                  forallb Pool.is_exited (Pool.workers s) = true
                  /\ (forallb Pool.exited_normally (Pool.workers s) = true ->
                      forallb Pool.exited_by_pill (Pool.workers s) = true
                      /\ Pool.work_queue (Pool.shared s) = []
                      /\ completed (Pool.stats (Pool.shared s))
                         = Z.of_nat (List.length all_owners)
                      /\ in_progress (Pool.stats (Pool.shared s)) = 0%Z))).
Proof.
  split.
  - intros pdd all_owners S E NUM sys HN Hmain.
    destruct (probate_main_init _ _ _ _ _ Hmain) as (start_idx & owners & Ho & Hne & ->).
    exists start_idx, owners.
    destruct (tasks_in_order start_idx owners) as [Hrows Hraw].
    repeat (split; [first [exact Ho | reflexivity | exact Hrows | exact Hraw
                           | apply repeat_length] |]).
    intros n s Hs.
    assert (HW : 0 < Z.to_nat NUM) by lia.
    pose proof (PoolFacts.pills_match_init (Job := Probate.Job) (Out := LogEntry)
                  (Probate.tasks start_idx owners) (Z.to_nat NUM) Pool.WSetup eq_refl) as Hm0.
    pose proof (PoolFacts.pills_match_steps _ _ _ _ _ _ _ Hm0 Hs) as Hm.
    destruct (PoolFacts.pool_shutdown _ _ _ _ _ (probate_job_progress pdd)
                (probate_job_step_cost pdd) _ _ Pool.WSetup _ _ HW eq_refl eq_refl Hs) as [Hb Hst].
    split; [exact Hb |]. split.
    { exact (PoolFacts.run_to_end _ _ _ _ _ (probate_job_progress pdd)
               (probate_job_step_cost pdd) _ s (Nat.le_refl _) Hm). }
    split; [exact (proj2 Hm) |].
    intros Hstuck. destruct (Hst Hstuck) as (H1 & _ & H3).
    split; [exact H1 |]. intros Hn. destruct (H3 Hn) as (Ha & Hb' & Hc & Hd).
    repeat split; try assumption.
    rewrite Hc. unfold Probate.tasks. rewrite length_map.
    rewrite <- (length_map fst), enumerate_fst, length_map, length_seq. reflexivity.
  - intros D lines a b NUM sys HN Hmain all_owners.
    destruct (tax_main_init _ _ _ _ Hmain) as (Hne & ->).
    split; [reflexivity |]. split; [apply loaded_rows_sorted |].
    split; [apply repeat_length |].
    intros n s Hs.
    assert (HW : 0 < Z.to_nat NUM) by lia.
    pose proof (PoolFacts.pills_match_init (Job := Tax.Job) (Out := Tax.Qualified D)
                  all_owners (Z.to_nat NUM) Pool.WIdle eq_refl) as Hm0.
    pose proof (PoolFacts.pills_match_steps _ _ _ _ _ _ _ Hm0 Hs) as Hm.
    destruct (PoolFacts.pool_shutdown _ _ _ _ _ (tax_job_progress D)
                (tax_job_step_cost D) _ _ Pool.WIdle _ _ HW eq_refl eq_refl Hs) as [Hb Hst].
    split; [exact Hb |]. split.
    { exact (PoolFacts.run_to_end _ _ _ _ _ (tax_job_progress D)
               (tax_job_step_cost D) _ s (Nat.le_refl _) Hm). }
    split; [exact (proj2 Hm) |].
    intros Hstuck. destruct (Hst Hstuck) as (H1 & _ & H3).
    split; [exact H1 |]. intros Hn. destruct (H3 Hn) as (Ha & Hb' & Hc & Hd).
    repeat split; assumption.
Qed.

Lemma sentinel_shutdown_witness :
  5 <= Pool.sys_cost Probate.start_job Probate.job_cost (probate_demo 0)
  /\ 4 <= Pool.sys_cost Tax.start_job Tax.job_cost (tax_demo 0).
Proof.
  split.
  - destruct (proj1 sentinel_shutdown [] ["&"] 1%Z 10%Z 1%Z (probate_demo 0)
                    ltac:(lia) probate_demo_main)
      as (start_idx & owners & _ & _ & _ & _ & _ & H).
    exact (proj1 (H 5 (probate_demo 5) probate_demo_run)).
  - destruct (proj2 sentinel_shutdown unit ["Last First"; "----"; "DOE JANE"] 1%Z None 1%Z
                    (tax_demo 0) ltac:(lia) eq_refl)
      as (_ & _ & _ & H).
    exact (proj1 (H 4 (tax_demo 4) tax_demo_run)).
Defined.

(* ===================================================================== *)
(** * One worker through one task *)
(* ===================================================================== *)

Lemma search_all_run : forall pdd it envs l1 l2 q st owners idx off rq,
  Probate.steps pdd (List.length owners)
    (Pool.mkSystem (Pool.mkShared q rq st)
       (l1 ++ Pool.WWorking it (Probate.mkJob idx owners off) :: l2))
    (Pool.mkSystem
       (Pool.mkShared q (rq ++ fst (Probate.search_all pdd it idx owners off envs)) st)
       (l1 ++ Pool.WWorking it
                (Probate.mkJob (idx + List.length owners) []
                   (snd (Probate.search_all pdd it idx owners off envs))) :: l2)).
Proof.
  intros pdd it envs l1 l2 q st.
  induction owners as [|o r IH]; intros idx off rq; cbn [Probate.search_all fst snd List.length].
  - rewrite app_nil_r, Nat.add_0_r. apply Pool.steps_O.
  - eapply PoolFacts.steps_head.
    + apply Pool.step_worker. apply Pool.w_job.
      apply (Probate.search_step pdd it idx o r off (envs idx)).
    + specialize (IH (S idx) (snd (search_identity pdd it idx o off (envs idx)))
                     (rq ++ [fst (search_identity pdd it idx o off (envs idx))])).
      rewrite <- app_assoc in IH. cbn [app] in IH.
      replace (idx + S (List.length r)) with (S idx + List.length r) by lia.
      exact IH.
Qed.

(** The sequential reading [process_item] of lines 471-598 is a run of the
    pool: the stats update, one search per identity, the final update. *)
Lemma process_item_run : forall pdd it envs sh l1 l2,
  Probate.steps pdd (2 + List.length (parsed_owners it))
    (Pool.mkSystem sh (l1 ++ Pool.WHolding it :: l2))
    (Pool.mkSystem (fst (Probate.process_item pdd it envs sh)) (l1 ++ Pool.WIdle :: l2)).
Proof.
  intros pdd it envs [q rq st] l1 l2. unfold Probate.process_item.
  cbn [fst Pool.work_queue Pool.results_queue Pool.stats].
  eapply PoolFacts.steps_head.
  { apply Pool.step_worker. apply Pool.w_begin. }
  replace (S (List.length (parsed_owners it))) with (S (List.length (parsed_owners it) + 0))
    by lia.
  eapply Pool.steps_S.
  { rewrite Nat.add_0_r. apply (search_all_run pdd it envs l1 l2 q (stats_begin st)). }
  rewrite <- (app_nil_r (rq ++ fst (Probate.search_all pdd it 0 (parsed_owners it) false envs))) at 2.
  apply Pool.step_worker. apply Pool.w_finish. apply Probate.loop_done.
Qed.

(* ===================================================================== *)
(** * The bounded result poll *)
(* ===================================================================== *)

Lemma search_body_submit : forall log_entry ident off env,
  search_body log_entry ident off env
  = (_ <- submit_search env ;;
     ' (success, row_count) <- wait_for_results (env_page env) ;;
     if negb success then Ok (log_entry TIMEOUT 0 None false off, off)
     else if 0 <? row_count then
       let owner_disqualified :=
         process_search_results (env_cards env) (first_name ident)
                                (middle_name ident) (last_name ident) in
       let off' := if owner_disqualified then true else off in
       Ok (log_entry (if owner_disqualified then DISQUALIFIED else FOUND_CLEAN)
                     row_count None owner_disqualified off', off')
     else Ok (log_entry NOT_FOUND 0 None false off, off)).
Proof.
  intros. unfold search_body, submit_search.
  destruct (env_fill env) as [[]|e]; [| reflexivity]. cbn [bind].
  destruct (env_detect env) as [[ct sk]|e]; [| reflexivity]. cbn [bind].
  destruct (captcha_truthy ct).
  - destruct (fst (Captcha.solve_captcha (env_vendor env))) as [tok|e]; [| reflexivity].
    cbn [bind]. destruct (env_inject env) as [[]|e]; [| reflexivity]. cbn [bind].
    destruct (env_submit env) as [[]|e]; reflexivity.
  - cbn [bind]. destruct (env_submit env) as [[]|e]; reflexivity.
Qed.

(** The poll always resolves, after at most [maxAttempts] checks spaced by
    1000 ms. *)
Lemma checkResults_resolves : forall dom budget attempts,
  maxAttempts <= attempts + budget -> 1 <= budget ->
  exists r timers,
    checkResults budget attempts dom = Some (r, timers)
    /\ List.length timers < budget
    /\ Forall (fun t => t = 1000) timers.
Proof.
  intros dom. induction budget as [|b IH]; intros attempts Hb H1; [lia |].
  cbn [checkResults].
  assert (Hagain : exists r timers,
             (if S attempts <? maxAttempts
              then option_map (fun '(r, timers) => (r, 1000 :: timers))
                              (checkResults b (S attempts) dom)
              else Some (mkPollResult false 0, [])) = Some (r, timers)
             /\ List.length timers < S b /\ Forall (fun t => t = 1000) timers).
  { destruct (S attempts <? maxAttempts) eqn:Hlt.
    - apply Nat.ltb_lt in Hlt.
      destruct (IH (S attempts) ltac:(lia) ltac:(lia)) as (r & timers & -> & Hl & Hf).
      exists r, (1000 :: timers). cbn. repeat split; [lia | constructor; auto].
    - exists (mkPollResult false 0), []. cbn. repeat split; [lia | constructor]. }
  destruct (negb (has_body (dom (S attempts)))); [exact Hagain |].
  destruct (0 <? party_cards (dom (S attempts))).
  { do 2 eexists. split; [reflexivity |]. cbn. split; [lia | constructor]. }
  destruct (no_results_marker (body_text (dom (S attempts)))).
  { do 2 eexists. split; [reflexivity |]. cbn. split; [lia | constructor]. }
  exact Hagain.
Qed.

Lemma checkResults_timeout : forall dom budget attempts,
  attempts + budget = maxAttempts -> 1 <= budget ->
  (forall k, attempts < k <= maxAttempts -> unready (dom k) = true) ->
  checkResults budget attempts dom
  = Some (mkPollResult false 0, repeat 1000 (budget - 1)).
Proof.
  intros dom. induction budget as [|b IH]; intros attempts Hb H1 Hun; [lia |].
  cbn [checkResults].
  assert (Hagain :
            (if S attempts <? maxAttempts
             then option_map (fun '(r, timers) => (r, 1000 :: timers))
                             (checkResults b (S attempts) dom)
             else Some (mkPollResult false 0, []))
            = Some (mkPollResult false 0, repeat 1000 (S b - 1))).
  { destruct (S attempts <? maxAttempts) eqn:Hlt.
    - apply Nat.ltb_lt in Hlt.
      rewrite (IH (S attempts)) by (try lia; intros k Hk; apply Hun; lia).
      cbn [option_map]. destruct b as [|b']; [lia |].
      cbn [Nat.sub]. rewrite Nat.sub_0_r. reflexivity.
    - apply Nat.ltb_ge in Hlt. assert (b = 0) by lia. subst b. reflexivity. }
  specialize (Hun (S attempts) ltac:(lia)). unfold unready in Hun.
  destruct (has_body (dom (S attempts))); cbn [negb orb] in *; [| exact Hagain].
  apply andb_true_iff in Hun as [Hc Hm]. apply Nat.eqb_eq in Hc. rewrite Hc.
  cbn [Nat.ltb Nat.leb]. apply negb_true_iff in Hm. rewrite Hm. exact Hagain.
Qed.

Lemma search_all_nth : forall pdd it envs owners idx0 off k ident,
  nth_error owners k = Some ident ->
  exists off',
    nth_error (fst (Probate.search_all pdd it idx0 owners off envs)) k
    = Some (fst (search_identity pdd it (idx0 + k) ident off' (envs (idx0 + k)))).
Proof.
  induction owners as [|o r IH]; intros idx0 off k ident Hk; [destruct k; discriminate |].
  cbn [Probate.search_all fst snd]. destruct k as [|k].
  - injection Hk as ->. exists off. rewrite Nat.add_0_r. reflexivity.
  - cbn [nth_error] in *.
    destruct (IH (S idx0) (snd (search_identity pdd it idx0 o off (envs idx0))) k ident Hk)
      as (off' & H).
    exists off'. rewrite H. replace (S idx0 + k) with (idx0 + S k) by lia. reflexivity.
Qed.

Lemma process_item_completed : forall pdd it envs sh,
  completed (Pool.stats (fst (Probate.process_item pdd it envs sh)))
  = (completed (Pool.stats sh) + 1)%Z
  /\ in_progress (Pool.stats (fst (Probate.process_item pdd it envs sh)))
     = in_progress (Pool.stats sh).
Proof.
  intros. unfold Probate.process_item, stats_finish, stats_begin. cbn. split; lia.
Qed.

(** C3.  The poll of [wait_for_results] always ends within [maxAttempts]
    checks spaced by 1000 ms.  When the search is submitted and none of the
    20 checks sees party cards or a no-results text, the poll answers
    [(False, 0)] after 19 re-armed timers, the entry of the identity has
    status TIMEOUT with count 0 and no disqualification, and the task that
    holds the identity is counted in [completed] all the same. *)
Theorem timeout_path :
  forall pdd it idx ident off env dom,
    submit_search env = Ok tt ->
    env_page env = Ok dom ->
    (forall k, 1 <= k <= maxAttempts -> unready (dom k) = true) ->
    checkResults maxAttempts 0 dom
    = Some (mkPollResult false 0, repeat 1000 (maxAttempts - 1))
    /\ (forall dom', exists r timers,
           checkResults maxAttempts 0 dom' = Some (r, timers)
           /\ List.length timers < maxAttempts
           /\ Forall (fun t => t = 1000) timers)
    /\ entry_status (fst (search_identity pdd it idx ident off env)) = TIMEOUT
    /\ entry_count (fst (search_identity pdd it idx ident off env)) = 0
    /\ disqualifying_probate_found (fst (search_identity pdd it idx ident off env)) = false
    /\ snd (search_identity pdd it idx ident off env) = off
    /\ (forall envs sh,
           nth_error (parsed_owners it) idx = Some ident ->
           envs idx = env ->
           let sh' := fst (Probate.process_item pdd it envs sh) in
           completed (Pool.stats sh') = (completed (Pool.stats sh) + 1)%Z
           /\ (exists e, In e (Pool.results_queue sh')
                         /\ entry_identity e = ident
                         /\ entry_status e = TIMEOUT /\ entry_count e = 0)
           /\ forall l1 l2,
                Probate.steps pdd (2 + List.length (parsed_owners it))
                  (Pool.mkSystem sh (l1 ++ Pool.WHolding it :: l2))
                  (Pool.mkSystem sh' (l1 ++ Pool.WIdle :: l2))).
Proof.
  intros pdd it idx ident off env dom Hsub Hpage Hun.
  assert (Hpoll : checkResults maxAttempts 0 dom
                  = Some (mkPollResult false 0, repeat 1000 (maxAttempts - 1))).
  { apply checkResults_timeout; [reflexivity | unfold maxAttempts; lia |].
    intros k Hk. apply Hun. lia. }
  assert (Hid : forall off0,
             search_identity pdd it idx ident off0 env
             = (new_log_entry pdd it idx ident TIMEOUT 0 None false off0, off0)).
  { intros off0. unfold search_identity. rewrite search_body_submit, Hsub.
    cbn [bind]. unfold wait_for_results. rewrite Hpage. cbn [bind]. rewrite Hpoll.
    reflexivity. }
  split; [exact Hpoll |]. split.
  { intros dom'. apply checkResults_resolves; unfold maxAttempts; lia. }
  rewrite Hid. cbn [fst snd]. unfold new_log_entry.
  cbn [entry_status entry_count disqualifying_probate_found].
  do 4 (split; [reflexivity |]).
  intros envs sh Hnth Henv. split; [apply process_item_completed |].
  split; [| intros l1 l2; apply process_item_run].
  destruct (search_all_nth pdd it envs _ 0 false idx ident Hnth) as (off' & Hn).
  cbn [Nat.add] in Hn. rewrite Henv, Hid in Hn. cbn [fst] in Hn.
  eexists. split.
  - unfold Probate.process_item. cbn [fst Pool.results_queue].
    apply in_or_app. right. eapply nth_error_In. exact Hn.
  - unfold new_log_entry. cbn. repeat split.
Qed.

Lemma timeout_path_witness :
  entry_status (fst (search_identity [] smith_item 0
                       (mkIdentity "JOHN" "" "SMITH" "SMITH, JOHN") false stalled_env))
  = TIMEOUT.
Proof.
  refine (proj1 (proj2 (proj2 (timeout_path [] smith_item 0
                   (mkIdentity "JOHN" "" "SMITH" "SMITH, JOHN") false stalled_env
                   (fun _ => mkSnapshot true 0 "Loading...") eq_refl eq_refl _)))).
  intros k _. reflexivity.
Defined.

(* ===================================================================== *)
(** * Exceptions at the task boundary *)
(* ===================================================================== *)

(** In the tax driver an exception inside the [try] block leaves the results
    queue as it was: the [except] clause prints, counts the task and goes on,
    and no record with an ERROR status exists there. *)
Lemma tax_exception_leaves_no_outcome :
  let env := Tax.mkEnv unit (Some tt) (Raise "No space left on device") in
  Tax.try_body unit 3 jane env = Raise "No space left on device"
  /\ Tax.process_owner unit 3 jane env = ([], 0%Z)
  /\ forall q rq st,
       Tax.wstep unit (Pool.mkShared q rq st) (Pool.WWorking jane Tax.searching)
                 (Pool.mkShared q (rq ++ []) (stats_finish 0 st)) Pool.WIdle.
Proof.
  cbn zeta. split; [reflexivity |]. split; [reflexivity |].
  intros q rq st.
  apply (Pool.w_finish Tax.start_job _ _ _ jane Tax.searching [] 0%Z q rq st).
  apply (Tax.owner_done unit jane 3%Z
           (Tax.mkEnv unit (Some tt) (Raise "No space left on device"))).
  reflexivity.
Qed.

(** C4, amended.  Probate driver: an exception that leaves the [try] block
    of one identity is turned into an entry with status ERROR, count 0 and
    the message of the exception; the worker stays in the loop of its task
    and goes on with the next identity, and no action of a worker that is
    working on a task makes it leave.  Tax driver: an exception that leaves
    the [try] block of one task puts nothing on the results queue, the task
    is counted in [completed] and the worker is back at the queue. *)
Theorem exception_boundary :
  (forall pdd it idx ident off env e,
      search_body (new_log_entry pdd it idx ident) ident off env = Raise e ->
      search_identity pdd it idx ident off env
      = (new_log_entry pdd it idx ident ERROR 0 (Some e) false off, off)
      /\ entry_status (fst (search_identity pdd it idx ident off env)) = ERROR
      /\ entry_error (fst (search_identity pdd it idx ident off env)) = Some e
      /\ forall rest q rq st,
           Probate.wstep pdd (Pool.mkShared q rq st)
             (Pool.WWorking it (Probate.mkJob idx (ident :: rest) off))
             (Pool.mkShared q (rq ++ [new_log_entry pdd it idx ident ERROR 0 (Some e) false off])
                            st)
             (Pool.WWorking it (Probate.mkJob (S idx) rest off)))
  /\ (forall pdd sh it j sh' w',
         Probate.wstep pdd sh (Pool.WWorking it j) sh' w' ->
         Pool.is_exited w' = false)
  /\ (forall D worker_id it env e,
         Tax.try_body D worker_id it env = Raise e ->
         Tax.process_owner D worker_id it env = ([], 0%Z)
         /\ forall q rq st,
              Tax.wstep D (Pool.mkShared q rq st) (Pool.WWorking it Tax.searching)
                        (Pool.mkShared q (rq ++ []) (stats_finish 0 st)) Pool.WIdle)
  /\ (forall D sh it j sh' w',
         Tax.wstep D sh (Pool.WWorking it j) sh' w' ->
         Pool.is_exited w' = false).
Proof.
  split; [| split; [| split]].
  - intros pdd it idx ident off env e He.
    assert (Hid : search_identity pdd it idx ident off env
                  = (new_log_entry pdd it idx ident ERROR 0 (Some e) false off, off)).
    { unfold search_identity. rewrite He. reflexivity. }
    split; [exact Hid |]. rewrite Hid. do 2 (split; [reflexivity |]).
    intros rest q rq st.
    pose proof (Probate.search_step pdd it idx ident rest off env) as Hstep.
    rewrite Hid in Hstep. cbn [fst snd] in Hstep.
    exact (Pool.w_job Probate.start_job _ _ _ _ _ _ _ q rq st Hstep).
  - intros pdd sh it j sh' w' H. unfold Probate.wstep in H. inversion H; reflexivity.
  - intros D worker_id it env e He.
    assert (Hp : Tax.process_owner D worker_id it env = ([], 0%Z)).
    { unfold Tax.process_owner. rewrite He. reflexivity. }
    split; [exact Hp |]. intros q rq st.
    exact (Pool.w_finish Tax.start_job _ _ _ _ _ _ _ q rq st
             (Tax.owner_done D it worker_id env Hp)).
  - intros D sh it j sh' w' H. unfold Tax.wstep in H. inversion H; reflexivity.
Qed.

Lemma exception_boundary_witness :
  entry_status (fst (search_identity [] smith_item 0
                       (mkIdentity "JOHN" "" "SMITH" "SMITH, JOHN") false dead_env))
  = ERROR
  /\ Tax.process_owner unit 3 jane (Tax.mkEnv unit (Some tt) (Raise "No space left on device"))
     = ([], 0%Z).
Proof.
  split.
  - exact (proj1 (proj2 (proj1 exception_boundary [] smith_item 0
                    (mkIdentity "JOHN" "" "SMITH" "SMITH, JOHN") false dead_env
                    "closed" eq_refl))).
  - exact (proj1 (proj1 (proj2 (proj2 exception_boundary)) unit 3%Z jane
                    (Tax.mkEnv unit (Some tt) (Raise "No space left on device"))
                    "No space left on device" eq_refl)).
Defined.

(* ===================================================================== *)
(** * The disqualifying flag *)
(* ===================================================================== *)

Lemma clean_app : forall a b, clean a -> clean b -> clean (a ++ b).
Proof. intros a b Ha Hb t Hin. apply in_app_or in Hin as [H|H]; auto. Qed.

Lemma clean_card : forall c seen, clean seen -> clean (VCard c :: seen).
Proof. intros c seen H t [Hin|Hin]; [discriminate | auto]. Qed.

Lemma scan_cases_found : forall ts,
  fst (scan_cases ts) = existsb case_disqualifies ts.
Proof.
  induction ts as [|t r IH]; [reflexivity |]. cbn [scan_cases existsb].
  destruct (case_disqualifies t); [reflexivity |].
  destruct (scan_cases r) as [found seen]. exact IH.
Qed.

Lemma scan_cases_trace : forall ts,
  match scan_cases ts with
  | (true, seen) =>
      exists pre t, seen = pre ++ [VCase t] /\ case_disqualifies t = true /\ clean pre
  | (false, seen) => clean seen
  end.
Proof.
  induction ts as [|t r IH]; [intros t []|]. cbn [scan_cases].
  destruct (case_disqualifies t) eqn:Ht.
  - exists [], t. repeat split; [exact Ht | intros t' []].
  - destruct (scan_cases r) as [[|] seen].
    + destruct IH as (pre & t' & -> & Hd & Hc).
      exists (VCase t :: pre), t'. repeat split; [exact Hd |].
      intros t'' [Hin|Hin]; [injection Hin as <-; exact Ht | auto].
    + intros t' [Hin|Hin]; [injection Hin as <-; exact Ht | auto].
Qed.

Lemma scan_cards_found : forall names cards,
  fst (scan_cards names cards)
  = existsb (fun c => card_matches names c && existsb case_disqualifies (case_tables c)) cards.
Proof.
  induction cards as [|c r IH]; [reflexivity |]. cbn [scan_cards existsb].
  destruct (card_matches names c); cbn [andb orb].
  - rewrite <- scan_cases_found. destruct (scan_cases (case_tables c)) as [[|] seen].
    + reflexivity.
    + destruct (scan_cards names r) as [found seen']. exact IH.
  - destruct (scan_cards names r) as [found seen']. exact IH.
Qed.

Lemma scan_cards_trace : forall names cards,
  match scan_cards names cards with
  | (true, seen) =>
      exists pre t, seen = pre ++ [VCase t] /\ case_disqualifies t = true /\ clean pre
  | (false, seen) => clean seen
  end.
Proof.
  induction cards as [|c r IH]; [intros t []|]. cbn [scan_cards].
  destruct (card_matches names c).
  - pose proof (scan_cases_trace (case_tables c)) as Hc.
    destruct (scan_cases (case_tables c)) as [[|] seen].
    + destruct Hc as (pre & t & -> & Hd & Hcl).
      exists (VCard c :: pre), t. repeat split; [exact Hd | apply clean_card, Hcl].
    + destruct (scan_cards names r) as [[|] seen'].
      * destruct IH as (pre & t & -> & Hd & Hcl).
        exists (VCard c :: seen ++ pre), t.
        split; [cbn [app]; now rewrite app_assoc | split; [exact Hd |]].
        apply clean_card, clean_app; assumption.
      * apply clean_card, clean_app; assumption.
  - destruct (scan_cards names r) as [[|] seen'].
    + destruct IH as (pre & t & -> & Hd & Hcl).
      exists (VCard c :: pre), t. repeat split; [exact Hd | apply clean_card, Hcl].
    + apply clean_card, IH.
Qed.

Lemma case_disqualifies_iff : forall t,
  case_disqualifies t = true
  <-> exists ty, read_case t None None = Some (Some ty, Some "OPEN")
                 /\ is_disqualifying_type ty = true.
Proof.
  intros t. unfold case_disqualifies. split.
  - destruct (read_case t None None) as [[[ty|] st]|]; try discriminate.
    intros H. apply andb_true_iff in H as [H Ho]. apply andb_true_iff in H as [_ Hd].
    destruct st as [st|]; [| discriminate]. cbn [is_open] in Ho.
    apply String.eqb_eq in Ho. subst st. exists ty. split; [reflexivity | exact Hd].
  - intros (ty & -> & Hd). rewrite Hd. cbn [is_open]. rewrite String.eqb_refl.
    destruct ty; [discriminate Hd | reflexivity].
Qed.

Lemma two_cell_case : forall ty st,
  case_disqualifies [type_cell ty; status_cell st]
  = is_disqualifying_type (PyStr.upper (PyStr.strip ty))
    && String.eqb (PyStr.upper (PyStr.strip st)) "OPEN".
Proof.
  intros ty st. unfold case_disqualifies, type_cell, status_cell.
  cbn [read_case td_class td_text].
  replace (PyStr.contains "party-case-type" "card-data party-case-type") with true
    by reflexivity.
  replace (PyStr.contains "party-case-type" "card-data party-case-status") with false
    by reflexivity.
  replace (PyStr.contains "party-case-status" "card-data party-case-status") with true
    by reflexivity.
  cbn [is_open].
  destruct (PyStr.upper (PyStr.strip ty)) as [|c r]; [reflexivity |].
  cbn [PyStr.truthy andb]. reflexivity.
Qed.

(** C5.  [process_search_results] answers [True] exactly when some card whose
    name matches holds a case whose type is on the disqualifying list and
    whose status is OPEN; type and status are the stripped, upper-cased
    texts of their cells, so the status test ignores case; and the scan
    stops on the first such case: it is the last thing visited and no case
    visited before it disqualifies. *)
Theorem disqualifying_flag :
  forall cards first middle last,
    let names := expected_names first middle last in
    (process_search_results cards first middle last = true
     <-> exists card t,
           In card cards /\ card_matches names card = true
           /\ In t (case_tables card)
           /\ exists ty, read_case t None None = Some (Some ty, Some "OPEN")
                         /\ is_disqualifying_type ty = true)
    /\ (forall ty st,
           case_disqualifies [type_cell ty; status_cell st]
           = is_disqualifying_type (PyStr.upper (PyStr.strip ty))
             && String.eqb (PyStr.upper (PyStr.strip st)) "OPEN")
    /\ map (fun st => case_disqualifies [type_cell "Heirship"; status_cell st])
           ["open"; "Open"; " OPEN "; "Closed"]
       = [true; true; true; false]
    /\ (forall seen,
           process_search_results_trace cards first middle last = (true, seen) ->
           exists pre t,
             seen = pre ++ [VCase t] /\ case_disqualifies t = true /\ clean pre)
    /\ (forall seen,
           process_search_results_trace cards first middle last = (false, seen) ->
           clean seen).
Proof.
  intros cards first middle last names.
  split; [| split; [exact two_cell_case | split; [reflexivity | split]]].
  - unfold process_search_results, process_search_results_trace. fold names.
    rewrite scan_cards_found. split.
    + intros H. apply existsb_exists in H as (card & Hin & H).
      apply andb_true_iff in H as [Hm H].
      apply existsb_exists in H as (t & Hint & Ht).
      exists card, t. repeat split; try assumption.
      apply case_disqualifies_iff. exact Ht.
    + intros (card & t & Hin & Hm & Hint & Ht).
      apply existsb_exists. exists card. split; [exact Hin |].
      rewrite Hm. cbn [andb]. apply existsb_exists. exists t. split; [exact Hint |].
      apply case_disqualifies_iff. exact Ht.
  - intros seen H. unfold process_search_results_trace in H. fold names in H.
    pose proof (scan_cards_trace names cards) as Ht. rewrite H in Ht. exact Ht.
  - intros seen H. unfold process_search_results_trace in H. fold names in H.
    pose proof (scan_cards_trace names cards) as Ht. rewrite H in Ht. exact Ht.
Qed.

Lemma disqualifying_flag_witness :
  exists pre t,
    snd (process_search_results_trace [heirship_card; heirship_card] "John" "" "Smith")
    = pre ++ [VCase t]
    /\ case_disqualifies t = true /\ clean pre.
Proof.
  exact (proj1 (proj2 (proj2 (proj2
           (disqualifying_flag [heirship_card; heirship_card] "John" "" "Smith"))))
           _ eq_refl).
Defined.

(* ===================================================================== *)
(** * The aggregate over the identities of one task *)
(* ===================================================================== *)

Lemma search_identity_flag : forall pdd it idx ident off env,
  let r := search_identity pdd it idx ident off env in
  snd r = off || disqualifying_probate_found (fst r)
  /\ overall_property_failed (fst r) = snd r
  /\ (disqualifying_probate_found (fst r) = true <-> entry_status (fst r) = DISQUALIFIED).
Proof.
  intros pdd it idx ident off env. cbn zeta.
  unfold search_identity. rewrite search_body_submit.
  destruct (submit_search env) as [[]|e]; cbn [bind try_except];
    [| cbn; rewrite orb_false_r; repeat split; discriminate].
  destruct (wait_for_results (env_page env)) as [[success row_count]|e];
    cbn [bind try_except];
    [| cbn; rewrite orb_false_r; repeat split; discriminate].
  destruct success; cbn [negb];
    [| cbn; rewrite orb_false_r; repeat split; discriminate].
  destruct (0 <? row_count);
    [| cbn; rewrite orb_false_r; repeat split; discriminate].
  destruct (process_search_results (env_cards env) (first_name ident)
              (middle_name ident) (last_name ident)); cbn.
  - rewrite orb_true_r. repeat split; reflexivity.
  - rewrite orb_false_r. repeat split; discriminate.
Qed.

Lemma search_all_flag : forall pdd it envs owners idx off,
  snd (Probate.search_all pdd it idx owners off envs)
  = off || existsb disqualifying_probate_found
                   (fst (Probate.search_all pdd it idx owners off envs)).
Proof.
  induction owners as [|o r IH]; intros idx off; cbn [Probate.search_all fst snd existsb].
  - now rewrite orb_false_r.
  - rewrite IH. destruct (search_identity_flag pdd it idx o off (envs idx)) as (H & _ & _).
    rewrite H at 1. now rewrite orb_assoc.
Qed.

Lemma search_all_length : forall pdd it envs owners idx off,
  List.length (fst (Probate.search_all pdd it idx owners off envs)) = List.length owners.
Proof.
  induction owners as [|o r IH]; intros idx off; cbn [Probate.search_all fst List.length];
    [reflexivity | now rewrite IH].
Qed.

Lemma search_all_last : forall pdd it envs owners idx off pre e,
  fst (Probate.search_all pdd it idx owners off envs) = pre ++ [e] ->
  overall_property_failed e = snd (Probate.search_all pdd it idx owners off envs).
Proof.
  induction owners as [|o r IH]; intros idx off pre e H; cbn [Probate.search_all fst snd] in *.
  - destruct pre; discriminate.
  - destruct r as [|o' r'].
    + cbn [Probate.search_all fst snd] in *.
      destruct pre as [|x pre]; [| destruct pre; discriminate].
      injection H as <-. apply search_identity_flag.
    + destruct pre as [|x pre].
      * apply (f_equal (@List.length _)) in H. cbn [List.length app] in H.
        rewrite search_all_length in H. cbn in H. lia.
      * injection H as _ H. exact (IH _ _ _ _ H).
Qed.

(** C6.  The value [owners_failed_filter] has when the loop over the
    identities of a task ends is the disjunction of
    [disqualifying_probate_found] over the entries the task has put on the
    results queue, one per identity: it is true as soon as one entry is
    flagged, false when every entry is FOUND_CLEAN or NOT_FOUND, and it is
    the [overall_property_failed] field of the last entry. *)
Theorem aggregate_is_disjunction :
  forall pdd it envs sh,
    let r := Probate.process_item pdd it envs sh in
    let entries := fst (Probate.search_all pdd it 0 (parsed_owners it) false envs) in
    Pool.results_queue (fst r) = Pool.results_queue sh ++ entries
    /\ List.length entries = List.length (parsed_owners it)
    /\ snd r = existsb disqualifying_probate_found entries
    /\ ((exists e, In e entries /\ disqualifying_probate_found e = true) -> snd r = true)
    /\ (Forall (fun e => entry_status e = FOUND_CLEAN \/ entry_status e = NOT_FOUND) entries
        -> snd r = false)
    /\ (forall pre e, entries = pre ++ [e] -> overall_property_failed e = snd r).
Proof.
  intros pdd it envs sh. cbn zeta. unfold Probate.process_item. cbn [fst snd Pool.results_queue].
  split; [reflexivity |]. split; [apply search_all_length |].
  assert (Hagg := search_all_flag pdd it envs (parsed_owners it) 0 false).
  cbn [orb] in Hagg. split; [exact Hagg |]. split; [| split].
  - intros (e & Hin & He). rewrite Hagg. apply existsb_exists. eauto.
  - intros Hall. rewrite Hagg.
    destruct (existsb disqualifying_probate_found _) eqn:Hex; [| reflexivity].
    apply existsb_exists in Hex as (e & Hin & He).
    pose proof (proj1 (Forall_forall _ _) Hall e Hin) as Hst.
    cbn beta in Hst. clear Hagg Hall.
    assert (Hgen : forall owners idx off,
               In e (fst (Probate.search_all pdd it idx owners off envs)) ->
               entry_status e = DISQUALIFIED).
    { induction owners as [|o r IH]; intros idx off Hi; cbn [Probate.search_all fst] in Hi;
        [destruct Hi |].
      destruct Hi as [<- | Hi]; [| exact (IH _ _ Hi)].
      apply search_identity_flag. exact He. }
    rewrite (Hgen _ _ _ Hin) in Hst. destruct Hst; discriminate.
  - intros pre e H. eapply search_all_last. exact H.
Qed.

Lemma aggregate_is_disjunction_witness :
  snd (Probate.process_item [] couple_item couple_envs
         (Pool.mkShared [] [] stats_init)) = true.
Proof.
  apply (proj1 (proj2 (proj2 (proj2
           (aggregate_is_disjunction [] couple_item couple_envs
              (Pool.mkShared [] [] stats_init)))))).
  exists (fst (search_identity [] couple_item 0
                 (mkIdentity "JOHN" "" "SMITH" "SMITH, JOHN") false (couple_envs 0))).
  split; [left; reflexivity | reflexivity].
Defined.

(* ===================================================================== *)
(** * Shutdown tests on an empty queue *)
(* ===================================================================== *)




(* ===================================================================== *)
(** * The owner-name parser *)
(* ===================================================================== *)

(** C8.  ["SMITH JOHN & MARY EST OF"] gives two identities, JOHN SMITH with
    search term ["SMITH, JOHN"] and MARY SMITH with search term
    ["SMITH, MARY"], the surname of the second taken from the first. *)
Theorem co_owner_split :
  parse_owner_name "SMITH JOHN & MARY EST OF"
  = [mkIdentity "JOHN" "" "SMITH" "SMITH, JOHN";
     mkIdentity "MARY" "" "SMITH" "SMITH, MARY"].
Proof. vm_compute. reflexivity. Qed.

(** C10.  A bare ["&"], a first half of one word with nothing after the
    ["&"], and halves emptied by the removal of the estate phrases all parse
    to no identity at all; a task built from such a string puts nothing on
    the results queue and moves [completed] by exactly one, [in_progress]
    being back where it was. *)
Theorem empty_identity_task :
  parse_owner_name "&" = []
  /\ parse_owner_name "SMITH &" = []
  /\ parse_owner_name "EST OF & SMITH ESTATE" = []
  /\ forall raw idx pdd envs (sh : Probate.Shared),
       In raw ["&"; "SMITH &"; "EST OF & SMITH ESTATE"] ->
       let it := mkWorkItem idx raw (parse_owner_name raw) in
       let sh' := fst (Probate.process_item pdd it envs sh) in
       Pool.results_queue sh' = Pool.results_queue sh
       /\ completed (Pool.stats sh') = (completed (Pool.stats sh) + 1)%Z
       /\ in_progress (Pool.stats sh') = in_progress (Pool.stats sh)
       /\ qualified (Pool.stats sh') = qualified (Pool.stats sh)
       /\ forall l1 l2,
            Probate.steps pdd 2 (Pool.mkSystem sh (l1 ++ Pool.WHolding it :: l2))
                          (Pool.mkSystem sh' (l1 ++ Pool.WIdle :: l2)).
Proof.
  assert (H1 : parse_owner_name "&" = []) by (vm_compute; reflexivity).
  assert (H2 : parse_owner_name "SMITH &" = []) by (vm_compute; reflexivity).
  assert (H3 : parse_owner_name "EST OF & SMITH ESTATE" = []) by (vm_compute; reflexivity).
  repeat (split; [assumption |]).
  intros raw idx pdd envs sh Hin. cbn zeta.
  assert (Hp : parse_owner_name raw = []).
  { cbn [In] in Hin. destruct Hin as [<- | [<- | [<- | []]]]; assumption. }
  assert (Hrun := process_item_run pdd (mkWorkItem idx raw (parse_owner_name raw)) envs sh).
  assert (Hlen : 2 + List.length (parsed_owners (mkWorkItem idx raw (parse_owner_name raw))) = 2)
    by (cbn [parsed_owners]; rewrite Hp; reflexivity).
  rewrite Hlen in Hrun. clear Hlen.
  split; [| split; [| split; [| split; [| exact Hrun]]]];
    unfold Probate.process_item; cbn [parsed_owners]; rewrite Hp;
    cbn [Probate.search_all fst Pool.results_queue Pool.stats];
    unfold stats_finish, stats_begin; cbn [completed in_progress qualified];
    rewrite ?app_nil_r; try reflexivity; lia.
Qed.

Lemma empty_identity_task_witness :
  let sh := Pool.mkShared [None] ([] : list LogEntry) (mkStats 0 0 0) in
  Pool.results_queue (fst (Probate.process_item [] amp_item (fun _ => dead_env) sh)) = [].
Proof.
  exact (proj1 (proj2 (proj2 (proj2 empty_identity_task)) "&" 1%Z [] (fun _ => dead_env)
                 (Pool.mkShared [None] [] (mkStats 0 0 0)) (or_introl eq_refl))).
Defined.

(* ===================================================================== *)
(** * CAPTCHA solving *)
(* ===================================================================== *)

Lemma poll_time : forall v n a, snd (Captcha.poll v n a) <= Captcha.poll_interval * n.
Proof.
  intros v. induction n as [|n IH]; intros a; cbn [Captcha.poll]; [cbn; lia |].
  destruct (Captcha.getTaskResult v a) as [data|e].
  - destruct (Captcha.is_ready data).
    + destruct (Captcha.token_of data); cbn [snd]; unfold Captcha.poll_interval; lia.
    + specialize (IH (S a)). destruct (Captcha.poll v n (S a)) as [r t].
      cbn [snd] in *. unfold Captcha.poll_interval in *. lia.
  - cbn [snd]. unfold Captcha.poll_interval. lia.
Qed.

Lemma poll_exhausted : forall v n a,
  (forall k, a <= k < a + n ->
             exists d, Captcha.getTaskResult v k = Ok d /\ Captcha.is_ready d = false) ->
  Captcha.poll v n a = (Ok None, Captcha.poll_interval * n).
Proof.
  intros v. induction n as [|n IH]; intros a H; cbn [Captcha.poll].
  - rewrite Nat.mul_0_r. reflexivity.
  - destruct (H a ltac:(lia)) as (d & -> & ->).
    rewrite (IH (S a)) by (intros k Hk; apply H; lia).
    f_equal. unfold Captcha.poll_interval. lia.
Qed.

Lemma poll_token : forall v n a token t,
  Captcha.poll v n a = (Ok (Some token), t) ->
  exists k d,
    a <= k < a + n /\ Captcha.getTaskResult v k = Ok d
    /\ Captcha.is_ready d = true /\ Captcha.gRecaptchaResponse d = Some token
    /\ t = Captcha.poll_interval * (k - a + 1).
Proof.
  intros v. induction n as [|n IH]; intros a token t H; cbn [Captcha.poll] in H;
    [discriminate |].
  destruct (Captcha.getTaskResult v a) as [data|e] eqn:Hg; [| discriminate].
  destruct (Captcha.is_ready data) eqn:Hr.
  - unfold Captcha.token_of in H.
    destruct (Captcha.solution data) as [[tok|]|] eqn:Ht; [| discriminate | discriminate].
    injection H as <- <-. exists a, data.
    assert (Hresp : Captcha.gRecaptchaResponse data = Some tok)
      by (unfold Captcha.gRecaptchaResponse; now rewrite Ht).
    repeat split; try assumption; try lia.
    unfold Captcha.poll_interval. lia.
  - destruct (Captcha.poll v n (S a)) as [r t'] eqn:Hp. injection H as -> <-.
    destruct (IH _ _ _ Hp) as (k & d & Hk & Hgk & Hrk & Htk & ->).
    exists k, d. repeat split; try assumption; try lia.
    unfold Captcha.poll_interval. lia.
Qed.

(** The probate driver's own [solve_captcha] raises on a vendor error and
    when its polls are exhausted; it has no failure value. *)
Lemma solve_captcha_raises :
  Captcha.solve_captcha vendor_refusing
  = (Raise "CapSolver error: ERROR_KEY_DENIED_ACCESS", 0)
  /\ Captcha.solve_captcha vendor_stalling = (Raise "CAPTCHA solving timeout", 180)
  /\ ~ (forall v, exists token, fst (Captcha.solve_captcha v) = Ok token).
Proof.
  split; [reflexivity |]. split; [vm_compute; reflexivity |].
  intros H. destruct (H vendor_refusing) as (token & Ht). discriminate Ht.
Qed.

(** C9, amended.  [CaptchaSolver.solve] creates the task and polls every 3
    seconds, at most [timeout // 3] times; it never raises, and answers
    [None] on a vendor error, when the polls are exhausted and on any
    exception; a token it returns was delivered by a poll that found the
    task ready.  The [solve_captcha] of the probate driver polls every 3
    seconds at most 60 times and raises on a vendor error and when the polls
    are exhausted; raised while an identity is searched, the exception
    becomes the ERROR entry of that identity, and the worker stays in its
    loop. *)
Theorem captcha_failure_modes :
  (forall v timeout, exists r, fst (Captcha.solve v timeout) = Ok r)
  /\ (forall v timeout,
         snd (Captcha.solve v timeout) <= 3 * Z.to_nat (timeout / 3)
         /\ ((0 <= timeout)%Z -> (Z.of_nat (snd (Captcha.solve v timeout)) <= timeout)%Z))
  /\ (forall v timeout result,
         Captcha.createTask v = Ok result -> Captcha.is_error result = true ->
         Captcha.solve v timeout = (Ok None, 0))
  /\ (forall v timeout e,
         Captcha.createTask v = Raise e -> Captcha.solve v timeout = (Ok None, 0))
  /\ (forall v timeout result id,
         Captcha.createTask v = Ok result -> Captcha.is_error result = false ->
         Captcha.taskId result = Some id ->
         (forall k, k < Z.to_nat (timeout / 3) ->
                    exists d, Captcha.getTaskResult v k = Ok d
                              /\ Captcha.is_ready d = false) ->
         Captcha.solve v timeout = (Ok None, 3 * Z.to_nat (timeout / 3)))
  /\ (forall v timeout token t,
         Captcha.solve v timeout = (Ok (Some token), t) ->
         exists k d,
           k < Z.to_nat (timeout / 3) /\ Captcha.getTaskResult v k = Ok d
           /\ Captcha.is_ready d = true /\ Captcha.gRecaptchaResponse d = Some token
           /\ t = 3 * (k + 1))
  /\ (forall v result,
         Captcha.createTask v = Ok result -> Captcha.is_error result = true ->
         exists e, Captcha.solve_captcha v = (Raise e, 0))
  /\ (forall v result id,
         Captcha.createTask v = Ok result -> Captcha.is_error result = false ->
         Captcha.taskId result = Some id ->
         (forall k, k < 60 ->
                    exists d, Captcha.getTaskResult v k = Ok d
                              /\ Captcha.is_ready d = false) ->
         Captcha.solve_captcha v = (Raise "CAPTCHA solving timeout", 180))
  /\ (forall v, snd (Captcha.solve_captcha v) <= 180)
  /\ (forall pdd it idx ident off env captcha_type site_key e,
         env_fill env = Ok tt ->
         env_detect env = Ok (captcha_type, site_key) ->
         captcha_truthy captcha_type = true ->
         fst (Captcha.solve_captcha (env_vendor env)) = Raise e ->
         search_identity pdd it idx ident off env
         = (new_log_entry pdd it idx ident ERROR 0 (Some e) false off, off)
         /\ forall rest q rq st,
              Probate.wstep pdd (Pool.mkShared q rq st)
                (Pool.WWorking it (Probate.mkJob idx (ident :: rest) off))
                (Pool.mkShared q
                   (rq ++ [new_log_entry pdd it idx ident ERROR 0 (Some e) false off]) st)
                (Pool.WWorking it (Probate.mkJob (S idx) rest off))).
Proof.
  assert (Hbody : forall v timeout,
             snd (Captcha.solve_body v timeout) <= 3 * Z.to_nat (timeout / 3)).
  { intros v timeout. unfold Captcha.solve_body.
    destruct (Captcha.createTask v) as [result|e]; [| cbn; lia].
    destruct (Captcha.is_error result); [cbn; lia |].
    destruct (Captcha.taskId result); [| cbn; lia].
    apply (poll_time v (Z.to_nat (timeout / 3)) 0). }
  assert (Hsnd : forall v timeout,
             snd (Captcha.solve v timeout) = snd (Captcha.solve_body v timeout)).
  { intros v timeout. unfold Captcha.solve.
    destruct (Captcha.solve_body v timeout); reflexivity. }
  split; [| split; [| split; [| split; [| split; [| split; [| split; [| split; [| split]]]]]]]].
  - intros v timeout. unfold Captcha.solve.
    destruct (Captcha.solve_body v timeout) as [r t]. eexists. reflexivity.
  - intros v timeout. rewrite Hsnd. specialize (Hbody v timeout).
    split; [exact Hbody |]. intros Ht.
    pose proof (Z.mul_div_le timeout 3 ltac:(lia)).
    assert (0 <= timeout / 3)%Z by (apply Z.div_pos; lia). lia.
  - intros v timeout result Hc He. unfold Captcha.solve, Captcha.solve_body.
    rewrite Hc, He. reflexivity.
  - intros v timeout e Hc. unfold Captcha.solve, Captcha.solve_body.
    rewrite Hc. reflexivity.
  - intros v timeout result id Hc He Hid Hpoll. unfold Captcha.solve, Captcha.solve_body.
    rewrite Hc, He, Hid.
    rewrite (poll_exhausted v (Z.to_nat (timeout / 3)) 0)
      by (intros k Hk; apply Hpoll; lia).
    reflexivity.
  - intros v timeout token t H. unfold Captcha.solve, Captcha.solve_body in H.
    destruct (Captcha.createTask v) as [result|e]; [| discriminate].
    destruct (Captcha.is_error result); [discriminate |].
    destruct (Captcha.taskId result); [| discriminate].
    destruct (Captcha.poll v (Z.to_nat (timeout / 3)) 0) as [r t'] eqn:Hp.
    destruct r as [[tok|]|e]; try discriminate.
    cbn [try_except] in H. injection H as -> ->.
    destruct (poll_token _ _ _ _ _ Hp) as (k & d & Hk & Hg & Hr & Ht & ->).
    exists k, d. repeat split; try assumption; try lia.
    unfold Captcha.poll_interval. lia.
  - intros v result Hc He. unfold Captcha.solve_captcha. rewrite Hc, He.
    eexists. reflexivity.
  - intros v result id Hc He Hid Hpoll. unfold Captcha.solve_captcha.
    rewrite Hc, He, Hid.
    rewrite (poll_exhausted v 60 0) by (intros k Hk; apply Hpoll; lia).
    reflexivity.
  - intros v. unfold Captcha.solve_captcha.
    destruct (Captcha.createTask v) as [result|e]; [| cbn; lia].
    destruct (Captcha.is_error result); [cbn; lia |].
    destruct (Captcha.taskId result); [| cbn; lia].
    pose proof (poll_time v 60 0) as Ht.
    destruct (Captcha.poll v 60 0) as [[[tok|]|e] t]; cbn [snd] in *;
      unfold Captcha.poll_interval in Ht; lia.
  - intros pdd it idx ident off env ct sk e Hf Hd Hct Hs.
    assert (Hid : search_identity pdd it idx ident off env
                  = (new_log_entry pdd it idx ident ERROR 0 (Some e) false off, off)).
    { unfold search_identity, search_body. rewrite Hf. cbn [bind].
      rewrite Hd. cbn [bind]. rewrite Hct, Hs. reflexivity. }
    split; [exact Hid |]. intros rest q rq st.
    pose proof (Probate.search_step pdd it idx ident rest off env) as Hstep.
    rewrite Hid in Hstep. cbn [fst snd] in Hstep.
    exact (Pool.w_job Probate.start_job _ _ _ _ _ _ _ q rq st Hstep).
Qed.

Lemma captcha_failure_modes_witness :
  Captcha.solve vendor_refusing 180 = (Ok None, 0)
  /\ Captcha.solve vendor_stalling 180 = (Ok None, 3 * Z.to_nat (180 / 3))
  /\ entry_status (fst (search_identity [] smith_item 0
                          (mkIdentity "JOHN" "" "SMITH" "SMITH, JOHN") false
                          (captcha_env vendor_stalling)))
     = ERROR.
Proof.
  destruct captcha_failure_modes as (_ & _ & H3 & _ & H5 & _ & _ & _ & _ & H10).
  split; [| split].
  - exact (H3 vendor_refusing 180%Z _ eq_refl eq_refl).
  - refine (H5 vendor_stalling 180%Z _ "task-1" eq_refl eq_refl eq_refl _).
    intros k _. eexists. split; reflexivity.
  - assert (Hs : fst (Captcha.solve_captcha (env_vendor (captcha_env vendor_stalling)))
                 = Raise "CAPTCHA solving timeout") by (vm_compute; reflexivity).
    rewrite (proj1 (H10 [] smith_item 0 (mkIdentity "JOHN" "" "SMITH" "SMITH, JOHN") false
                        (captcha_env vendor_stalling) _ _ _ eq_refl eq_refl eq_refl Hs)).
    reflexivity.
Defined.

(* ===================================================================== *)
(** * Workers, writer and [main] together: facts *)
(* ===================================================================== *)

Lemma no_step_when_all_exited : forall pdd (p p' : Probate.System),
  forallb Pool.is_exited (Pool.workers p) = true -> ~ Probate.step pdd p p'.
Proof.
  intros pdd p p' Hall Hs. unfold Probate.step in Hs.
  destruct Hs as [sh sh' l1 w w' l2 Hw]. cbn [Pool.workers] in Hall.
  rewrite forallb_app in Hall. apply andb_true_iff in Hall as [_ Hall].
  cbn [forallb] in Hall. apply andb_true_iff in Hall as [Hw' _].
  destruct Hw; discriminate.
Qed.

Lemma pending_in_queue_nonneg : forall q, (0 <= ProbateRun.pending_in_queue q)%Z.
Proof. intros. apply PoolFacts.sumZ_nonneg. intros [it|]; lia. Qed.

Lemma pending_at_nonneg : forall w, (0 <= ProbateRun.pending_at w)%Z.
Proof. intros [ | | it | it j | r]; cbn; lia. Qed.

(** What one action of a worker does to the results queue, to [qualified]
    and to the searches still to be made. *)
Lemma probate_step_effect : forall pdd (p p' : Probate.System),
  Probate.step pdd p p' ->
  exists outs,
    Pool.results_queue (Pool.shared p') = Pool.results_queue (Pool.shared p) ++ outs
    /\ qualified (Pool.stats (Pool.shared p')) = qualified (Pool.stats (Pool.shared p))
    /\ (Z.of_nat (List.length outs) + ProbateRun.pending p' = ProbateRun.pending p)%Z
    /\ Forall (fun e => (Probate.kept e = true ->
                         disqualifying_probate_found e = false /\ entry_error e = None)
                        /\ (entry_status e = ERROR <-> entry_error e <> None)
                        /\ (0 < entry_count e ->
                            entry_status e = FOUND_CLEAN \/ entry_status e = DISQUALIFIED))
              outs.
Proof.
  intros pdd p p' Hs. unfold Probate.step in Hs.
  destruct Hs as [sh sh' l1 w w' l2 Hw]. unfold ProbateRun.pending.
  cbn [Pool.shared Pool.workers]. rewrite !PoolFacts.sumZ_mid.
  destruct Hw as [sh | sh | q rq st | it q rq st | rq st Hce He | rq st Hce He
                  | rq st Hce | it q rq st
                  | it j j' outs q rq st Hj | it j outs dq q rq st Hj];
    cbn [Pool.results_queue Pool.stats Pool.work_queue ProbateRun.pending_at
         stats_begin stats_finish qualified].
  1-8: exists []; rewrite app_nil_r; unfold ProbateRun.pending_in_queue;
       cbn [sumZ List.length Probate.start_job Probate.remaining];
       repeat split; try constructor; lia.
  - destruct Hj as [idx ident rest off env]. eexists. split; [reflexivity |].
    split; [reflexivity |]. split.
    + cbn [List.length Probate.remaining]. lia.
    + constructor; [| constructor].
      unfold search_identity. rewrite search_body_submit.
      destruct (submit_search env) as [[]|e]; cbn [bind try_except fst];
        [| unfold new_log_entry, Probate.kept; cbn;
           repeat split; try discriminate; try lia; intros; try discriminate; congruence].
      destruct (wait_for_results (env_page env)) as [[success row_count]|e];
        cbn [bind try_except fst];
        [| unfold new_log_entry, Probate.kept; cbn;
           repeat split; try discriminate; try lia; intros; try discriminate; congruence].
      destruct success; cbn [negb];
        [| unfold new_log_entry, Probate.kept; cbn;
           repeat split; try discriminate; try lia; intros; try discriminate; congruence].
      destruct (0 <? row_count);
        [| unfold new_log_entry, Probate.kept; cbn;
           repeat split; try discriminate; try lia; intros; try discriminate; congruence].
      destruct (process_search_results (env_cards env) (first_name ident)
                  (middle_name ident) (last_name ident));
        unfold new_log_entry, Probate.kept; cbn;
        repeat split; try discriminate; try lia; intros; try discriminate;
        try congruence; auto.
  - destruct Hj as [idx off]. exists []. rewrite app_nil_r.
    cbn [List.length Probate.remaining]. repeat split; try constructor; lia.
Qed.

Lemma pending_zero : forall (p : Probate.System),
  sumZ Pool.holding (Pool.workers p) = 0%Z ->
  Pool.real_items (Pool.work_queue (Pool.shared p)) = 0%Z ->
  ProbateRun.pending p = 0%Z.
Proof.
  intros [[q rq st] ws] Hh Hr. unfold ProbateRun.pending. cbn [Pool.shared Pool.workers
    Pool.work_queue] in *.
  assert (Hq : ProbateRun.pending_in_queue q = 0%Z).
  { clear Hh. induction q as [|[it|] q IH].
    - reflexivity.
    - rewrite PoolFacts.real_items_some in Hr. pose proof (PoolFacts.real_items_nonneg q). lia.
    - rewrite PoolFacts.real_items_none in Hr. unfold ProbateRun.pending_in_queue in *.
      cbn [sumZ]. rewrite (IH Hr). reflexivity. }
  assert (Hw : sumZ ProbateRun.pending_at ws = 0%Z).
  { induction ws as [|w ws IH]; [reflexivity |]. cbn [sumZ] in *.
    assert (0 <= sumZ Pool.holding ws)%Z
      by (apply PoolFacts.sumZ_nonneg; intros [ | | | | ]; cbn; lia).
    destruct w; cbn [Pool.holding ProbateRun.pending_at] in *; try lia;
      rewrite IH; lia. }
  lia.
Qed.

Lemma full_inv_init : forall items pills W,
  ProbateRun.full_inv (Z.of_nat (List.length items)) (ProbateRun.identities items)
    (ProbateRun.full_init (Pool.pool_init items pills W Pool.WSetup)).
Proof.
  intros items pills W. unfold ProbateRun.full_inv, ProbateRun.full_init.
  cbn [ProbateRun.pool ProbateRun.writer ProbateRun.produced ProbateRun.pill_sent
       ProbateRun.writer_at ProbateRun.taken ProbateRun.in_hand ProbateRun.at_pill].
  split; [apply PoolFacts.conserved_init; reflexivity |].
  split; [reflexivity |].
  split.
  { exists []. split; [reflexivity |]. unfold ProbateRun.writer_inv, ProbateRun.write_errors.
    cbn. repeat split; try lia; try constructor. intros e []. }
  split; [cbn; lia |]. split; [reflexivity |].
  split; [| split; discriminate].
  unfold ProbateRun.pending, Pool.pool_init.
  cbn [Pool.shared Pool.workers Pool.work_queue List.length].
  rewrite PoolFacts.sumZ_repeat. cbn [ProbateRun.pending_at].
  unfold ProbateRun.pending_in_queue, ProbateRun.identities.
  rewrite PoolFacts.sumZ_app, PoolFacts.sumZ_repeat.
  induction items as [|it items IH]; cbn [map sumZ] in *; lia.
Qed.

Lemma csv_block_row : forall entry csv_append row,
  Probate.csv_block entry csv_append = Ok row -> csv_row entry = Some row.
Proof.
  intros entry csv_append row H. unfold Probate.csv_block in H.
  destruct (csv_row entry) as [r|]; [| discriminate].
  destruct csv_append as [[]|e]; [| discriminate]. cbn [bind] in H. congruence.
Qed.

(** What one turn of the writer does to its counters, to its files and to
    the shared statistics. *)
Lemma writer_turn_inv : forall total g txt_append csv_append w st w' st' brk handled,
  Probate.result_writer_turn total g txt_append csv_append w st = (w', st', brk) ->
  ProbateRun.writer_inv w handled ->
  (0 <= qualified st <= Probate.qualified_count w)%Z ->
  (ProbateRun.write_errors w = 0%Z -> qualified st = Probate.qualified_count w) ->
  ProbateRun.writer_inv w' (handled ++ ProbateRun.got_entry g)
  /\ (0 <= qualified st' <= Probate.qualified_count w')%Z
  /\ (ProbateRun.write_errors w' = 0%Z -> qualified st' = Probate.qualified_count w')
  /\ completed st' = completed st /\ in_progress st' = in_progress st
  /\ (ProbateRun.at_pill (ProbateRun.writer_after g brk) = true -> g = Probate.GotPill)
  /\ ProbateRun.in_hand (ProbateRun.writer_after g brk) = [].
Proof.
  intros total g txt_append csv_append w st w' st' brk handled Hturn
         (Hqc & Htot & Hincl & Hrows & Hlen1 & Hlen2 & Hclean) Hq Hq0.
  assert (Hhand : ProbateRun.in_hand (ProbateRun.writer_after g brk) = [])
    by (destruct g, brk; reflexivity).
  unfold ProbateRun.write_errors in *.
  destruct g as [e | |]; cbn [Probate.result_writer_turn ProbateRun.got_entry] in *.
  - (* an entry *)
    assert (Hpill : ProbateRun.at_pill (ProbateRun.writer_after (Probate.GotEntry e) brk) = true
                    -> Probate.GotEntry e = Probate.GotPill)
      by (destruct brk; discriminate).
    unfold ProbateRun.writer_inv, ProbateRun.write_errors.
    rewrite filter_app, !length_app. cbn [filter].
    destruct (Probate.kept e) eqn:Hk.
    + cbn [List.length].
      destruct (Probate.txt_block e txt_append) as [[]|err].
      * destruct (Probate.csv_block e csv_append) as [row|err] eqn:Hcsv;
          injection Hturn as <- <- <-;
          cbn [Probate.qualified_count Probate.total_processed Probate.txt_written
               Probate.csv_written qualified completed in_progress];
          rewrite ?length_app; cbn [List.length].
        -- split; [| split; [lia | split; [intros _; reflexivity
                                          | split; [reflexivity | split; [reflexivity |
                                            split; [exact Hpill | exact Hhand]]]]]].
           split; [lia |]. split; [lia |].
           split; [apply incl_app; [apply incl_appl; exact Hincl
                                   | apply incl_appr, incl_refl] |].
           split.
           { apply Forall_app. split.
             - eapply Forall_impl; [| exact Hrows]. cbn beta.
               intros r (e0 & Hin & Hr). exists e0. split; [| exact Hr].
               apply in_or_app. now left.
             - constructor; [| constructor]. exists e. split.
               + apply in_or_app. right. now left.
               + exact (csv_block_row _ _ _ Hcsv). }
           split; [lia |]. split; [lia |].
           intros He. rewrite Hclean by lia. reflexivity.
        -- split; [| split; [lia | split; [intros He; lia
                                          | split; [reflexivity | split; [reflexivity |
                                            split; [exact Hpill | exact Hhand]]]]]].
           split; [lia |]. split; [lia |].
           split; [apply incl_app; [apply incl_appl; exact Hincl
                                   | apply incl_appr, incl_refl] |].
           split.
           { eapply Forall_impl; [| exact Hrows]. cbn beta.
             intros r (e0 & Hin & Hr). exists e0. split; [| exact Hr].
             apply in_or_app. now left. }
           split; [lia |]. split; [lia |]. intros He. lia.
      * injection Hturn as <- <- <-;
          cbn [Probate.qualified_count Probate.total_processed Probate.txt_written
               Probate.csv_written qualified completed in_progress].
        split; [| split; [lia | split; [intros He; lia
                                       | split; [reflexivity | split; [reflexivity |
                                         split; [exact Hpill | exact Hhand]]]]]].
        split; [lia |]. split; [lia |].
        split; [apply incl_appl; exact Hincl |].
        split; [exact Hrows |]. split; [lia |]. split; [lia |]. intros He. lia.
    + injection Hturn as <- <- <-;
        cbn [Probate.qualified_count Probate.total_processed Probate.txt_written
             Probate.csv_written qualified completed in_progress List.length].
      rewrite app_nil_r, Nat.add_0_r.
      split; [| split; [lia | split; [exact Hq0
                                     | split; [reflexivity | split; [reflexivity |
                                       split; [exact Hpill | exact Hhand]]]]]].
      repeat split; try assumption; lia.
  - (* the pill *)
    injection Hturn as <- <- <-. rewrite app_nil_r.
    split; [repeat split; assumption |]. split; [exact Hq |]. split; [exact Hq0 |].
    split; [reflexivity |]. split; [reflexivity |]. split; [reflexivity | exact Hhand].
  - (* a timeout *)
    injection Hturn as <- <- <-. rewrite app_nil_r.
    split; [repeat split; assumption |]. split; [exact Hq |]. split; [exact Hq0 |].
    split; [reflexivity |]. split; [reflexivity |].
    split; [destruct (Probate.writer_exits_on_empty st total); discriminate | exact Hhand].
Qed.

Lemma full_inv_step : forall pdd N T s s',
  ProbateRun.full_inv N T s -> ProbateRun.full_step pdd N s s' ->
  ProbateRun.full_inv N T s'.
Proof.
  intros pdd N T s s'
         (Hc & Hp & (handled & Ht & Hw) & Hq & Hq0 & Hpend & Hpill & Hat) Hs.
  destruct Hs as [p p' outs w a ps h t Hstep Hout | p w a h t Hall
                  | q rq st ws w ps h t g rq' Hget
                  | q rq st ws w ps h t g txt_append csv_append w' st' brk Hturn];
    unfold ProbateRun.full_inv in *;
    cbn [ProbateRun.pool ProbateRun.writer ProbateRun.produced ProbateRun.pill_sent
         ProbateRun.writer_at ProbateRun.taken] in *.
  - (* a worker *)
    destruct (probate_step_effect _ _ _ Hstep) as (outs' & Ho & Hq' & Hpe & _).
    assert (outs' = outs) by (rewrite Ho in Hout; eapply app_inv_head; eassumption).
    subst outs'.
    split; [eapply PoolFacts.conserved_step; eassumption |].
    split; [rewrite Hp, Ho, app_assoc; reflexivity |].
    split; [exists handled; split; assumption |].
    split; [rewrite Hq'; exact Hq |].
    split; [rewrite Hq'; exact Hq0 |].
    split; [rewrite length_app, Nat2Z.inj_add; lia |].
    split.
    + intros Hps. destruct (no_step_when_all_exited _ _ _ (Hpill Hps) Hstep).
    + intros Ha. destruct (Hat Ha) as [Hps _].
      destruct (no_step_when_all_exited _ _ _ (Hpill Hps) Hstep).
  - (* main joins the workers and puts the pill *)
    split; [assumption |]. split; [assumption |].
    split; [exists handled; split; assumption |].
    do 3 (split; [assumption |]).
    split; [intros _; exact Hall |].
    intros Ha. destruct (Hat Ha) as [Hps _]. discriminate.
  - (* the get of the writer *)
    cbn [Pool.shared Pool.workers Pool.results_queue Pool.stats Pool.work_queue
         ProbateRun.in_hand] in *.
    rewrite app_nil_r in Ht. subst t.
    split; [exact Hc |].
    destruct rq as [|e rq]; cbn [ProbateRun.writer_get] in Hget.
    + destruct ps; injection Hget as <- <-;
        cbn [ProbateRun.got_entry ProbateRun.in_hand ProbateRun.at_pill];
        rewrite !app_nil_r.
      * split; [rewrite Hp, app_nil_r; reflexivity |].
        split; [exists handled; split; [now rewrite app_nil_r | exact Hw] |].
        do 3 (split; [assumption |]). split; [exact Hpill |]. intros _. auto.
      * split; [rewrite Hp, app_nil_r; reflexivity |].
        split; [exists handled; split; [now rewrite app_nil_r | exact Hw] |].
        do 3 (split; [assumption |]). split; [exact Hpill | discriminate].
    + injection Hget as <- <-.
      cbn [ProbateRun.got_entry ProbateRun.in_hand ProbateRun.at_pill].
      split; [rewrite Hp, <- app_assoc; reflexivity |].
      split; [exists handled; split; [reflexivity | exact Hw] |].
      do 3 (split; [assumption |]). split; [exact Hpill | discriminate].
  - (* the rest of the turn *)
    cbn [Pool.shared Pool.workers Pool.results_queue Pool.stats Pool.work_queue
         ProbateRun.in_hand] in *.
    destruct (writer_turn_inv _ _ _ _ _ _ _ _ _ _ Hturn Hw Hq Hq0)
      as (Hw' & Hq' & Hq0' & Hcompl & Hprog & Hpl & Hhand).
    split.
    { unfold Pool.conserved in *.
      cbn [Pool.shared Pool.workers Pool.work_queue Pool.stats] in *.
      rewrite Hcompl, Hprog. exact Hc. }
    split; [exact Hp |].
    split; [exists (handled ++ ProbateRun.got_entry g); split;
            [rewrite Hhand, app_nil_r; exact Ht | exact Hw'] |].
    split; [exact Hq' |]. split; [exact Hq0' |].
    split; [exact Hpend |]. split; [exact Hpill |].
    intros Ha. apply Hat. rewrite (Hpl Ha). reflexivity.
Qed.

Lemma full_inv_steps : forall pdd N T s s',
  ProbateRun.full_inv N T s -> ProbateRun.full_steps pdd N s s' ->
  ProbateRun.full_inv N T s'.
Proof. intros pdd N T s s' Hi Hs. induction Hs; eauto using full_inv_step. Qed.

(** Once out of its loop the writer does nothing more. *)
Lemma writer_out_stays : forall pdd N s s',
  ProbateRun.full_steps pdd N s s' ->
  ProbateRun.writer_at s = ProbateRun.OutOnPill
  \/ ProbateRun.writer_at s = ProbateRun.OutOnEmpty ->
  ProbateRun.writer_at s' = ProbateRun.writer_at s
  /\ ProbateRun.writer s' = ProbateRun.writer s
  /\ ProbateRun.taken s' = ProbateRun.taken s.
Proof.
  intros pdd N s s' Hs Hout. induction Hs as [s | s s1 s2 Hs IH Hstep]; [auto |].
  destruct (IH Hout) as (Ha & Hw & Ht). rewrite <- Ha in Hout.
  destruct Hstep;
    cbn [ProbateRun.writer_at ProbateRun.writer ProbateRun.taken] in *;
    try (split; [assumption | split; assumption]);
    destruct Hout; discriminate.
Qed.

(** After the pill no entry is put any more. *)
Lemma after_pill : forall pdd N T s s',
  ProbateRun.full_inv N T s ->
  ProbateRun.writer_at s = ProbateRun.OutOnPill ->
  ProbateRun.full_steps pdd N s s' ->
  ProbateRun.produced s' = ProbateRun.produced s.
Proof.
  intros pdd N T s s' Hi Ha Hs. induction Hs as [s | s s1 s2 Hs IH Hstep]; [reflexivity |].
  specialize (IH Hi Ha).
  pose proof (full_inv_steps _ _ _ _ _ Hi Hs) as (_ & _ & _ & _ & _ & _ & Hpill & Hat).
  destruct (writer_out_stays _ _ _ _ Hs (or_introl Ha)) as (Ha1 & _ & _).
  rewrite Ha in Ha1.
  destruct Hstep as [p p' outs w a ps h t Hstep Hout | | |];
    cbn [ProbateRun.pool ProbateRun.produced ProbateRun.pill_sent
         ProbateRun.writer_at] in *; try assumption.
  subst a. destruct (Hat eq_refl) as [Hps _].
  destruct (no_step_when_all_exited _ _ _ (Hpill Hps) Hstep).
Qed.

Lemma probate_steps_trans : forall pdd n m (a b c : Probate.System),
  Probate.steps pdd n a b -> Probate.steps pdd m b c -> Probate.steps pdd (m + n) a c.
Proof.
  intros pdd n m a b c Hab Hbc. induction Hbc as [b | m b c1 c2 Hbc IH Hs];
    [exact Hab |].
  cbn [Nat.add]. eapply Pool.steps_S; [apply IH; exact Hab | exact Hs].
Qed.

Lemma probate_steps_results : forall pdd n (p p' : Probate.System),
  Probate.steps pdd n p p' ->
  exists outs,
    Pool.results_queue (Pool.shared p') = Pool.results_queue (Pool.shared p) ++ outs.
Proof.
  intros pdd n p p' Hs. induction Hs as [p | n p p1 p2 Hs IH Hstep].
  - exists []. now rewrite app_nil_r.
  - destruct IH as (o1 & H1).
    destruct (probate_step_effect _ _ _ Hstep) as (o2 & H2 & _).
    exists (o1 ++ o2). now rewrite H2, H1, app_assoc.
Qed.

(** Actions of the workers, seen in the whole system. *)
Lemma lift_worker_steps : forall pdd N n (p p' : Probate.System),
  Probate.steps pdd n p p' ->
  forall w a ps h t outs,
    Pool.results_queue (Pool.shared p') = Pool.results_queue (Pool.shared p) ++ outs ->
    ProbateRun.full_steps pdd N (ProbateRun.mkFull p w a ps h t)
                          (ProbateRun.mkFull p' w a ps (h ++ outs) t).
Proof.
  intros pdd N n p p' Hs. induction Hs as [p | n p p1 p2 Hs IH Hstep];
    intros w a ps h t outs Hout.
  - rewrite <- (app_nil_r (Pool.results_queue (Pool.shared p))) in Hout at 1.
    apply app_inv_head in Hout. subst outs. rewrite app_nil_r. apply ProbateRun.full_refl.
  - destruct (probate_steps_results _ _ _ _ Hs) as (o1 & H1).
    destruct (probate_step_effect _ _ _ Hstep) as (o2 & H2 & _).
    assert (outs = o1 ++ o2).
    { rewrite H2, H1, <- app_assoc in Hout. apply app_inv_head in Hout. now symmetry. }
    subst outs. rewrite app_assoc.
    eapply ProbateRun.full_next; [apply (IH w a ps h t o1 H1) |].
    apply ProbateRun.f_worker; assumption.
Qed.

Lemma smith_pool_run :
  Probate.steps [] 6
    (Pool.pool_init [smith_item] 1 1 Pool.WSetup)
    (Pool.mkSystem (Pool.mkShared [] [john_entry] (mkStats 1 0 0)) [Pool.WExited ByPill]).
Proof.
  change 6 with (1 + (3 + 2)).
  change (Pool.pool_init [smith_item] 1 1 Pool.WSetup)
    with (Pool.mkSystem (Pool.mkShared [Some smith_item; None] ([] : list LogEntry) stats_init)
                        [Pool.WSetup : Probate.Worker]).
  apply probate_steps_trans with
    (b := Pool.mkSystem (Pool.mkShared [None] [john_entry] (mkStats 1 0 0)) [Pool.WIdle]);
    [apply probate_steps_trans with
       (b := Pool.mkSystem (Pool.mkShared [None] [] stats_init)
                           [Pool.WHolding smith_item]) |].
  - (* setup, then the task is popped *)
    apply Pool.steps_S with
      (s' := Pool.mkSystem (Pool.mkShared [Some smith_item; None] [] stats_init)
                           [Pool.WIdle]).
    + apply Pool.steps_S with
        (s' := Pool.mkSystem (Pool.mkShared [Some smith_item; None] [] stats_init)
                             [Pool.WSetup]);
        [apply Pool.steps_O |].
      apply (Pool.step_worker _ _ _ _ _ _ [] Pool.WSetup Pool.WIdle []). apply Pool.w_setup_ok.
    + apply (Pool.step_worker _ _ _ _ _ _ [] Pool.WIdle (Pool.WHolding smith_item) []).
      apply Pool.w_item.
  - (* the task *)
    exact (process_item_run [] smith_item (fun _ => no_records_env)
             (Pool.mkShared [None] [] stats_init) [] []).
  - (* the pill *)
    apply Pool.steps_S with
      (s' := Pool.mkSystem (Pool.mkShared [None] [john_entry] (mkStats 1 0 0)) [Pool.WIdle]);
      [apply Pool.steps_O |].
    apply (Pool.step_worker _ _ _ _ _ _ [] Pool.WIdle (Pool.WExited ByPill) []).
    apply Pool.w_pill.
Qed.

Lemma full_steps_trans : forall pdd N a b c,
  ProbateRun.full_steps pdd N a b -> ProbateRun.full_steps pdd N b c ->
  ProbateRun.full_steps pdd N a c.
Proof.
  intros pdd N a b c Hab Hbc. induction Hbc as [b | b c1 c2 Hbc IH Hs]; [exact Hab |].
  eapply ProbateRun.full_next; [apply IH; exact Hab | exact Hs].
Qed.

(** The worker first; then the writer takes the entry and writes it, [main]
    puts the pill and the writer leaves on it. *)
Lemma smith_full_run : ProbateRun.full_steps [] 1 smith_start smith_end.
Proof.
  eapply ProbateRun.full_next.
  2:{ exact (ProbateRun.f_turn [] 1 [] [] (mkStats 1 1 0) [Pool.WExited ByPill]
               (Probate.mkWriterState 1 1 [john_entry] john_row) true
               [john_entry] [john_entry] Probate.GotPill (Ok tt) (Ok tt)
               (Probate.mkWriterState 1 1 [john_entry] john_row) (mkStats 1 1 0) true
               eq_refl). }
  eapply ProbateRun.full_next.
  2:{ exact (ProbateRun.f_get [] 1 [] [] (mkStats 1 1 0) [Pool.WExited ByPill]
               (Probate.mkWriterState 1 1 [john_entry] john_row) true
               [john_entry] [john_entry] Probate.GotPill [] eq_refl). }
  eapply ProbateRun.full_next.
  2:{ exact (ProbateRun.f_join [] 1
               (Pool.mkSystem (Pool.mkShared [] [] (mkStats 1 1 0)) [Pool.WExited ByPill])
               (Probate.mkWriterState 1 1 [john_entry] john_row) ProbateRun.AtGet
               [john_entry] [john_entry] eq_refl). }
  eapply ProbateRun.full_next.
  2:{ exact (ProbateRun.f_turn [] 1 [] [] (mkStats 1 0 0) [Pool.WExited ByPill]
               (Probate.mkWriterState 0 0 [] []) false
               [john_entry] [john_entry] (Probate.GotEntry john_entry) (Ok tt) (Ok tt)
               (Probate.mkWriterState 1 1 [john_entry] john_row) (mkStats 1 1 0) false
               ltac:(vm_compute; reflexivity)). }
  eapply ProbateRun.full_next.
  2:{ exact (ProbateRun.f_get [] 1 [] [john_entry] (mkStats 1 0 0) [Pool.WExited ByPill]
               (Probate.mkWriterState 0 0 [] []) false
               [john_entry] [] (Probate.GotEntry john_entry) [] eq_refl). }
  exact (lift_worker_steps [] 1 _ _ _ smith_pool_run
           (Probate.mkWriterState 0 0 [] []) ProbateRun.AtGet false [] []
           [john_entry] eq_refl).
Qed.

(** The get of the writer times out before the worker has put anything; the
    worker then does its task; the writer then makes its test and leaves. *)
Lemma smith_race_run : ProbateRun.full_steps [] 1 smith_start smith_race.
Proof.
  eapply ProbateRun.full_next.
  2:{ exact (ProbateRun.f_turn [] 1 [] [john_entry] (mkStats 1 0 0) [Pool.WExited ByPill]
               (Probate.mkWriterState 0 0 [] []) false
               [john_entry] [] Probate.GotEmpty (Ok tt) (Ok tt)
               (Probate.mkWriterState 0 0 [] []) (mkStats 1 0 0) true eq_refl). }
  eapply full_steps_trans.
  - eapply ProbateRun.full_next; [apply ProbateRun.full_refl |].
    exact (ProbateRun.f_get [] 1 [Some smith_item; None] [] stats_init [Pool.WSetup]
             (Probate.mkWriterState 0 0 [] []) false [] [] Probate.GotEmpty [] eq_refl).
  - exact (lift_worker_steps [] 1 _ _ _ smith_pool_run
             (Probate.mkWriterState 0 0 [] []) (ProbateRun.AtBody Probate.GotEmpty)
             false [] [] [john_entry] eq_refl).
Qed.

(** The worker first; then the writer takes the entry, and the append to
    the TXT file raises. *)
Lemma smith_failed_write_run :
  ProbateRun.full_steps [] 1 smith_start smith_failed_write.
Proof.
  eapply ProbateRun.full_next.
  2:{ exact (ProbateRun.f_turn [] 1 [] [] (mkStats 1 0 0) [Pool.WExited ByPill]
               (Probate.mkWriterState 0 0 [] []) false
               [john_entry] [john_entry] (Probate.GotEntry john_entry)
               (Raise "No space left on device") (Ok tt)
               (Probate.mkWriterState 1 0 [] []) (mkStats 1 0 0) false
               ltac:(vm_compute; reflexivity)). }
  eapply ProbateRun.full_next.
  2:{ exact (ProbateRun.f_get [] 1 [] [john_entry] (mkStats 1 0 0) [Pool.WExited ByPill]
               (Probate.mkWriterState 0 0 [] []) false
               [john_entry] [] (Probate.GotEntry john_entry) [] eq_refl). }
  exact (lift_worker_steps [] 1 _ _ _ smith_pool_run
           (Probate.mkWriterState 0 0 [] []) ProbateRun.AtGet false [] []
           [john_entry] eq_refl).
Qed.

(** X1.  The writer gets the entries in the order in which they were put,
    none lost and none twice: at each moment the entries put so far are
    those the writer has got followed by those still queued.  When the
    writer has left its loop on its pill, the results queue is empty, it has
    got every entry ever put, every worker is out of its loop and nothing
    changes any more: nothing is left behind.  The fallback on an
    empty-queue timeout gives no such guarantee: the get and the test of the
    counters are two accesses, and in the run of one task by one worker the
    writer can leave on that test while the entry of the task is still
    queued. *)
Theorem pill_leaves_nothing_behind :
  (forall pdd items pills W s,
      ProbateRun.full_steps pdd (Z.of_nat (List.length items))
        (ProbateRun.full_init (Pool.pool_init items pills W Pool.WSetup)) s ->
      ProbateRun.produced s
      = ProbateRun.taken s ++ Pool.results_queue (Pool.shared (ProbateRun.pool s))
      /\ (ProbateRun.writer_at s = ProbateRun.OutOnPill ->
          Pool.results_queue (Pool.shared (ProbateRun.pool s)) = []
          /\ ProbateRun.taken s = ProbateRun.produced s
          /\ forallb Pool.is_exited (Pool.workers (ProbateRun.pool s)) = true
          /\ forall s',
               ProbateRun.full_steps pdd (Z.of_nat (List.length items)) s s' ->
               ProbateRun.produced s' = ProbateRun.produced s
               /\ ProbateRun.taken s' = ProbateRun.taken s
               /\ ProbateRun.writer s' = ProbateRun.writer s
               /\ ProbateRun.writer_at s' = ProbateRun.OutOnPill)
      /\ (ProbateRun.writer_at s = ProbateRun.OutOnEmpty ->
          forall s',
            ProbateRun.full_steps pdd (Z.of_nat (List.length items)) s s' ->
            ProbateRun.taken s' = ProbateRun.taken s
            /\ ProbateRun.writer s' = ProbateRun.writer s
            /\ ProbateRun.writer_at s' = ProbateRun.OutOnEmpty))
  /\ (exists s,
         ProbateRun.full_steps [] 1
           (ProbateRun.full_init (Pool.pool_init [smith_item] 1 1 Pool.WSetup)) s
         /\ ProbateRun.writer_at s = ProbateRun.OutOnEmpty
         /\ Pool.results_queue (Pool.shared (ProbateRun.pool s)) = [john_entry]
         /\ ProbateRun.taken s = []
         /\ Probate.txt_written (ProbateRun.writer s) = []
         /\ Probate.kept john_entry = true).
Proof.
  split.
  - intros pdd items pills W s Hs.
    pose proof (full_inv_steps _ _ _ _ _ (full_inv_init items pills W) Hs) as Hi.
    pose proof Hi as (_ & Hp & _ & _ & _ & _ & Hpill & Hat).
    split; [exact Hp |]. split.
    + intros Ha. rewrite Ha in Hat. destruct (Hat eq_refl) as [Hps Hrq].
      split; [exact Hrq |]. split; [rewrite Hp, Hrq, app_nil_r; reflexivity |].
      split; [exact (Hpill Hps) |].
      intros s' Hs'.
      destruct (writer_out_stays _ _ _ _ Hs' (or_introl Ha)) as (H1 & H2 & H3).
      split; [exact (after_pill _ _ _ _ _ Hi Ha Hs') |].
      split; [exact H3 |]. split; [exact H2 | congruence].
    + intros Ha s' Hs'.
      destruct (writer_out_stays _ _ _ _ Hs' (or_intror Ha)) as (H1 & H2 & H3).
      split; [exact H3 |]. split; [exact H2 | congruence].
  - exists smith_race. split; [exact smith_race_run |].
    repeat split.
Qed.

Lemma pill_leaves_nothing_behind_witness :
  ProbateRun.taken smith_end = ProbateRun.produced smith_end.
Proof.
  exact (proj1 (proj2 (proj1 (proj2 (proj1 pill_leaves_nothing_behind
                                      [] [smith_item] 1 1 smith_end smith_full_run))
                             eq_refl))).
Defined.

(** X2.  Every identity of every task gets exactly one entry: at each moment
    the entries put so far plus the searches still to be made add up to the
    number of identities of all tasks, and once every worker has left on a
    pill or on the empty-queue test that number of entries has been put.  A
    writer that then leaves on its pill has got that many entries, and each
    of them was either counted in [total_processed] or ended in the
    [except Exception] clause of the writer. *)
Theorem one_outcome_per_identity :
  forall pdd items pills W s,
    0 < W ->
    ProbateRun.full_steps pdd (Z.of_nat (List.length items))
      (ProbateRun.full_init (Pool.pool_init items pills W Pool.WSetup)) s ->
    (Z.of_nat (List.length (ProbateRun.produced s)) + ProbateRun.pending (ProbateRun.pool s)
     = ProbateRun.identities items)%Z
    /\ (0 <= ProbateRun.pending (ProbateRun.pool s))%Z
    /\ (forallb Pool.exited_normally (Pool.workers (ProbateRun.pool s)) = true ->
        Z.of_nat (List.length (ProbateRun.produced s)) = ProbateRun.identities items
        /\ (ProbateRun.writer_at s = ProbateRun.OutOnPill ->
            Z.of_nat (List.length (ProbateRun.taken s)) = ProbateRun.identities items
            /\ (Probate.total_processed (ProbateRun.writer s)
                + ProbateRun.write_errors (ProbateRun.writer s)
                = ProbateRun.identities items)%Z
            /\ (0 <= ProbateRun.write_errors (ProbateRun.writer s))%Z)).
Proof.
  intros pdd items pills W s HW Hs.
  pose proof (full_inv_steps _ _ _ _ _ (full_inv_init items pills W) Hs) as Hi.
  pose proof Hi as (Hc & Hp & (handled & Ht & Hw) & _ & _ & Hpend & _ & Hat).
  split; [exact Hpend |]. split.
  { unfold ProbateRun.pending.
    pose proof (pending_in_queue_nonneg (Pool.work_queue (Pool.shared (ProbateRun.pool s)))).
    pose proof (PoolFacts.sumZ_nonneg _ ProbateRun.pending_at
                  (Pool.workers (ProbateRun.pool s)) pending_at_nonneg). lia. }
  intros Hall.
  assert (Hne : Pool.workers (ProbateRun.pool s) <> []).
  { assert (Hl : List.length (Pool.workers (ProbateRun.pool s)) = W).
    { clear - Hs. remember (ProbateRun.full_init _) as s0 eqn:E.
      induction Hs as [s | s s1 s2 Hs IH Hstep].
      - subst. cbn. apply repeat_length.
      - specialize (IH E). destruct Hstep as [p p' outs w a ps h t Hstep Hout | | |];
          cbn [ProbateRun.pool Pool.workers] in *; try assumption.
        unfold Probate.step in Hstep. destruct Hstep. cbn [Pool.workers] in *.
        rewrite length_app in *. cbn [List.length] in *. exact IH. }
    intros E. rewrite E in Hl. cbn in Hl. lia. }
  destruct (PoolFacts.conserved_final _ _ Hc Hne Hall) as (_ & _ & Hre).
  assert (Hh : sumZ Pool.holding (Pool.workers (ProbateRun.pool s)) = 0%Z).
  { apply PoolFacts.sumZ_zero with (p := Pool.exited_normally); [| exact Hall].
    intros [ | | | | []]; cbn; congruence. }
  rewrite (pending_zero _ Hh Hre) in Hpend.
  split; [lia |]. intros Ha. rewrite Ha in Hat, Ht.
  destruct (Hat eq_refl) as [_ Hrq].
  rewrite Hrq, app_nil_r in Hp. cbn [ProbateRun.in_hand] in Ht. rewrite app_nil_r in Ht.
  destruct Hw as (_ & Htot & _ & _ & Hl1 & Hl2 & _).
  split; [rewrite <- Hp; lia |].
  split; [rewrite Htot, <- Ht, <- Hp; lia |].
  unfold ProbateRun.write_errors. lia.
Qed.

Lemma one_outcome_per_identity_witness :
  Z.of_nat (List.length (ProbateRun.taken smith_end))
  = ProbateRun.identities [smith_item].
Proof.
  exact (proj1 (proj2 (proj2 (proj2 (one_outcome_per_identity [] [smith_item] 1 1 smith_end
                                       ltac:(lia) smith_full_run)) eq_refl) eq_refl)).
Defined.

Lemma produced_entries_sound : forall pdd N s s',
  ProbateRun.full_steps pdd N s s' ->
  Forall (fun e => Probate.kept e = true ->
                   disqualifying_probate_found e = false /\ entry_error e = None)
         (ProbateRun.produced s) ->
  Forall (fun e => Probate.kept e = true ->
                   disqualifying_probate_found e = false /\ entry_error e = None)
         (ProbateRun.produced s').
Proof.
  intros pdd N s s' Hs H0. induction Hs as [s | s s1 s2 Hs IH Hstep]; [exact H0 |].
  specialize (IH H0).
  destruct Hstep as [p p' outs w a ps h t Hstep Hout | | |];
    cbn [ProbateRun.produced] in *; try assumption.
  destruct (probate_step_effect _ _ _ Hstep) as (outs' & Ho & _ & _ & Hf).
  assert (outs' = outs) by (rewrite Ho in Hout; eapply app_inv_head; eassumption).
  subst outs'. apply Forall_app. split; [exact IH |].
  eapply Forall_impl; [| exact Hf]. cbn beta. intros e (H & _). exact H.
Qed.

(** X3.  What the writer appends to the output files: to the TXT file only
    entries whose status is FOUND_CLEAN or NOT_FOUND, none of them flagged
    as disqualifying and none carrying an error, and to the CSV file only
    the rows of such entries, never more rows than TXT blocks and never more
    blocks than [qualified_count].  [stats_dict['qualified']] never exceeds
    [qualified_count], which counts every kept entry whose turn is over,
    written or not; each such turn was either counted in [total_processed]
    or ended in [except Exception].  As long as no turn has ended there,
    [stats_dict['qualified']] is [qualified_count] and the blocks appended
    to the TXT file are exactly those of the kept entries whose turn is
    over, in the order in which they were put. *)
Theorem written_entries_are_clean :
  forall pdd items pills W s,
    ProbateRun.full_steps pdd (Z.of_nat (List.length items))
      (ProbateRun.full_init (Pool.pool_init items pills W Pool.WSetup)) s ->
    let w := ProbateRun.writer s in
    let st := Pool.stats (Pool.shared (ProbateRun.pool s)) in
    Forall (fun e => (entry_status e = FOUND_CLEAN \/ entry_status e = NOT_FOUND)
                     /\ disqualifying_probate_found e = false
                     /\ entry_error e = None)
           (Probate.txt_written w)
    /\ Forall (fun row => exists e, In e (Probate.txt_written w) /\ csv_row e = Some row)
              (Probate.csv_written w)
    /\ List.length (Probate.csv_written w) <= List.length (Probate.txt_written w)
    /\ (Z.of_nat (List.length (Probate.txt_written w)) <= Probate.qualified_count w)%Z
    /\ (0 <= qualified st <= Probate.qualified_count w)%Z
    /\ (0 <= ProbateRun.write_errors w)%Z
    /\ exists handled,
         ProbateRun.taken s = handled ++ ProbateRun.in_hand (ProbateRun.writer_at s)
         /\ Probate.qualified_count w
            = Z.of_nat (List.length (filter Probate.kept handled))
         /\ (Probate.total_processed w + ProbateRun.write_errors w
             = Z.of_nat (List.length handled))%Z
         /\ (ProbateRun.write_errors w = 0%Z ->
             qualified st = Probate.qualified_count w
             /\ Probate.txt_written w = filter Probate.kept handled).
Proof.
  intros pdd items pills W s Hs. cbn zeta.
  pose proof (full_inv_steps _ _ _ _ _ (full_inv_init items pills W) Hs)
    as (_ & Hp & (handled & Ht & Hw) & Hq & Hq0 & _).
  pose proof (produced_entries_sound _ _ _ _ Hs (Forall_nil _)) as Hf.
  destruct Hw as (Hqc & Htot & Hincl & Hrows & Hl1 & Hl2 & Hclean).
  split.
  { apply Forall_forall. intros e Hin.
    apply Hincl, filter_In in Hin as [Hin Hk].
    assert (Hprod : In e (ProbateRun.produced s)).
    { rewrite Hp, Ht. apply in_or_app. left. apply in_or_app. now left. }
    destruct (proj1 (Forall_forall _ _) Hf e Hprod Hk) as [H1 H2].
    split; [| split; assumption].
    unfold Probate.kept in Hk. cbn [existsb] in Hk.
    destruct (entry_status e); cbn in Hk; try discriminate; auto. }
  split; [exact Hrows |]. split; [exact Hl1 |]. split; [exact Hl2 |].
  split; [exact Hq |]. split; [unfold ProbateRun.write_errors; lia |].
  exists handled. split; [exact Ht |]. split; [exact Hqc |]. split; [exact Htot |].
  intros He. split; [exact (Hq0 He) | exact (Hclean He)].
Qed.

Lemma written_entries_are_clean_witness :
  (0 <= qualified (Pool.stats (Pool.shared (ProbateRun.pool smith_failed_write)))
   <= Probate.qualified_count (ProbateRun.writer smith_failed_write))%Z.
Proof.
  exact (proj1 (proj2 (proj2 (proj2 (proj2
           (written_entries_are_clean [] [smith_item] 1 1 smith_failed_write
              smith_failed_write_run)))))).
Defined.

(* ===================================================================== *)
(** * The counters stay in range *)
(* ===================================================================== *)

Section PoolBounds.

Context {Item Job Out : Type}.
Variable start_job : Item -> Job.
Variable job_step : Item -> Job -> Job -> list Out -> Prop.
Variable job_finish : Item -> Job -> list Out -> Z -> Prop.
Variable catches_empty : bool.

Local Abbreviation psteps := (Pool.steps start_job job_step job_finish catches_empty).

Lemma working_le_holding : forall ws : list (@Pool.Worker Item Job),
  (0 <= sumZ Pool.working ws <= sumZ Pool.holding ws)%Z
  /\ (sumZ Pool.holding ws <= Z.of_nat (List.length ws))%Z.
Proof.
  induction ws as [|w ws IH]; [cbn; lia |].
  cbn [sumZ List.length]. rewrite Nat2Z.inj_succ.
  destruct w; cbn [Pool.working Pool.holding]; lia.
Qed.

Lemma steps_keep_workers : forall n (s s' : @Pool.System Item Job Out),
  psteps n s s' -> List.length (Pool.workers s') = List.length (Pool.workers s).
Proof.
  intros n s s' Hs. induction Hs as [s | n s s1 s2 Hs IH Hstep]; [reflexivity |].
  rewrite <- IH. destruct Hstep. cbn [Pool.workers].
  rewrite !length_app. reflexivity.
Qed.

Lemma completed_monotone : forall n (s s' : @Pool.System Item Job Out),
  psteps n s s' ->
  (completed (Pool.stats (Pool.shared s)) <= completed (Pool.stats (Pool.shared s')))%Z
  /\ exists outs, Pool.results_queue (Pool.shared s')
                  = Pool.results_queue (Pool.shared s) ++ outs.
Proof.
  intros n s s' Hs. induction Hs as [s | n s s1 s2 Hs IH Hstep].
  - split; [lia |]. exists []. now rewrite app_nil_r.
  - destruct IH as (Hc & outs & Hr). destruct Hstep as [sh sh' l1 w w' l2 Hw].
    cbn [Pool.shared] in *.
    pose proof (PoolFacts.completed_wstep _ _ _ _ _ _ _ _ Hw) as Hcw.
    assert (0 <= Pool.finishes w w')%Z by (destruct w, w'; cbn; lia).
    split; [lia |].
    destruct Hw; cbn [Pool.results_queue] in *;
      try (exists outs; assumption);
      eexists; rewrite Hr, <- app_assoc; reflexivity.
Qed.

Lemma counters_in_range : forall items pills W w0 n (s : @Pool.System Item Job Out),
  Pool.is_exited w0 = false -> Pool.holding w0 = 0%Z ->
  psteps n (Pool.pool_init items pills W w0) s ->
  let st := Pool.stats (Pool.shared s) in
  (0 <= completed st <= Z.of_nat (List.length items))%Z
  /\ (0 <= in_progress st <= Z.of_nat W)%Z
  /\ (completed st + in_progress st <= Z.of_nat (List.length items))%Z.
Proof.
  intros items pills W w0 n s Hex Hh Hs. cbn zeta.
  pose proof (PoolFacts.conserved_steps _ _ _ _ _ _ _ _
                (PoolFacts.conserved_init items pills W w0 Hex Hh) Hs) as (H1 & H2 & _).
  destruct (completed_monotone _ _ _ Hs) as (Hm & _).
  pose proof (steps_keep_workers _ _ _ Hs) as Hl.
  unfold Pool.pool_init in Hl, Hm. cbn [Pool.workers Pool.shared Pool.stats completed
    stats_init] in Hl, Hm. rewrite repeat_length in Hl.
  destruct (working_le_holding (Pool.workers s)) as [Hw Hhold].
  pose proof (PoolFacts.real_items_nonneg (Pool.work_queue (Pool.shared s))).
  rewrite Hl in Hhold. lia.
Qed.

End PoolBounds.

(** X4.  In both drivers, under every schedule: [completed] never goes
    down and never exceeds the number of tasks enqueued, [in_progress] stays
    between 0 and the number of workers, [completed + in_progress] never
    exceeds the number of tasks (so the "remaining" figure of the progress
    line is never negative), and the results queue only grows at its end
    while the workers run. *)
Theorem counters_stay_in_range :
  (forall pdd items pills W n m (s s' : Probate.System),
      Probate.steps pdd n (Pool.pool_init items pills W Pool.WSetup) s ->
      Probate.steps pdd m s s' ->
      let st := Pool.stats (Pool.shared s) in
      (0 <= completed st <= Z.of_nat (List.length items))%Z
      /\ (0 <= in_progress st <= Z.of_nat W)%Z
      /\ (completed st + in_progress st <= Z.of_nat (List.length items))%Z
      /\ (completed st <= completed (Pool.stats (Pool.shared s')))%Z
      /\ exists outs, Pool.results_queue (Pool.shared s')
                      = Pool.results_queue (Pool.shared s) ++ outs)
  /\ (forall D items pills W n m (s s' : Tax.System D),
         Tax.steps D n (Pool.pool_init items pills W Pool.WIdle) s ->
         Tax.steps D m s s' ->
         let st := Pool.stats (Pool.shared s) in
         (0 <= completed st <= Z.of_nat (List.length items))%Z
         /\ (0 <= in_progress st <= Z.of_nat W)%Z
         /\ (completed st + in_progress st <= Z.of_nat (List.length items))%Z
         /\ (completed st <= completed (Pool.stats (Pool.shared s')))%Z
         /\ exists outs, Pool.results_queue (Pool.shared s')
                         = Pool.results_queue (Pool.shared s) ++ outs).
Proof.
  split.
  - intros pdd items pills W n m s s' Hs Hs'. cbn zeta.
    destruct (counters_in_range _ _ _ _ items pills W Pool.WSetup n s eq_refl eq_refl Hs)
      as (H1 & H2 & H3).
    destruct (completed_monotone _ _ _ _ _ _ _ Hs') as (H4 & H5).
    repeat split; try lia; assumption.
  - intros D items pills W n m s s' Hs Hs'. cbn zeta.
    destruct (counters_in_range _ _ _ _ items pills W Pool.WIdle n s eq_refl eq_refl Hs)
      as (H1 & H2 & H3).
    destruct (completed_monotone _ _ _ _ _ _ _ Hs') as (H4 & H5).
    repeat split; try lia; assumption.
Qed.

Lemma counters_stay_in_range_witness :
  (completed (Pool.stats (Pool.shared (probate_demo 3)))
   + in_progress (Pool.stats (Pool.shared (probate_demo 3))) <= 1)%Z.
Proof.
  assert (H3 : Probate.steps [] 3 (probate_demo 0) (probate_demo 3)).
  { apply Pool.steps_S with (s' := probate_demo 2).
    apply Pool.steps_S with (s' := probate_demo 1).
    apply Pool.steps_S with (s' := probate_demo 0).
    apply Pool.steps_O.
    - apply (Pool.step_worker _ _ _ _ _ _ [] Pool.WSetup Pool.WIdle []). apply Pool.w_setup_ok.
    - apply (Pool.step_worker _ _ _ _ _ _ [] Pool.WIdle (Pool.WHolding amp_item) []).
      apply Pool.w_item.
    - apply (Pool.step_worker _ _ _ _ _ _ [] (Pool.WHolding amp_item)
               (Pool.WWorking amp_item (Probate.mkJob 0 [] false)) []).
      apply (Pool.w_begin Probate.start_job _ _ _ amp_item). }
  exact (proj1 (proj2 (proj2 (proj1 counters_stay_in_range [] [amp_item] 1 1 3 0
                                (probate_demo 3) (probate_demo 3) H3 (Pool.steps_O _ _ _ _ _))))).
Defined.

(* ===================================================================== *)
(** * The tax driver: qualified properties *)
(* ===================================================================== *)

Lemma process_owner_cases : forall D worker_id it env,
  (Tax.process_owner D worker_id it env = ([], 0%Z)
   /\ (Tax.env_search D env = None \/ exists e, Tax.env_write D env = Raise e))
  \/ (exists data,
         Tax.env_search D env = Some data /\ Tax.env_write D env = Ok tt
         /\ Tax.process_owner D worker_id it env
            = ([Tax.mkQualified D worker_id (Tax.owner_row it) data], 1%Z)).
Proof.
  intros D worker_id it env. unfold Tax.process_owner, Tax.try_body.
  destruct (Tax.env_search D env) as [data|]; [| left; split; [reflexivity | now left]].
  destruct (Tax.env_write D env) as [[]|e]; cbn [bind try_except].
  - right. exists data. repeat split.
  - left. split; [reflexivity |]. right. now exists e.
Qed.

(** X5.  In the tax driver, under every schedule: the records on the
    results queue are those counted in [stats_dict['qualified']] plus one
    for each worker that has put its record and has not yet reached the
    block under [stats_lock]; such workers are among those counted in
    [in_progress].  So [qualified] never exceeds the number of records, and
    is that number whenever no worker stands between the put and the block.
    [qualified] never exceeds [completed], and each record on the queue
    carries the row of a task that was enqueued. *)
Theorem tax_qualified_counts :
  forall D items pills W n (s : Tax.System D),
    Tax.steps D n (Pool.pool_init items pills W Pool.WIdle) s ->
    Z.of_nat (List.length (Pool.results_queue (Pool.shared s)))
    = (qualified (Pool.stats (Pool.shared s)) + sumZ Tax.uncounted (Pool.workers s))%Z
    /\ (0 <= sumZ Tax.uncounted (Pool.workers s)
        <= in_progress (Pool.stats (Pool.shared s)))%Z
    /\ (0 <= qualified (Pool.stats (Pool.shared s))
        <= completed (Pool.stats (Pool.shared s)))%Z
    /\ Forall (fun r => exists it, In it items /\ Tax.q_row D r = Tax.owner_row it)
              (Pool.results_queue (Pool.shared s)).
Proof.
  intros D items pills W n s Hs.
  assert (Hun : forall ws : list Tax.Worker,
             (0 <= sumZ Tax.uncounted ws <= sumZ Pool.working ws)%Z).
  { induction ws as [|w ws IH]; [cbn; lia |]. cbn [sumZ].
    destruct w as [ | | it | it [|] | r]; cbn [Tax.uncounted Pool.working]; lia. }
  pose proof (PoolFacts.conserved_steps _ _ _ _ _ _ _ _
                (PoolFacts.conserved_init items pills W Pool.WIdle eq_refl eq_refl) Hs)
    as (_ & Hprog & _).
  assert (Hgen :
            Z.of_nat (List.length (Pool.results_queue (Pool.shared s)))
            = (qualified (Pool.stats (Pool.shared s))
               + sumZ Tax.uncounted (Pool.workers s))%Z
            /\ (0 <= qualified (Pool.stats (Pool.shared s))
                <= completed (Pool.stats (Pool.shared s)))%Z
            /\ Forall (fun r => exists it, In it items /\ Tax.q_row D r = Tax.owner_row it)
                      (Pool.results_queue (Pool.shared s))
            /\ Forall (fun x => match x with
                                | Some it => In it items
                                | None => True
                                end) (Pool.work_queue (Pool.shared s))
            /\ Forall (fun w => match w with
                                | Pool.WHolding it | Pool.WWorking it _ => In it items
                                | _ => True
                                end) (Pool.workers s)).
  { clear Hprog. remember (Pool.pool_init items pills W Pool.WIdle) as s0 eqn:E.
    unfold Tax.steps in Hs.
    induction Hs as [s | n s s1 s2 Hs IH Hstep].
    - subst s. unfold Pool.pool_init. cbn [Pool.shared Pool.stats Pool.results_queue
        Pool.work_queue Pool.workers stats_init qualified completed List.length].
      rewrite PoolFacts.sumZ_repeat. cbn [Tax.uncounted].
      repeat split; try lia; try constructor.
      + apply Forall_app. split.
        * apply Forall_forall. intros x Hx. apply in_map_iff in Hx as (it & <- & Hit).
          exact Hit.
        * apply Forall_forall. intros x Hx. apply repeat_spec in Hx. subst x. exact I.
      + apply Forall_forall. intros x Hx. apply repeat_spec in Hx. subst x. exact I.
    - specialize (IH E). destruct IH as (Hq & Hle & Hres & Hqueue & Hws).
      destruct Hstep as [sh sh' l1 w w' l2 Hw].
      cbn [Pool.shared Pool.workers] in *.
      rewrite !PoolFacts.sumZ_mid in *.
      apply Forall_app in Hws as [Hl1 Hl2].
      apply Forall_cons_iff in Hl2 as [Hw0 Hl2].
      destruct Hw as [sh | sh | q rq st | it q rq st | rq st Hce He | rq st Hce He
                      | rq st Hce | it q rq st
                      | it j j' outs q rq st Hj | it j outs dq q rq st Hj];
        cbn [Pool.results_queue Pool.stats Pool.work_queue stats_begin stats_finish
             qualified completed Tax.uncounted Tax.start_job] in *.
      1-8: repeat split; try lia; try assumption;
           try (apply Forall_cons_iff in Hqueue as [Hit Hqueue]);
           try assumption;
           apply Forall_app; split; try assumption; constructor; try assumption; exact I.
      + (* the record is put *)
        destruct Hj as [worker_id env r Hp].
        cbn [Tax.uncounted] in *. rewrite length_app, Nat2Z.inj_add. cbn [List.length].
        repeat split; try lia; try assumption.
        * apply Forall_app. split; [assumption |]. constructor; [| constructor].
          destruct (process_owner_cases D worker_id it env)
            as [[Hp' _] | (data & _ & _ & Hp')]; rewrite Hp' in Hp; [discriminate |].
          injection Hp as <-. exists it. split; [exact Hw0 | reflexivity].
        * apply Forall_app; split; try assumption; constructor; try assumption.
      + (* the block under the lock *)
        destruct Hj as [worker_id env Hp |]; cbn [Tax.uncounted] in *;
          rewrite app_nil_r; repeat split; try lia; try assumption;
          apply Forall_app; split; try assumption; constructor; try assumption; exact I. }
  destruct Hgen as (H1 & H2 & H3 & _).
  specialize (Hun (Pool.workers s)).
  repeat split; try assumption; lia.
Qed.

Lemma tax_recorded_run : Tax.steps unit 3 (tax_demo 0) tax_recorded.
Proof.
  apply Pool.steps_S with (s' := tax_demo 2).
  apply Pool.steps_S with (s' := tax_demo 1).
  apply Pool.steps_S with (s' := tax_demo 0).
  apply Pool.steps_O.
  - apply (Pool.step_worker _ _ _ _ _ _ [] Pool.WIdle (Pool.WHolding jane) []).
    apply Pool.w_item.
  - apply (Pool.step_worker _ _ _ _ _ _ [] (Pool.WHolding jane)
             (Pool.WWorking jane Tax.searching) []).
    apply (Pool.w_begin (Tax.start_job) _ _ _ jane).
  - apply (Pool.step_worker _ _ _ _ _ _ [] (Pool.WWorking jane Tax.searching)
             (Pool.WWorking jane Tax.recorded) []).
    apply (Pool.w_job _ _ _ _ jane Tax.searching Tax.recorded
             [Tax.mkQualified unit 1 1 tt] [None] [] (mkStats 0 0 1)).
    apply (Tax.owner_recorded unit jane 1%Z (Tax.mkEnv unit (Some tt) (Ok tt))).
    reflexivity.
Qed.

Lemma tax_qualified_counts_witness :
  Z.of_nat (List.length (Pool.results_queue (Pool.shared tax_recorded)))
  = (qualified (Pool.stats (Pool.shared tax_recorded))
     + sumZ Tax.uncounted (Pool.workers tax_recorded))%Z.
Proof.
  exact (proj1 (tax_qualified_counts unit [jane] 1 1 3 tax_recorded tax_recorded_run)).
Defined.

(* ===================================================================== *)
(** * Strings: words and trimming *)
(* ===================================================================== *)

Lemma string_forall_app : forall p a b,
  string_forall p (a ++ b) = string_forall p a && string_forall p b.
Proof.
  induction a as [|c a IH]; intros b; cbn [append string_forall]; [reflexivity |].
  now rewrite IH, andb_assoc.
Qed.

(** The words given by [s.split()] are not empty and hold no whitespace. *)
Lemma split_ws_aux_words : forall s cur,
  string_forall not_space cur = true ->
  Forall (fun w => w <> "" /\ string_forall not_space w = true) (PyStr.split_ws_aux cur s).
Proof.
  induction s as [|c s IH]; intros cur Hcur; cbn [PyStr.split_ws_aux].
  - destruct cur; constructor; [split; [discriminate | exact Hcur] | constructor].
  - destruct (PyStr.is_space c) eqn:Hc.
    + destruct cur; [apply IH; reflexivity |].
      constructor; [split; [discriminate | exact Hcur] | apply IH; reflexivity].
    + apply IH. rewrite string_forall_app, Hcur. cbn [string_forall].
      unfold not_space. now rewrite Hc.
Qed.

Lemma split_ws_words : forall s,
  Forall (fun w => w <> "" /\ string_forall not_space w = true) (PyStr.split_ws s).
Proof. intros s. apply split_ws_aux_words. reflexivity. Qed.

Lemma nth_word : forall words k,
  Forall (fun w => w <> "" /\ string_forall not_space w = true) words ->
  string_forall not_space (nth k words "") = true.
Proof.
  intros words k H. destruct (nth_in_or_default k words "") as [Hin | ->]; [| reflexivity].
  exact (proj2 (proj1 (Forall_forall _ _) H _ Hin)).
Qed.

Lemma rstrip_keeps_head : forall c r,
  PyStr.is_space c = false -> PyStr.rstrip (String c r) = String c (PyStr.rstrip r).
Proof. intros c r Hc. cbn [PyStr.rstrip]. rewrite Hc. destruct (PyStr.rstrip r); reflexivity. Qed.

Lemma rstrip_cons_nonempty : forall c r,
  PyStr.rstrip r <> "" -> PyStr.rstrip (String c r) = String c (PyStr.rstrip r).
Proof. intros c r H. cbn [PyStr.rstrip]. destruct (PyStr.rstrip r); congruence. Qed.

Lemma rstrip_idempotent : forall s, PyStr.rstrip (PyStr.rstrip s) = PyStr.rstrip s.
Proof.
  induction s as [|c s IH]; [reflexivity |].
  destruct (PyStr.rstrip s) as [|c1 r1] eqn:Hr.
  - cbn [PyStr.rstrip]. rewrite Hr.
    destruct (PyStr.is_space c) eqn:Hc; [reflexivity |].
    cbn [PyStr.rstrip]. now rewrite Hc.
  - rewrite (rstrip_cons_nonempty c s) by (rewrite Hr; discriminate).
    rewrite rstrip_cons_nonempty by (rewrite Hr, IH; discriminate).
    now rewrite Hr, IH.
Qed.

Lemma lstrip_head : forall s,
  PyStr.lstrip s = "" \/ exists c r, PyStr.lstrip s = String c r /\ PyStr.is_space c = false.
Proof.
  induction s as [|c s IH]; [now left |]. cbn [PyStr.lstrip].
  destruct (PyStr.is_space c) eqn:Hc; [exact IH |]. right. now exists c, s.
Qed.

Lemma strip_head : forall s,
  PyStr.strip s = "" \/ exists c r, PyStr.strip s = String c r /\ PyStr.is_space c = false.
Proof.
  intros s. unfold PyStr.strip.
  destruct (lstrip_head s) as [-> | (c & r & -> & Hc)]; [now left |].
  right. exists c, (PyStr.rstrip r). split; [apply rstrip_keeps_head; exact Hc | exact Hc].
Qed.

(** [s.strip().strip() == s.strip()] *)
Lemma strip_idempotent : forall s, PyStr.strip (PyStr.strip s) = PyStr.strip s.
Proof.
  intros s. destruct (strip_head s) as [-> | (c & r & H & Hc)]; [reflexivity |].
  unfold PyStr.strip at 1. rewrite H. cbn [PyStr.lstrip]. rewrite Hc.
  rewrite <- H. unfold PyStr.strip. apply rstrip_idempotent.
Qed.

Lemma lstrip_forall : forall p s,
  string_forall p s = true -> string_forall p (PyStr.lstrip s) = true.
Proof.
  induction s as [|c s IH]; intros H; [reflexivity |]. cbn [PyStr.lstrip].
  destruct (PyStr.is_space c); [| exact H].
  cbn [string_forall] in H. apply andb_true_iff in H as [_ H]. auto.
Qed.

Lemma rstrip_forall : forall p s,
  string_forall p s = true -> string_forall p (PyStr.rstrip s) = true.
Proof.
  induction s as [|c s IH]; intros H; [reflexivity |]. cbn [PyStr.rstrip].
  cbn [string_forall] in H. apply andb_true_iff in H as [Hc H]. specialize (IH H).
  destruct (PyStr.rstrip s) as [|c1 r1].
  - destruct (PyStr.is_space c); [reflexivity |]. cbn [string_forall]. now rewrite Hc.
  - cbn [string_forall] in *. now rewrite Hc, IH.
Qed.

Lemma strip_forall : forall p s,
  string_forall p s = true -> string_forall p (PyStr.strip s) = true.
Proof. intros. unfold PyStr.strip. now apply rstrip_forall, lstrip_forall. Qed.

Lemma append_empty : forall a : string, (a ++ "")%string = a.
Proof. induction a as [|c a IH]; cbn [append]; [reflexivity | now rewrite IH]. Qed.

Lemma append_assoc : forall a b c : string, ((a ++ b) ++ c)%string = (a ++ b ++ c)%string.
Proof. induction a as [|x a IH]; intros; cbn [append]; [reflexivity | now rewrite IH]. Qed.

Lemma split_on_no_separator : forall sep s cur,
  string_forall (fun c => negb (Ascii.eqb c sep)) s = true ->
  PyStr.split_on_aux sep cur s = [(cur ++ s)%string].
Proof.
  induction s as [|c s IH]; intros cur H; cbn [PyStr.split_on_aux].
  - now rewrite append_empty.
  - cbn [string_forall] in H. apply andb_true_iff in H as [Hc H].
    apply negb_true_iff in Hc. rewrite Hc, IH by exact H.
    now rewrite append_assoc.
Qed.

(* ===================================================================== *)
(** * The address columns of the CSV file *)
(* ===================================================================== *)

Lemma digit_not_space : forall c, is_digit c = true -> PyStr.is_space c = false.
Proof.
  intros c H. unfold is_digit, PyStr.is_space in *. cbn zeta in *.
  apply andb_true_iff in H as [H1 H2]. apply Nat.leb_le in H1, H2.
  apply orb_false_iff. split; apply andb_false_iff.
  - right. apply Nat.leb_gt. lia.
  - right. apply Nat.leb_gt. lia.
Qed.

Lemma from_first_digit_spec : forall s,
  (from_first_digit s = None /\ string_forall not_digit s = true)
  \/ (exists pre d rest,
         s = (pre ++ String d rest)%string /\ string_forall not_digit pre = true
         /\ is_digit d = true /\ from_first_digit s = Some (String d rest)).
Proof.
  induction s as [|c s IH]; [left; split; reflexivity |].
  cbn [from_first_digit string_forall]. unfold not_digit at 1.
  destruct (is_digit c) eqn:Hc.
  - right. exists "", c, s. repeat split. exact Hc.
  - destruct IH as [[H1 H2] | (pre & d & rest & -> & Hp & Hd & Hf)].
    + left. split; [exact H1 | exact H2].
    + right. exists (String c pre), d, rest. cbn [append string_forall].
      unfold not_digit at 1. rewrite Hc. repeat split; assumption.
Qed.

Lemma from_first_digit_app : forall pre d rest,
  string_forall not_digit pre = true -> is_digit d = true ->
  from_first_digit (pre ++ String d rest) = Some (String d rest).
Proof.
  induction pre as [|c pre IH]; intros d rest Hp Hd; cbn [append from_first_digit].
  - now rewrite Hd.
  - cbn [string_forall] in Hp. apply andb_true_iff in Hp as [Hc Hp].
    unfold not_digit in Hc. apply negb_true_iff in Hc. rewrite Hc. now apply IH.
Qed.

Lemma extract_from_digit : forall pre d rest,
  string_forall not_digit pre = true -> is_digit d = true ->
  extract_property_address (pre ++ String d rest) = String d (PyStr.rstrip rest).
Proof.
  intros pre d rest Hp Hd. unfold extract_property_address.
  assert (Ht : PyStr.truthy (pre ++ String d rest) = true) by (destruct pre; reflexivity).
  assert (Hn : String.eqb (pre ++ String d rest) "N/A" = false).
  { apply String.eqb_neq. intros E.
    pose proof (from_first_digit_app pre d rest Hp Hd) as Hf. rewrite E in Hf. discriminate. }
  rewrite Ht, Hn, (from_first_digit_app _ _ _ Hp Hd). cbn [negb orb].
  unfold PyStr.strip. cbn [PyStr.lstrip]. rewrite (digit_not_space _ Hd).
  apply rstrip_keeps_head, digit_not_space, Hd.
Qed.

(** X6.  [extract_property_address]: an empty string gives ["N/A"]; a text
    without any digit comes back unchanged; otherwise the result starts at
    the first digit of the text, with the trailing whitespace removed, so
    nothing of what stands before the house number is kept.  Applying the
    function twice changes nothing more. *)
Theorem address_starts_at_house_number :
  forall s,
    (s = "" -> extract_property_address s = "N/A")
    /\ (s <> "" -> string_forall not_digit s = true -> extract_property_address s = s)
    /\ (forall pre d rest,
           s = (pre ++ String d rest)%string ->
           string_forall not_digit pre = true -> is_digit d = true ->
           extract_property_address s = String d (PyStr.rstrip rest))
    /\ extract_property_address (extract_property_address s) = extract_property_address s.
Proof.
  intros s.
  assert (H2 : s <> "" -> string_forall not_digit s = true -> extract_property_address s = s).
  { intros Hne Hnd. unfold extract_property_address.
    destruct s as [|c r]; [congruence |]. cbn [PyStr.truthy negb orb].
    destruct (String.eqb (String c r) "N/A") eqn:He; [now apply String.eqb_eq in He |].
    destruct (from_first_digit_spec (String c r)) as [[-> _] | (pre & d & rest & E & Hp & Hd & _)];
      [reflexivity |].
    rewrite E, string_forall_app in Hnd. cbn [string_forall] in Hnd.
    unfold not_digit at 2 in Hnd. rewrite Hd in Hnd. cbn in Hnd.
    rewrite andb_false_r in Hnd. discriminate. }
  split; [intros ->; reflexivity |]. split; [exact H2 |]. split.
  { intros pre d rest -> Hp Hd. now apply extract_from_digit. }
  destruct s as [|c r]; [reflexivity |].
  destruct (from_first_digit_spec (String c r)) as [[_ Hnd] | (pre & d & rest & E & Hp & Hd & _)].
  - rewrite (H2 ltac:(discriminate) Hnd). apply H2; [discriminate | exact Hnd].
  - rewrite E, (extract_from_digit _ _ _ Hp Hd).
    pose proof (extract_from_digit "" d (PyStr.rstrip rest) eq_refl Hd) as Hagain.
    cbn [append] in Hagain. rewrite Hagain. now rewrite rstrip_idempotent.
Qed.

Lemma address_starts_at_house_number_witness :
  extract_property_address "CANTU MARK 1909 LEROY RD DALLAS, TX 75217-0000  "
  = "1909 LEROY RD DALLAS, TX 75217-0000".
Proof.
  exact (proj1 (proj2 (proj2 (address_starts_at_house_number
           "CANTU MARK 1909 LEROY RD DALLAS, TX 75217-0000  ")))
           "CANTU MARK " "1"%char "909 LEROY RD DALLAS, TX 75217-0000  "
           eq_refl eq_refl eq_refl).
Defined.

Lemma split_on_aux_length : forall sep s cur, 1 <= List.length (PyStr.split_on_aux sep cur s).
Proof.
  induction s as [|c s IH]; intros cur; cbn [PyStr.split_on_aux]; [cbn; lia |].
  destruct (Ascii.eqb c sep); [cbn [List.length]; lia | apply IH].
Qed.

Lemma split_on_single : forall sep s cur,
  List.length (PyStr.split_on_aux sep cur s) = 1 ->
  PyStr.split_on_aux sep cur s = [(cur ++ s)%string].
Proof.
  induction s as [|c s IH]; intros cur H; cbn [PyStr.split_on_aux] in *.
  - now rewrite append_empty.
  - destruct (Ascii.eqb c sep).
    + cbn [List.length] in H. pose proof (split_on_aux_length sep s ""). lia.
    + rewrite IH by exact H. now rewrite append_assoc.
Qed.

Lemma nth_map_strip : forall l k,
  nth k (map PyStr.strip l) "" = PyStr.strip (nth k l "").
Proof. intros l k. exact (map_nth PyStr.strip l "" k). Qed.

Lemma word_in_range : forall words k,
  Forall (fun w => w <> "" /\ string_forall not_space w = true) words ->
  k < List.length words -> nth k words "" <> "".
Proof.
  intros words k H Hk. exact (proj1 (proj1 (Forall_forall _ _) H _ (nth_In words "" Hk))).
Qed.

(** X7.  [parse_address]: an empty or ["N/A"] address gives four empty
    fields.  Otherwise the street is always the trimmed text before the
    first comma, state and zip never hold whitespace, a zip is never given
    without a state, and an address without a comma is returned whole as
    the street with the other three fields empty. *)
Theorem parse_address_fields :
  forall a,
    (a = "" \/ a = "N/A" -> parse_address a = ("", "", "", ""))
    /\ (a <> "" -> a <> "N/A" ->
        let '(street, city, state, zip_code) := parse_address a in
        street = PyStr.strip (nth 0 (PyStr.split_on "," (PyStr.strip a)) "")
        /\ string_forall not_space state = true
        /\ string_forall not_space zip_code = true
        /\ (zip_code <> "" -> state <> ""))
    /\ (a <> "" -> a <> "N/A" -> string_forall not_comma a = true ->
        parse_address a = (PyStr.strip a, "", "", "")).
Proof.
  intros a.
  assert (Hgo : a <> "" -> a <> "N/A" ->
                negb (PyStr.truthy a) || String.eqb a "N/A" = false).
  { intros H1 H2. destruct a; [congruence |]. cbn [PyStr.truthy negb orb].
    now apply String.eqb_neq. }
  split; [intros [-> | ->]; reflexivity |]. split.
  - intros H1 H2. unfold parse_address. rewrite (Hgo H1 H2).
    set (address := PyStr.strip a).
    set (raw := PyStr.split_on "," address).
    rewrite !length_map.
    destruct (3 <=? List.length raw) eqn:H3.
    { pose proof (split_ws_words (nth 2 (map PyStr.strip raw) "")) as Hw.
      set (state_zip := PyStr.split_ws (nth 2 (map PyStr.strip raw) "")) in *.
      split; [apply nth_map_strip |].
      split; [destruct (0 <? List.length state_zip); [now apply nth_word | reflexivity] |].
      split; [destruct (1 <? List.length state_zip); [now apply nth_word | reflexivity] |].
      destruct (1 <? List.length state_zip) eqn:Hl; [| congruence].
      apply Nat.ltb_lt in Hl. intros _.
      replace (0 <? List.length state_zip) with true by (symmetry; apply Nat.ltb_lt; lia).
      apply word_in_range; [exact Hw | lia]. }
    destruct (List.length raw =? 2) eqn:H2'.
    { pose proof (split_ws_words (nth 1 (map PyStr.strip raw) "")) as Hw.
      set (rest := PyStr.split_ws (nth 1 (map PyStr.strip raw) "")) in *.
      destruct (3 <=? List.length rest) eqn:Hr3.
      { apply Nat.leb_le in Hr3.
        split; [apply nth_map_strip |]. split; [now apply nth_word |].
        split; [now apply nth_word |]. intros _. apply word_in_range; [exact Hw | lia]. }
      destruct (List.length rest =? 2) eqn:Hr2.
      { apply Nat.eqb_eq in Hr2.
        split; [apply nth_map_strip |]. split; [now apply nth_word |].
        split; [now apply nth_word |]. intros _. apply word_in_range; [exact Hw | lia]. }
      split; [apply nth_map_strip |]. repeat split; congruence. }
    assert (Hl : List.length raw = 1).
    { apply Nat.leb_gt in H3. apply Nat.eqb_neq in H2'.
      pose proof (split_on_aux_length "," address "") as Hge. fold (PyStr.split_on "," address) in Hge.
      fold raw in Hge. lia. }
    subst raw. unfold PyStr.split_on in *. rewrite (split_on_single _ _ _ Hl).
    cbn [nth append]. subst address. rewrite strip_idempotent.
    repeat split; congruence.
  - intros H1 H2 Hc. unfold parse_address. rewrite (Hgo H1 H2).
    unfold PyStr.split_on.
    rewrite (split_on_no_separator "," (PyStr.strip a) "")
      by (apply (strip_forall not_comma); exact Hc).
    reflexivity.
Qed.

Lemma parse_address_fields_witness :
  parse_address "  PO BOX 12 " = ("PO BOX 12", "", "", "").
Proof.
  exact (proj2 (proj2 (parse_address_fields "  PO BOX 12 "))
           ltac:(discriminate) ltac:(discriminate) eq_refl).
Defined.

Lemma search_identity_shape : forall pdd it idx ident off env,
  exists st n err dq ov,
    fst (search_identity pdd it idx ident off env)
    = new_log_entry pdd it idx ident st n err dq ov.
Proof.
  intros pdd it idx ident off env.
  unfold search_identity. rewrite search_body_submit.
  destruct (submit_search env) as [[]|e]; cbn [bind try_except fst];
    [| now eexists _, _, _, _, _].
  destruct (wait_for_results (env_page env)) as [[success row_count]|e];
    cbn [bind try_except fst]; [| now eexists _, _, _, _, _].
  destruct success; cbn [negb]; [| now eexists _, _, _, _, _].
  destruct (0 <? row_count); cbn [fst]; now eexists _, _, _, _, _.
Qed.

Lemma dict_get_missing : forall (V : Type) (d : list (string * V)) k (default : V),
  dict_lookup d k = None -> dict_get d k default = default.
Proof.
  induction d as [|[k' v] d IH]; intros k default H; cbn [dict_get dict_lookup] in *;
    [reflexivity |].
  destruct (String.eqb k' k); [discriminate | now apply IH].
Qed.

(** X8.  Every entry a worker builds for an identity can be turned into a
    CSV row: its property part always has the key [address], so the
    writer's lookup cannot fail.  The row carries the first, last and middle
    name of the identity searched, and when the owner string has no parsed
    property data the four address columns are empty. *)
Theorem csv_row_of_worker_entry :
  forall pdd it idx ident off env,
    exists row,
      csv_row (fst (search_identity pdd it idx ident off env)) = Some row
      /\ csv_first_name row = first_name ident
      /\ csv_last_name row = last_name ident
      /\ csv_middle_name row = middle_name ident
      /\ (dict_lookup pdd (raw_owner it) = None ->
          csv_address row = "" /\ csv_city row = "" /\ csv_state row = "" /\ csv_zip row = "").
Proof.
  intros pdd it idx ident off env.
  destruct (search_identity_shape pdd it idx ident off env) as (st & n & err & dq & ov & ->).
  unfold csv_row, new_log_entry.
  cbn [entry_property entry_identity property_keys map dict_lookup].
  replace (String.eqb "account_number" "address") with false by reflexivity.
  replace (String.eqb "address" "address") with true by reflexivity.
  set (address := dict_get (dict_get pdd (raw_owner it) []) "address" "N/A").
  destruct (parse_address (extract_property_address address))
    as [[[street city] state] zip_code] eqn:Hp.
  eexists. split; [reflexivity |]. cbn. repeat split; try reflexivity;
    subst address; rewrite (dict_get_missing _ pdd _ [] H) in Hp;
    cbn in Hp; congruence.
Qed.

Lemma csv_row_of_worker_entry_witness :
  exists row,
    csv_row (fst (search_identity [] smith_item 0 john false no_records_env)) = Some row
    /\ csv_address row = "".
Proof.
  destruct (csv_row_of_worker_entry [] smith_item 0 john false no_records_env)
    as (row & H & _ & _ & _ & Hn).
  exists row. split; [exact H | exact (proj1 (Hn eq_refl))].
Defined.

(* ===================================================================== *)
(** * The result poll: the first ready check decides *)
(* ===================================================================== *)

Lemma checkResults_first_ready : forall dom k budget attempts,
  attempts < k <= maxAttempts -> k - attempts <= budget ->
  (forall j, attempts < j < k -> unready (dom j) = true) ->
  unready (dom k) = false ->
  checkResults budget attempts dom
  = Some (mkPollResult true (party_cards (dom k)), repeat 1000 (k - attempts - 1)).
Proof.
  intros dom k. induction budget as [|b IH]; intros attempts Hk Hb Hun Hready; [lia |].
  cbn [checkResults].
  destruct (Nat.eq_dec (S attempts) k) as [<- | Hne].
  - unfold unready in Hready. apply orb_false_iff in Hready as [Hbody Hrest].
    rewrite Hbody. replace (S attempts - attempts - 1) with 0 by lia. cbn [repeat].
    apply andb_false_iff in Hrest as [Hc | Hm].
    + apply Nat.eqb_neq in Hc.
      replace (0 <? party_cards (dom (S attempts))) with true
        by (symmetry; apply Nat.ltb_lt; lia).
      reflexivity.
    + apply negb_false_iff in Hm. rewrite Hm.
      destruct (0 <? party_cards (dom (S attempts))) eqn:Hc; [reflexivity |].
      apply Nat.ltb_ge in Hc. replace (party_cards (dom (S attempts))) with 0 by lia.
      reflexivity.
  - assert (Hlt : (S attempts <? maxAttempts) = true) by (apply Nat.ltb_lt; lia).
    rewrite Hlt, (IH (S attempts)) by (try lia; try assumption; intros j Hj; apply Hun; lia).
    cbn [option_map].
    replace (k - attempts - 1) with (S (k - S attempts - 1)) by lia. cbn [repeat].
    specialize (Hun (S attempts) ltac:(lia)). unfold unready in Hun.
    destruct (has_body (dom (S attempts))); cbn [negb orb] in *; [| reflexivity].
    apply andb_true_iff in Hun as [Hc Hm]. apply Nat.eqb_eq in Hc. rewrite Hc.
    cbn [Nat.ltb Nat.leb]. apply negb_true_iff in Hm. rewrite Hm. reflexivity.
Qed.

(** X9.  [wait_for_results]: when the [k]-th check (1 <= k <= 20) is the
    first that sees party cards or a no-results text, the poll answers
    success with the number of party cards seen at that check, after
    [k - 1] timers of 1000 ms; what the page shows later is never looked
    at.  For the identity being searched this means: no card gives a
    NOT_FOUND entry with count 0, otherwise the count of the entry is that
    number of cards and its status is DISQUALIFIED or FOUND_CLEAN as
    [process_search_results] says. *)
Theorem first_ready_check_decides :
  forall dom k,
    1 <= k <= maxAttempts ->
    (forall j, 1 <= j < k -> unready (dom j) = true) ->
    unready (dom k) = false ->
    checkResults maxAttempts 0 dom
    = Some (mkPollResult true (party_cards (dom k)), repeat 1000 (k - 1))
    /\ wait_for_results (Ok dom) = Ok (true, party_cards (dom k))
    /\ forall pdd it idx ident off env,
         submit_search env = Ok tt -> env_page env = Ok dom ->
         let e := fst (search_identity pdd it idx ident off env) in
         entry_count e = party_cards (dom k)
         /\ entry_error e = None
         /\ (party_cards (dom k) = 0 -> entry_status e = NOT_FOUND)
         /\ (0 < party_cards (dom k) ->
             entry_status e
             = if process_search_results (env_cards env) (first_name ident)
                    (middle_name ident) (last_name ident)
               then DISQUALIFIED else FOUND_CLEAN).
Proof.
  intros dom k Hk Hun Hready.
  assert (Hpoll : checkResults maxAttempts 0 dom
                  = Some (mkPollResult true (party_cards (dom k)), repeat 1000 (k - 1))).
  { rewrite (checkResults_first_ready dom k maxAttempts 0); try assumption; try lia.
    now rewrite Nat.sub_0_r. }
  assert (Hwait : wait_for_results (Ok dom) = Ok (true, party_cards (dom k))).
  { unfold wait_for_results. cbn [bind]. rewrite Hpoll. reflexivity. }
  split; [exact Hpoll |]. split; [exact Hwait |].
  intros pdd it idx ident off env Hsub Hpage. cbn zeta.
  unfold search_identity. rewrite search_body_submit, Hsub. cbn [bind].
  rewrite Hpage, Hwait. cbn [bind negb].
  destruct (0 <? party_cards (dom k)) eqn:Hc.
  - apply Nat.ltb_lt in Hc. cbn [try_except fst]. unfold new_log_entry.
    cbn [entry_count entry_error entry_status].
    split; [reflexivity |]. split; [reflexivity |]. split; [lia | reflexivity].
  - apply Nat.ltb_ge in Hc. cbn [try_except fst]. unfold new_log_entry.
    cbn [entry_count entry_error entry_status].
    split; [lia |]. split; [reflexivity |]. split; [reflexivity | lia].
Qed.

Lemma first_ready_check_decides_witness :
  wait_for_results (Ok (fun n => mkSnapshot (2 <? n) (if n =? 4 then 3 else 0) ""))
  = Ok (true, 3).
Proof.
  exact (proj1 (proj2 (first_ready_check_decides
           (fun n => mkSnapshot (2 <? n) (if n =? 4 then 3 else 0) "") 4
           ltac:(unfold maxAttempts; lia)
           ltac:(intros j Hj; assert (j = 1 \/ j = 2 \/ j = 3) as [-> | [-> | ->]] by lia;
                 reflexivity)
           eq_refl))).
Defined.

(** X10.  The fields of an entry a worker puts agree with each other: it
    names the task's owner string, the identity searched and the row label
    of that identity; it carries an error text exactly when its status is
    ERROR; its count is positive exactly when its status is FOUND_CLEAN or
    DISQUALIFIED; and once an earlier identity of the task has failed the
    filter the entry is marked as failed for the whole property. *)
Theorem entry_fields_agree :
  forall pdd it idx ident off env,
    let e := fst (search_identity pdd it idx ident off env) in
    entry_raw_owner e = raw_owner it
    /\ entry_identity e = ident
    /\ entry_row e = owner_label it idx
    /\ (entry_error e <> None <-> entry_status e = ERROR)
    /\ (0 < entry_count e <->
        entry_status e = FOUND_CLEAN \/ entry_status e = DISQUALIFIED)
    /\ (off = true -> overall_property_failed e = true).
Proof.
  intros pdd it idx ident off env. cbn zeta.
  unfold search_identity. rewrite search_body_submit.
  assert (Hflat : forall st n err dq ov,
    (err <> None <-> st = ERROR) ->
    (0 < n <-> st = FOUND_CLEAN \/ st = DISQUALIFIED) ->
    (off = true -> ov = true) ->
    let e := new_log_entry pdd it idx ident st n err dq ov in
    entry_raw_owner e = raw_owner it
    /\ entry_identity e = ident
    /\ entry_row e = owner_label it idx
    /\ (entry_error e <> None <-> entry_status e = ERROR)
    /\ (0 < entry_count e <->
        entry_status e = FOUND_CLEAN \/ entry_status e = DISQUALIFIED)
    /\ (off = true -> overall_property_failed e = true)).
  { intros st n err dq ov H1 H2 H3. cbn zeta. unfold new_log_entry. cbn.
    repeat split; try apply H1; try apply H2; try assumption. }
  assert (Herr : forall e0 : string, Some e0 <> None <-> ERROR = ERROR).
  { intros e0. split; [reflexivity | discriminate]. }
  assert (Hzero : 0 < 0 <-> ERROR = FOUND_CLEAN \/ ERROR = DISQUALIFIED).
  { split; [lia | intros [H | H]; discriminate]. }
  destruct (submit_search env) as [[]|e0]; cbn [bind try_except fst];
    [| apply Hflat; [apply Herr | exact Hzero | auto]].
  destruct (wait_for_results (env_page env)) as [[success row_count]|e0];
    cbn [bind try_except fst]; [| apply Hflat; [apply Herr | exact Hzero | auto]].
  destruct success; cbn [negb].
  - destruct (0 <? row_count) eqn:Hc; cbn [fst].
    + apply Nat.ltb_lt in Hc. apply Hflat.
      * split; [congruence |].
        destruct (process_search_results _ _ _ _); discriminate.
      * split; [| intros _; exact Hc].
        intros _. destruct (process_search_results _ _ _ _); auto.
      * intros ->. destruct (process_search_results _ _ _ _); reflexivity.
    + apply Hflat; [| | auto].
      * split; [congruence | discriminate].
      * split; [lia | intros [H | H]; discriminate].
  - cbn [fst]. apply Hflat; [| | auto].
    + split; [congruence | discriminate].
    + split; [lia | intros [H | H]; discriminate].
Qed.

Lemma entry_fields_agree_witness :
  overall_property_failed
    (fst (search_identity [] smith_item 0 john true no_records_env)) = true.
Proof.
  exact (proj2 (proj2 (proj2 (proj2 (proj2
           (entry_fields_agree [] smith_item 0 john true no_records_env))))) eq_refl).
Defined.

(* ===================================================================== *)
(** * The two CAPTCHA routines on the same vendor *)
(* ===================================================================== *)

Lemma token_of_response : forall d token,
  Captcha.gRecaptchaResponse d = Some token -> Captcha.token_of d = Ok token.
Proof.
  intros d token H. unfold Captcha.gRecaptchaResponse, Captcha.token_of in *.
  destruct (Captcha.solution d) as [[tok|]|]; congruence.
Qed.

Lemma poll_first_ready : forall v k token d n a,
  a <= k < a + n ->
  (forall j, a <= j < k ->
             exists dj, Captcha.getTaskResult v j = Ok dj /\ Captcha.is_ready dj = false) ->
  Captcha.getTaskResult v k = Ok d -> Captcha.is_ready d = true ->
  Captcha.gRecaptchaResponse d = Some token ->
  Captcha.poll v n a = (Ok (Some token), Captcha.poll_interval * (k - a + 1)).
Proof.
  intros v k token d. induction n as [|n IH]; intros a Hk Hun Hg Hr Ht; [lia |].
  cbn [Captcha.poll]. destruct (Nat.eq_dec a k) as [-> | Hne].
  - rewrite Hg, Hr, (token_of_response _ _ Ht). f_equal. unfold Captcha.poll_interval. lia.
  - destruct (Hun a ltac:(lia)) as (da & -> & ->).
    rewrite (IH (S a)) by (try lia; try assumption; intros j Hj; apply Hun; lia).
    f_equal. unfold Captcha.poll_interval. lia.
Qed.

(** X11.  The driver's [solve_captcha] and [CaptchaSolver.solve] with its
    default timeout of 180 s behave alike on the same vendor answers: they
    sleep the same time, one returns a token exactly when the other returns
    that token, and one raises exactly when the other answers [None].  When
    the task is created and the [k]-th poll (k < 60) is the first that is
    ready and carries a token, both return it after [3 * (k + 1)] seconds. *)
Theorem captcha_routines_agree :
  (forall v, snd (Captcha.solve_captcha v) = snd (Captcha.solve v 180))
  /\ (forall v token,
         fst (Captcha.solve_captcha v) = Ok token
         <-> fst (Captcha.solve v 180) = Ok (Some token))
  /\ (forall v,
         (exists e, fst (Captcha.solve_captcha v) = Raise e)
         <-> fst (Captcha.solve v 180) = Ok None)
  /\ (forall v result id k d token,
         Captcha.createTask v = Ok result -> Captcha.is_error result = false ->
         Captcha.taskId result = Some id ->
         k < 60 ->
         (forall j, j < k ->
                    exists dj, Captcha.getTaskResult v j = Ok dj
                               /\ Captcha.is_ready dj = false) ->
         Captcha.getTaskResult v k = Ok d -> Captcha.is_ready d = true ->
         Captcha.gRecaptchaResponse d = Some token ->
         Captcha.solve_captcha v = (Ok token, 3 * (k + 1))
         /\ Captcha.solve v 180 = (Ok (Some token), 3 * (k + 1))).
Proof.
  assert (H60 : Z.to_nat (180 / 3) = 60) by reflexivity.
  split; [| split; [| split]].
  - intros v. unfold Captcha.solve_captcha, Captcha.solve, Captcha.solve_body.
    rewrite H60.
    destruct (Captcha.createTask v) as [result|e]; [| reflexivity].
    destruct (Captcha.is_error result); [reflexivity |].
    destruct (Captcha.taskId result); [| reflexivity].
    destruct (Captcha.poll v 60 0) as [[[tok|]|e] t]; reflexivity.
  - intros v token. unfold Captcha.solve_captcha, Captcha.solve, Captcha.solve_body.
    rewrite H60.
    destruct (Captcha.createTask v) as [result|e]; [| cbn; split; discriminate].
    destruct (Captcha.is_error result); [cbn; split; discriminate |].
    destruct (Captcha.taskId result); [| cbn; split; discriminate].
    destruct (Captcha.poll v 60 0) as [[[tok|]|e] t]; cbn;
      split; intros H; try discriminate; congruence.
  - intros v. unfold Captcha.solve_captcha, Captcha.solve, Captcha.solve_body.
    rewrite H60.
    destruct (Captcha.createTask v) as [result|e];
      [| cbn; split; [reflexivity | intros _; eexists; reflexivity]].
    destruct (Captcha.is_error result);
      [cbn; split; [reflexivity | intros _; eexists; reflexivity] |].
    destruct (Captcha.taskId result);
      [| cbn; split; [reflexivity | intros _; eexists; reflexivity]].
    destruct (Captcha.poll v 60 0) as [[[tok|]|e] t]; cbn.
    + split; [intros (e & H); discriminate | discriminate].
    + split; [reflexivity | intros _; eexists; reflexivity].
    + split; [reflexivity | intros _; eexists; reflexivity].
  - intros v result id k d token Hc He Hid Hk Hun Hg Hr Ht.
    assert (Hp : Captcha.poll v 60 0 = (Ok (Some token), 3 * (k + 1))).
    { rewrite (poll_first_ready v k token d 60 0); try assumption; try lia.
      - unfold Captcha.poll_interval. f_equal. lia.
      - intros j Hj. apply Hun. lia. }
    unfold Captcha.solve_captcha, Captcha.solve, Captcha.solve_body.
    rewrite H60, Hc, He, Hid, Hp. split; reflexivity.
Qed.

Lemma captcha_routines_agree_witness :
  Captcha.solve_captcha vendor_ready_third = (Ok "token-1", 9).
Proof.
  exact (proj1 (proj2 (proj2 (proj2 captcha_routines_agree))
           vendor_ready_third
           (Captcha.mkCreateResp (Some 0%Z) None (Some "task-1")) "task-1" 2
           (Captcha.mkPollResp (Some "ready") (Some (Some "token-1"))) "token-1"
           eq_refl eq_refl eq_refl ltac:(lia)
           ltac:(intros j Hj; assert (j = 0 \/ j = 1) as [-> | ->] by lia;
                 eexists; split; reflexivity)
           eq_refl eq_refl eq_refl)).
Defined.

(* ===================================================================== *)
(** * The reusable solver: detect, solve, inject *)
(* ===================================================================== *)

Lemma solve_never_raises : forall v timeout e, fst (Captcha.solve v timeout) <> Raise e.
Proof.
  intros v timeout e. unfold Captcha.solve.
  destruct (Captcha.solve_body v timeout) as [r t]. discriminate.
Qed.

Lemma solve_time : forall v timeout,
  snd (Captcha.solve v timeout) <= 3 * Z.to_nat (timeout / 3).
Proof.
  intros v timeout. unfold Captcha.solve.
  destruct (Captcha.solve_body v timeout) as [r t] eqn:Hb. cbn [snd].
  change t with (snd (r, t)). rewrite <- Hb. unfold Captcha.solve_body.
  destruct (Captcha.createTask v) as [result|e]; [| cbn; lia].
  destruct (Captcha.is_error result); [cbn; lia |].
  destruct (Captcha.taskId result); [| cbn; lia].
  apply (poll_time v (Z.to_nat (timeout / 3)) 0).
Qed.

Lemma detect_names : forall re2 rex reh c p ty,
  fst (Solver.detect_captcha_type re2 rex reh c p) = Some ty ->
  ty = "ReCaptchaV2TaskProxyLess" \/ ty = "ReCaptchaV3TaskProxyLess"
  \/ ty = "HCaptchaTaskProxyLess".
Proof.
  intros re2 rex reh c p ty. unfold Solver.detect_captcha_type.
  destruct (Solver.locator_probe p Solver.g_recaptcha_count Solver.g_recaptcha_sitekey);
    [cbn; intros [= <-]; auto |].
  destruct (re2 c); [cbn; intros [= <-]; auto |].
  destruct (if PyStr.contains "grecaptcha.execute" c then rex c else None);
    [cbn; intros [= <-]; auto |].
  destruct (Solver.locator_probe p Solver.h_captcha_count Solver.h_captcha_sitekey);
    [cbn; intros [= <-]; auto |].
  destruct (reh c); [cbn; intros [= <-]; auto | discriminate].
Qed.

(** X12.  [solve_and_inject] (and with it [solve_captcha_quick]) hands at
    most one script to the page, and that script always fills the
    [g-recaptcha-response] field with a non-empty token the vendor
    delivered: also when the CAPTCHA detected is an hCaptcha, whose own
    response field is never filled.  It answers [False] only after a CAPTCHA
    was detected and no token came, answers [True] at once when none is
    detected, raises only what [page.content()] or [page.evaluate] raised,
    and sleeps at most [3 * (timeout // 3)] seconds.  None of the type names
    [detect_captcha_type] returns is a name [inject_token] acts on. *)
Theorem solver_fills_recaptcha_field :
  forall re2 rex reh v page timeout r scripts t,
    Solver.solve_and_inject re2 rex reh v page timeout = (r, scripts, t) ->
    (scripts = []
     \/ exists token,
          scripts = [Solver.fill_g_recaptcha_response token] /\ token <> ""
          /\ fst (Captcha.solve v timeout) = Ok (Some token))
    /\ (r = Ok false ->
        scripts = []
        /\ (exists c ty,
               Solver.content page = Ok c
               /\ fst (Solver.detect_captcha_type re2 rex reh c (Some page)) = Some ty)
        /\ (fst (Captcha.solve v timeout) = Ok None
            \/ fst (Captcha.solve v timeout) = Ok (Some "")))
    /\ (forall c,
           Solver.content page = Ok c ->
           fst (Solver.detect_captcha_type re2 rex reh c (Some page)) = None ->
           r = Ok true /\ scripts = [] /\ t = 0)
    /\ (forall c key token,
           Solver.content page = Ok c ->
           Solver.detect_captcha_type re2 rex reh c (Some page)
           = (Some "HCaptchaTaskProxyLess", key) ->
           fst (Captcha.solve v timeout) = Ok (Some token) -> token <> "" ->
           scripts = [Solver.fill_g_recaptcha_response token]
           /\ r = (_ <- Solver.evaluate page (Solver.fill_g_recaptcha_response token) ;;
                   Ok true))
    /\ (forall e,
           r = Raise e ->
           Solver.content page = Raise e
           \/ exists token,
                Solver.evaluate page (Solver.fill_g_recaptcha_response token) = Raise e)
    /\ t <= 3 * Z.to_nat (timeout / 3)
    /\ (forall c p ty executor token,
           fst (Solver.detect_captcha_type re2 rex reh c p) = Some ty ->
           Solver.inject_token executor token ty = (Ok tt, []))
    /\ Solver.solve_captcha_quick re2 rex reh v page
       = Solver.solve_and_inject re2 rex reh v page 180.
Proof.
  intros re2 rex reh v page timeout r scripts t H.
  assert (Hnames : forall c p ty executor token,
             fst (Solver.detect_captcha_type re2 rex reh c p) = Some ty ->
             Solver.inject_token executor token ty = (Ok tt, [])).
  { intros c p ty executor token Hty.
    destruct (detect_names _ _ _ _ _ _ Hty) as [-> | [-> | ->]]; reflexivity. }
  pose proof (solve_time v timeout) as Htime.
  pose proof (solve_never_raises v timeout) as Hnr.
  unfold Solver.solve_and_inject in H.
  destruct (Solver.content page) as [c|e0] eqn:Hc.
  2:{ injection H as <- <- <-.
      split; [now left |]. split; [discriminate |]. split; [discriminate |].
      split; [discriminate |]. split; [intros e [= ->]; now left |].
      split; [lia |]. split; [exact Hnames | reflexivity]. }
  destruct (Solver.detect_captcha_type re2 rex reh c (Some page)) as [ct sk] eqn:Hd.
  destruct ct as [ty|]; cbn [captcha_truthy negb] in H.
  2:{ injection H as <- <- <-.
      split; [now left |]. split; [discriminate |].
      split; [intros c' [= <-] _; auto |].
      split; [intros c' key token [= <-]; rewrite Hd; discriminate |].
      split; [discriminate |]. split; [lia |]. split; [exact Hnames | reflexivity]. }
  destruct (PyStr.truthy ty) eqn:Hty; cbn [negb] in H.
  2:{ injection H as <- <- <-.
      split; [now left |]. split; [discriminate |].
      split; [intros c' [= <-]; rewrite Hd; discriminate |].
      split; [intros c' key token [= <-]; rewrite Hd; intros [= -> _]; discriminate |].
      split; [discriminate |]. split; [lia |]. split; [exact Hnames | reflexivity]. }
  destruct (Captcha.solve v timeout) as [tok ts] eqn:Hs. cbn [fst snd] in *.
  destruct tok as [[token|]|e1]; [| | now destruct (Hnr e1)].
  - destruct (PyStr.truthy token) eqn:Htok; cbn [negb] in H.
    + change (Solver.inject_token (Solver.evaluate page) token "recaptcha")
        with (Solver.evaluate page (Solver.fill_g_recaptcha_response token),
              [Solver.fill_g_recaptcha_response token]) in H.
      injection H as <- <- <-.
      assert (Hne : token <> "") by (intros ->; discriminate).
      split; [right; exists token; auto |].
      split; [destruct (Solver.evaluate page _) as [[]|]; discriminate |].
      split; [intros c' [= <-]; rewrite Hd; discriminate |].
      split; [intros c' key token' _ _ [= <-] _; auto |].
      split; [| split; [exact Htime | split; [exact Hnames | reflexivity]]].
      intros e He. right. exists token.
      destruct (Solver.evaluate page _) as [[]|e2]; [discriminate |].
      cbn [bind] in He. injection He as ->. reflexivity.
    + injection H as <- <- <-.
      assert (token = "") as -> by (destruct token; [reflexivity | discriminate]).
      split; [now left |].
      split; [intros _; split; [reflexivity | split; [exists c, ty; rewrite Hd; auto | auto]] |].
      split; [intros c' [= <-]; rewrite Hd; discriminate |].
      split; [intros c' key token' _ _ [= <-] Hne; now destruct Hne |].
      split; [discriminate |]. split; [exact Htime | split; [exact Hnames | reflexivity]].
  - injection H as <- <- <-.
    split; [now left |].
    split; [intros _; split; [reflexivity | split; [exists c, ty; rewrite Hd; auto | auto]] |].
    split; [intros c' [= <-]; rewrite Hd; discriminate |].
    split; [intros c' key token' _ _ [=] |].
    split; [discriminate |]. split; [exact Htime | split; [exact Hnames | reflexivity]].
Qed.

Lemma solver_fills_recaptcha_field_witness :
  Solver.solve_and_inject (fun _ => None) (fun _ => None) (fun _ => None)
    vendor_ready_third hcaptcha_page 180
  = (Ok true, [Solver.fill_g_recaptcha_response "token-1"], 9).
Proof.
  destruct (Solver.solve_and_inject (fun _ => None) (fun _ => None) (fun _ => None)
              vendor_ready_third hcaptcha_page 180) as [[r scripts] t] eqn:H.
  destruct (solver_fills_recaptcha_field _ _ _ _ _ _ _ _ _ H) as (_ & _ & _ & H4 & _).
  destruct (H4 _ (Some "k") "token-1" eq_refl eq_refl eq_refl ltac:(discriminate))
    as [-> ->].
  vm_compute in H. injection H as <-. reflexivity.
Defined.

(* ===================================================================== *)
(** * The tax criteria: the three latest years decide *)
(* ===================================================================== *)

Section TaxCriteriaFacts.

Variable F : Type.
Variable zero : F.
Variable sum : list F -> F.
Variables div mul : F -> F -> F.
Variables gt ge : F -> F -> bool.
Variables MIN_ANNUAL_TAX_RATE MAX_TOTAL_TAX_RATIO : F.
Variable amounts_of : string -> list F.

Local Abbreviation year_set := (TaxCriteria.year_set F).
Local Abbreviation year_get := (TaxCriteria.year_get F).
Local Abbreviation read_rows := (TaxCriteria.read_rows F amounts_of).
Local Abbreviation streak := (TaxCriteria.streak F ge).
Local Abbreviation check :=
  (TaxCriteria.check_consecutive_unpaid_years
     F zero sum div mul gt ge MIN_ANNUAL_TAX_RATE MAX_TOTAL_TAX_RATIO amounts_of).

Lemma year_set_keys : forall d k v y,
  In y (map fst (year_set d k v)) <-> In y (map fst d) \/ y = k.
Proof.
  induction d as [|[y0 v0] d IH]; intros k v y; cbn [TaxCriteria.year_set map fst In].
  - split; [intros [<- | []]; auto | intros [[] | ->]; auto].
  - destruct (Z.eqb_spec y0 k) as [-> | Hne]; cbn [map fst In].
    + split; [tauto | intros [H | ->]; [exact H | now left]].
    + rewrite IH. tauto.
Qed.

Lemma year_set_nodup : forall d k v,
  NoDup (map fst d) -> NoDup (map fst (year_set d k v)).
Proof.
  induction d as [|[y0 v0] d IH]; intros k v H; cbn [TaxCriteria.year_set map fst].
  - constructor; [intros [] | constructor].
  - inversion H as [|? ? Hnin Hnd]; subst.
    destruct (Z.eqb_spec y0 k) as [-> | Hne]; cbn [map fst].
    + constructor; assumption.
    + constructor; [| now apply IH].
      rewrite year_set_keys. intros [Hin | ->]; [now apply Hnin | now apply Hne].
Qed.

Lemma read_rows_nodup : forall rows d d',
  NoDup (map fst d) -> read_rows rows d = Ok d' -> NoDup (map fst d').
Proof.
  induction rows as [|row rows IH]; intros d d' Hd H; cbn [TaxCriteria.read_rows] in H.
  - now injection H as <-.
  - destruct row as [row_text|e]; [cbn [bind] in H | discriminate].
    destruct (TaxCriteria.year_of row_text) as [year|]; [| now apply (IH d)].
    destruct (rev (amounts_of row_text)) as [|total_due ?]; [now apply (IH d) |].
    apply (IH _ _ (year_set_nodup d year total_due Hd) H).
Qed.

Lemma streak_three : forall year_data expected,
  (List.length (streak TaxCriteria.years_checked year_data expected)
   <? TaxCriteria.MIN_CONSECUTIVE_YEARS) = false
  <-> forall y, In y [2024; 2023; 2022]%Z ->
                exists a, year_get year_data y = Some a /\ ge a expected = true.
Proof.
  intros year_data expected.
  change TaxCriteria.years_checked
    with [2024; 2023; 2022; 2021; 2020; 2019; 2018; 2017; 2016]%Z.
  unfold TaxCriteria.MIN_CONSECUTIVE_YEARS.
  assert (Hfail : forall y, In y [2024; 2023; 2022]%Z ->
            (year_get year_data y = None
             \/ exists a, year_get year_data y = Some a /\ ge a expected = false) ->
            ~ (forall y, In y [2024; 2023; 2022]%Z ->
                         exists a, year_get year_data y = Some a /\ ge a expected = true)).
  { intros y Hy Hbad Hall. destruct (Hall y Hy) as (a & Ha & Hge).
    destruct Hbad as [Hn | (a' & Ha' & Hge')]; congruence. }
  cbn [TaxCriteria.streak].
  destruct (year_get year_data 2024) as [a1|] eqn:H1.
  2:{ split; [discriminate | intros Hall; exfalso].
      apply (Hfail 2024%Z); cbn; auto. }
  destruct (ge a1 expected) eqn:G1.
  2:{ split; [discriminate | intros Hall; exfalso].
      apply (Hfail 2024%Z); cbn; eauto. }
  destruct (year_get year_data 2023) as [a2|] eqn:H2.
  2:{ split; [discriminate | intros Hall; exfalso].
      apply (Hfail 2023%Z); cbn; auto. }
  destruct (ge a2 expected) eqn:G2.
  2:{ split; [discriminate | intros Hall; exfalso].
      apply (Hfail 2023%Z); cbn; eauto. }
  destruct (year_get year_data 2022) as [a3|] eqn:H3.
  2:{ split; [discriminate | intros Hall; exfalso].
      apply (Hfail 2022%Z); cbn; auto. }
  destruct (ge a3 expected) eqn:G3.
  2:{ split; [discriminate | intros Hall; exfalso].
      apply (Hfail 2022%Z); cbn; eauto 6. }
  split; [| reflexivity].
  intros _ y [<- | [<- | [<- | []]]]; eauto.
Qed.

(** X13.  [check_consecutive_unpaid_years] says yes exactly when the rows
    could be read, at least one row gave a year with an amount, the ratio of
    the total to the market value is not above [MAX_TOTAL_TAX_RATIO], and
    each of the years 2024, 2023 and 2022 is listed with an amount of at
    least [market_value * MIN_ANNUAL_TAX_RATE]; the years before 2022 play
    no part.  The year data it returns lists no year twice, and with a yes
    the total returned is the sum over that data. *)
Theorem three_latest_years_decide :
  forall page market_value,
    let r := check page market_value in
    (fst (fst r) = true <->
     exists rows year_data,
       page = Ok rows /\ read_rows rows [] = Ok year_data /\ year_data <> []
       /\ gt (if gt market_value zero
              then div (sum (map snd year_data)) market_value else zero)
             MAX_TOTAL_TAX_RATIO = false
       /\ forall y, In y [2024; 2023; 2022]%Z ->
                    exists a, year_get year_data y = Some a
                              /\ ge a (mul market_value MIN_ANNUAL_TAX_RATE) = true)
    /\ NoDup (map fst (snd (fst r)))
    /\ (fst (fst r) = true ->
        snd (fst r) <> [] /\ snd r = sum (map snd (snd (fst r)))).
Proof.
  intros page market_value. cbn zeta.
  unfold TaxCriteria.check_consecutive_unpaid_years, TaxCriteria.check_body.
  destruct page as [rows|e]; cbn [bind try_except].
  2:{ cbn. split; [split; [discriminate | intros (? & ? & [=] & _)] |].
      split; [constructor | discriminate]. }
  destruct (read_rows rows []) as [year_data|e] eqn:Hr; cbn [bind try_except].
  2:{ cbn. split; [split; [discriminate | intros (? & ? & [= <-] & H & _); congruence] |].
      split; [constructor | discriminate]. }
  pose proof (read_rows_nodup rows [] year_data (NoDup_nil _) Hr) as Hnd.
  destruct year_data as [|yv year_data'].
  { cbn. split; [split; [discriminate | intros (? & ? & [= <-] & H & Hne & _)] |].
    - rewrite Hr in H. injection H as <-. exfalso. now apply Hne.
    - split; [constructor | discriminate]. }
  set (year_data := yv :: year_data') in *.
  assert (Hne : year_data <> []) by discriminate.
  set (total := sum (map snd year_data)).
  set (ratio := if gt market_value zero then div total market_value else zero).
  destruct (gt ratio MAX_TOTAL_TAX_RATIO) eqn:Hratio.
  { cbn [fst snd]. split; [split; [discriminate |] | split; [exact Hnd | discriminate]].
    intros (rows' & yd & [= <-] & H & _ & Hg & _).
    rewrite Hr in H. injection H as <-. fold total ratio in Hg. congruence. }
  pose proof (streak_three year_data (mul market_value MIN_ANNUAL_TAX_RATE)) as Hs.
  destruct (List.length (streak TaxCriteria.years_checked year_data
                           (mul market_value MIN_ANNUAL_TAX_RATE))
            <? TaxCriteria.MIN_CONSECUTIVE_YEARS) eqn:Hlen; cbn [fst snd].
  - split; [split; [discriminate |] | split; [exact Hnd | discriminate]].
    intros (rows' & yd & [= <-] & H & _ & _ & Hall).
    rewrite Hr in H. injection H as <-.
    apply Hs in Hall. discriminate.
  - split; [split; [intros _ | reflexivity] | split; [exact Hnd | intros _; split; auto]].
    exists rows, year_data. repeat split; try assumption. now apply Hs.
Qed.

End TaxCriteriaFacts.

Lemma three_latest_years_decide_witness :
  fst (fst (sample_check (Ok unpaid_rows) 10000000)) = true.
Proof.
  apply (proj1 (three_latest_years_decide
                  Z 0%Z (fold_right Z.add 0%Z) (fun a b => (a * 100 / b)%Z)
                  (fun a b => (a * b / 1000)%Z) (fun a b => (b <? a)%Z)
                  (fun a b => (b <=? a)%Z) 15%Z 70%Z sample_amounts
                  (Ok unpaid_rows) 10000000%Z)).
  exists unpaid_rows, [(2024, 310000); (2023, 310000); (2022, 310000)]%Z.
  split; [reflexivity |]. split; [reflexivity |]. split; [discriminate |].
  split; [reflexivity |].
  intros y [<- | [<- | [<- | []]]]; exists 310000%Z; split; reflexivity.
Defined.

(* ===================================================================== *)
(** * Row numbers of the tasks *)
(* ===================================================================== *)

Lemma enumerate_nth : forall (A : Type) (l : list A) s k i x,
  nth_error (enumerate l s) k = Some (i, x) <->
  i = (s + Z.of_nat k)%Z /\ nth_error l k = Some x.
Proof.
  induction l as [|y l IH]; intros s k i x; cbn [enumerate].
  - destruct k; cbn; split; [discriminate | intros [_ H]; discriminate
                            | discriminate | intros [_ H]; discriminate].
  - destruct k as [|k]; cbn [nth_error].
    + split; [intros [= <- <-]; split; [lia | reflexivity] |].
      intros [-> [= <-]]. do 2 f_equal. lia.
    + rewrite IH. split; intros [-> H]; (split; [lia | exact H]).
Qed.

Lemma py_slice_nth : forall (A : Type) (l : list A) start stop k x,
  (0 <= start)%Z ->
  nth_error (py_slice l start stop) k = Some x ->
  nth_error l (Z.to_nat start + k) = Some x
  /\ ((0 <= stop)%Z -> (start + Z.of_nat k < stop)%Z).
Proof.
  intros A l start stop k x Hs H. unfold py_slice in H.
  replace (start <? 0)%Z with false in H by (symmetry; apply Z.ltb_ge; lia).
  rewrite nth_error_firstn in H.
  destruct (k <? _) eqn:Hk in H; [| discriminate].
  apply Nat.ltb_lt in Hk. rewrite nth_error_skipn in H.
  assert (Hlen : Z.to_nat (Z.min start (Z.of_nat (List.length l))) + k < List.length l).
  { apply nth_error_Some. rewrite H. discriminate. }
  assert (Hmin : Z.min start (Z.of_nat (List.length l)) = start) by lia.
  rewrite Hmin in *. split; [exact H |].
  intros Hstop. replace (stop <? 0)%Z with false in Hk by (symmetry; apply Z.ltb_ge; lia).
  lia.
Qed.

(** X14.  The tasks [main] of the probate driver puts on the work queue
    carry the row numbers of the file: the [k]-th task has row
    [max(1, START_FROM_ROW) + k], its owner string is the one at that
    (1-based) position of the list read from the file, its identities are
    [parse_owner_name] of that string, and with a non-negative [END_AT_ROW]
    its row does not exceed [END_AT_ROW]. *)
Theorem probate_rows_follow_file :
  forall all_owners START_FROM_ROW END_AT_ROW k it,
    nth_error
      (Probate.tasks
         (fst (Probate.owners_to_process all_owners START_FROM_ROW END_AT_ROW))
         (snd (Probate.owners_to_process all_owners START_FROM_ROW END_AT_ROW)))
      k = Some it ->
    original_row it = (Z.max 1 START_FROM_ROW + Z.of_nat k)%Z
    /\ nth_error all_owners (Z.to_nat (original_row it - 1)) = Some (raw_owner it)
    /\ parsed_owners it = parse_owner_name (raw_owner it)
    /\ (original_row it <= Z.of_nat (List.length all_owners))%Z
    /\ ((0 <= END_AT_ROW)%Z -> (original_row it <= END_AT_ROW)%Z).
Proof.
  intros all_owners S E k it H.
  unfold Probate.owners_to_process in H. cbn [fst snd] in H.
  unfold Probate.tasks in H. rewrite nth_error_map in H.
  destruct (nth_error _ k) as [[i raw]|] eqn:Hn in H; [| discriminate].
  injection H as <-. cbn [original_row raw_owner parsed_owners fst snd].
  apply enumerate_nth in Hn as [-> Hn].
  apply py_slice_nth in Hn as [Hn Hstop]; [| lia].
  assert (Hlt : Z.to_nat (Z.max 0 (S - 1)) + k < List.length all_owners).
  { apply nth_error_Some. rewrite Hn. discriminate. }
  split; [lia |]. split.
  { rewrite <- Hn. f_equal. lia. }
  split; [reflexivity |]. split; [lia |].
  intros HE.
  destruct (Z.min_spec (Z.of_nat (List.length all_owners)) E) as [[_ Hm] | [_ Hm]];
    rewrite Hm in Hstop; lia.
Qed.

Lemma probate_rows_follow_file_witness :
  original_row
    (mkWorkItem 2 "DOE JANE" (parse_owner_name "DOE JANE")) = 2%Z.
Proof.
  exact (proj1 (probate_rows_follow_file
                  ["SMITH JOHN"; "DOE JANE"; "ROE RICHARD"] 2 3 0
                  (mkWorkItem 2 "DOE JANE" (parse_owner_name "DOE JANE")) eq_refl)).
Defined.

Lemma enumerate_in : forall (A : Type) (l : list A) s i x,
  In (i, x) (enumerate l s) <->
  exists k, i = (s + Z.of_nat k)%Z /\ nth_error l k = Some x.
Proof.
  intros A l s i x. split.
  - intros Hin. apply In_nth_error in Hin as [k Hk]. exists k. now apply enumerate_nth.
  - intros (k & Hi & Hk). apply (nth_error_In _ k). now apply enumerate_nth.
Qed.

Lemma filter_sorted : forall (A : Type) (R : A -> A -> Prop) p l,
  StronglySorted R l -> StronglySorted R (filter p l).
Proof.
  intros A R p. induction l as [|x l IH]; intros H; cbn [filter]; [constructor |].
  inversion H as [|? ? Hs Hf]; subst.
  destruct (p x); [| now apply IH].
  constructor; [now apply IH |].
  apply Forall_forall. intros y Hy. apply filter_In in Hy as [Hy _].
  exact (proj1 (Forall_forall _ _) Hf y Hy).
Qed.

Lemma tax_lines_sorted : forall lines s,
  let owners :=
    flat_map (fun p : Z * string =>
                let parts := PyStr.split_ws (snd p) in
                if 2 <=? List.length parts
                then [Tax.mkOwner (fst p) (nth 0 parts "") (nth 1 parts "")]
                else [])
             (enumerate lines s) in
  Forall (fun o => (s <= Tax.owner_row o)%Z) owners
  /\ StronglySorted (fun a b => (Tax.owner_row a < Tax.owner_row b)%Z) owners.
Proof.
  induction lines as [|line lines IH]; intros s; cbn zeta; cbn [enumerate flat_map].
  - split; constructor.
  - destruct (IH (s + 1)%Z) as [Hge Hs]. cbn zeta in Hge, Hs. cbn [fst snd].
    assert (Hge' : Forall (fun o => (s <= Tax.owner_row o)%Z)
                     (flat_map (fun p : Z * string =>
                        let parts := PyStr.split_ws (snd p) in
                        if 2 <=? List.length parts
                        then [Tax.mkOwner (fst p) (nth 0 parts "") (nth 1 parts "")]
                        else [])
                      (enumerate lines (s + 1)))).
    { eapply Forall_impl; [| exact Hge]. cbn beta. intros o Ho. lia. }
    destruct (2 <=? List.length (PyStr.split_ws line)); cbn [app].
    + split; [constructor; [cbn; lia | exact Hge'] |].
      constructor; [exact Hs |].
      eapply Forall_impl; [| exact Hge]. cbn. intros o Ho. lia.
    + split; assumption.
Qed.

(** X15.  [load_owners_from_file] of the tax driver: an owner is returned
    exactly when its row number [k + 1] is the number of a data line (the
    lines after the two header lines, blank ones counted) that splits into
    at least two words, with [start_from_row <= k + 1] and, when a last row
    is given, [k + 1 <= end_at_row]; last and first name are the first two
    words of that line, so neither is empty or holds whitespace; and the
    owners come in strictly increasing row order, none twice. *)
Theorem tax_rows_follow_file :
  forall lines start_from_row end_at_row,
    let owners := Tax.load_owners_from_file lines start_from_row end_at_row in
    (forall o,
        In o owners <->
        exists k line,
          nth_error (skipn 2 lines) k = Some line
          /\ 2 <= List.length (PyStr.split_ws line)
          /\ o = Tax.mkOwner (Z.of_nat k + 1) (nth 0 (PyStr.split_ws line) "")
                             (nth 1 (PyStr.split_ws line) "")
          /\ (start_from_row <= Z.of_nat k + 1)%Z
          /\ (forall e, end_at_row = Some e -> (Z.of_nat k + 1 <= e)%Z))
    /\ Forall (fun o => Tax.owner_last o <> "" /\ Tax.owner_first o <> ""
                        /\ string_forall not_space (Tax.owner_last o) = true
                        /\ string_forall not_space (Tax.owner_first o) = true)
              owners
    /\ StronglySorted (fun a b => (Tax.owner_row a < Tax.owner_row b)%Z) owners.
Proof.
  intros lines S E. cbn zeta. unfold Tax.load_owners_from_file.
  set (f := fun p : Z * string =>
              let parts := PyStr.split_ws (snd p) in
              if 2 <=? List.length parts
              then [Tax.mkOwner (fst p) (nth 0 parts "") (nth 1 parts "")]
              else []).
  set (all := flat_map f (enumerate (skipn 2 lines) 1)).
  assert (Hall : forall o,
             In o all <->
             exists k line,
               nth_error (skipn 2 lines) k = Some line
               /\ 2 <= List.length (PyStr.split_ws line)
               /\ o = Tax.mkOwner (Z.of_nat k + 1) (nth 0 (PyStr.split_ws line) "")
                                  (nth 1 (PyStr.split_ws line) "")).
  { intros o. unfold all. rewrite in_flat_map. split.
    - intros ([i line] & Hin & Ho). apply enumerate_in in Hin as (k & -> & Hk).
      unfold f in Ho. cbn [fst snd] in Ho.
      destruct (2 <=? List.length (PyStr.split_ws line)) eqn:Hl; [| destruct Ho].
      apply Nat.leb_le in Hl. destruct Ho as [<- | []].
      exists k, line. repeat split; try assumption. f_equal. lia.
    - intros (k & line & Hk & Hl & ->). exists ((1 + Z.of_nat k)%Z, line). split.
      + apply enumerate_in. exists k. auto.
      + unfold f. cbn [fst snd]. apply Nat.leb_le in Hl. rewrite Hl.
        left. f_equal. lia. }
  set (started := if (1 <? S)%Z
                  then filter (fun o => (S <=? Tax.owner_row o)%Z) all else all).
  assert (Hstarted : forall o, In o started <-> In o all /\ (S <= Tax.owner_row o)%Z).
  { intros o. unfold started. destruct (1 <? S)%Z eqn:H1.
    - rewrite filter_In, Z.leb_le. reflexivity.
    - apply Z.ltb_ge in H1. split; [| tauto].
      intros Hin. split; [exact Hin |].
      apply Hall in Hin as (k & line & _ & _ & ->). cbn. lia. }
  assert (Hinc : forall o,
             In o (match E with
                   | Some e => filter (fun o => (Tax.owner_row o <=? e)%Z) started
                   | None => started
                   end) -> In o all).
  { intros o Hin. destruct E as [e|]; [apply filter_In in Hin as [Hin _] |];
      now apply Hstarted in Hin. }
  split; [| split].
  - intros o. split.
    + intros Hin.
      assert (Hs : In o started /\ forall e, E = Some e -> (Tax.owner_row o <= e)%Z).
      { destruct E as [e|].
        - apply filter_In in Hin as [Hin He]. apply Z.leb_le in He.
          split; [exact Hin | intros e' [= <-]; exact He].
        - split; [exact Hin | discriminate]. }
      destruct Hs as [Hs He]. apply Hstarted in Hs as [Ha Hge].
      apply Hall in Ha as (k & line & Hk & Hl & ->). cbn [Tax.owner_row] in *.
      exists k, line. repeat split; assumption.
    + intros (k & line & Hk & Hl & -> & Hge & He).
      assert (Hs : In (Tax.mkOwner (Z.of_nat k + 1) (nth 0 (PyStr.split_ws line) "")
                                   (nth 1 (PyStr.split_ws line) "")) started).
      { apply Hstarted. split; [apply Hall; eauto | exact Hge]. }
      destruct E as [e|]; [| exact Hs].
      apply filter_In. split; [exact Hs |]. apply Z.leb_le. now apply He.
  - apply Forall_forall. intros o Hin. apply Hinc, Hall in Hin.
    destruct Hin as (k & line & _ & Hl & ->). cbn [Tax.owner_last Tax.owner_first].
    pose proof (split_ws_words line) as Hw.
    split; [apply word_in_range; [exact Hw | lia] |].
    split; [apply word_in_range; [exact Hw | lia] |].
    split; now apply nth_word.
  - destruct (tax_lines_sorted (skipn 2 lines) 1) as [_ Hsorted]. cbn zeta in Hsorted.
    fold f in Hsorted. fold all in Hsorted.
    assert (Hss : StronglySorted (fun a b => (Tax.owner_row a < Tax.owner_row b)%Z) started).
    { unfold started. destruct (1 <? S)%Z; [now apply filter_sorted | exact Hsorted]. }
    destruct E as [e|]; [now apply filter_sorted | exact Hss].
Qed.

Lemma tax_rows_follow_file_witness :
  In (Tax.mkOwner 1 "DOE" "JANE")
     (Tax.load_owners_from_file ["Owners"; "------"; "DOE JANE EST OF"; ""] 1 (Some 10%Z)).
Proof.
  apply (proj2 (proj1 (tax_rows_follow_file
                         ["Owners"; "------"; "DOE JANE EST OF"; ""] 1 (Some 10%Z)) _)).
  exists 0, "DOE JANE EST OF".
  split; [reflexivity |]. split; [vm_compute; lia |]. split; [reflexivity |].
  split; [lia | intros e [= <-]; lia].
Defined.

(* ===================================================================== *)
(** * The identities of an owner string *)
(* ===================================================================== *)

Lemma contains_char : forall a s,
  PyStr.contains (String a "") s
  = negb (string_forall (fun c => negb (Ascii.eqb c a)) s).
Proof.
  intros a. induction s as [|c s IH]; cbn [PyStr.contains prefix string_forall];
    [reflexivity |].
  rewrite IH. destruct (ascii_dec a c) as [<- | Hne].
  - rewrite Ascii.eqb_refl. destruct s; reflexivity.
  - assert (Hc : Ascii.eqb c a = false) by (apply Ascii.eqb_neq; congruence).
    rewrite Hc. reflexivity.
Qed.

Lemma upper_keeps_ampersand : forall c,
  negb (Ascii.eqb (PyStr.upper_char c) "&") = negb (Ascii.eqb c "&").
Proof. intros c. destruct c as [[] [] [] [] [] [] [] []]; reflexivity. Qed.

Lemma upper_forall_amp : forall s,
  string_forall (fun c => negb (Ascii.eqb c "&")) (PyStr.upper s)
  = string_forall (fun c => negb (Ascii.eqb c "&")) s.
Proof.
  induction s as [|c s IH]; cbn [PyStr.upper string_forall]; [reflexivity |].
  now rewrite IH, upper_keeps_ampersand.
Qed.

Lemma replace_aux_forall : forall p old new s skip,
  string_forall p new = true -> string_forall p s = true ->
  string_forall p (PyStr.replace_aux old new skip s) = true.
Proof.
  intros p old new. induction s as [|c s IH]; intros skip Hnew Hs;
    cbn [PyStr.replace_aux]; [reflexivity |].
  cbn [string_forall] in Hs. apply andb_true_iff in Hs as [Hc Hs].
  destruct skip as [|k]; [| now apply IH].
  destruct (prefix old (String c s)).
  - rewrite string_forall_app, Hnew. now apply IH.
  - cbn [string_forall]. rewrite Hc. now apply IH.
Qed.

Lemma split_ws_aux_forall : forall p s cur,
  string_forall p cur = true -> string_forall p s = true ->
  Forall (fun w => string_forall p w = true) (PyStr.split_ws_aux cur s).
Proof.
  intros p. induction s as [|c s IH]; intros cur Hcur Hs; cbn [PyStr.split_ws_aux].
  - destruct cur; constructor; [exact Hcur | constructor].
  - cbn [string_forall] in Hs. apply andb_true_iff in Hs as [Hc Hs].
    destruct (PyStr.is_space c).
    + destruct cur; [now apply IH |]. constructor; [exact Hcur | now apply IH].
    + apply IH; [| exact Hs]. rewrite string_forall_app, Hcur. cbn. now rewrite Hc.
Qed.

Lemma join_forall : forall p sep l,
  string_forall p sep = true -> Forall (fun w => string_forall p w = true) l ->
  string_forall p (PyStr.join sep l) = true.
Proof.
  intros p sep. unfold PyStr.join. induction l as [|w l IH]; intros Hsep Hl;
    [reflexivity |].
  inversion Hl as [|? ? Hw Hl']; subst.
  destruct l as [|w' l]; [exact Hw |].
  change (String.concat sep (w :: w' :: l))
    with (w ++ sep ++ String.concat sep (w' :: l))%string.
  rewrite !string_forall_app, Hw, Hsep. now apply IH.
Qed.

Lemma cleaned_has_no_ampersand : forall raw_owner_string,
  PyStr.contains "&" raw_owner_string = false ->
  PyStr.contains "&"
    (PyStr.join " "
       (PyStr.split_ws
          (fold_left (fun acc phrase => PyStr.replace acc phrase " ") cleanup_phrases
                     (PyStr.strip (PyStr.upper raw_owner_string))))) = false.
Proof.
  intros raw H. rewrite contains_char in *. apply negb_false_iff in H.
  apply negb_false_iff. apply join_forall; [reflexivity |].
  apply split_ws_aux_forall; [reflexivity |].
  assert (Hs : string_forall (fun c => negb (Ascii.eqb c "&"))
                 (PyStr.strip (PyStr.upper raw)) = true)
    by (apply strip_forall; now rewrite upper_forall_amp).
  revert Hs. generalize (PyStr.strip (PyStr.upper raw)).
  induction cleanup_phrases as [|phrase l IH]; intros s Hs; cbn [fold_left]; [exact Hs |].
  apply IH. unfold PyStr.replace. now apply replace_aux_forall.
Qed.

(** X16.  [parse_owner_name] never gives more than two identities, and
    exactly one when the owner string holds no ["&"].  In every identity the
    first name holds no whitespace and the search term is ["LAST, FIRST"],
    or the bare last name when there is neither first nor middle name.  When
    two identities are given, first and last name of each are single
    non-empty words. *)
Theorem owner_identities :
  forall raw_owner_string,
    let owners := parse_owner_name raw_owner_string in
    List.length owners <= 2
    /\ (PyStr.contains "&" raw_owner_string = false -> List.length owners = 1)
    /\ Forall (fun i =>
                 string_forall not_space (first_name i) = true
                 /\ (search_term i = search_format (last_name i) (first_name i)
                     \/ (first_name i = "" /\ middle_name i = ""
                         /\ search_term i = last_name i)))
              owners
    /\ (List.length owners = 2 ->
        Forall (fun i =>
                  first_name i <> "" /\ last_name i <> ""
                  /\ string_forall not_space (last_name i) = true
                  /\ search_term i = search_format (last_name i) (first_name i))
               owners).
Proof.
  intros raw. cbn zeta.
  pose proof (cleaned_has_no_ampersand raw) as Hamp.
  unfold parse_owner_name.
  set (cleaned := PyStr.join " " (PyStr.split_ws _)) in *.
  destruct (PyStr.contains "&" cleaned) eqn:Hc.
  - set (first_owner_words :=
           PyStr.split_ws
             (fold_left (fun acc phrase => PyStr.strip (PyStr.replace acc phrase " "))
                        cleanup_phrases
                        (PyStr.strip (nth 0 (PyStr.split_on "&" cleaned) "")))).
    set (second_words :=
           PyStr.split_ws
             (fold_left (fun acc phrase => PyStr.strip (PyStr.replace acc phrase " "))
                        cleanup_phrases
                        (if 1 <? List.length (PyStr.split_on "&" cleaned)
                         then PyStr.strip (nth 1 (PyStr.split_on "&" cleaned) "")
                         else ""))).
    assert (Hw1 : Forall (fun w => w <> "" /\ string_forall not_space w = true)
                         first_owner_words) by apply split_ws_words.
    assert (Hw2 : Forall (fun w => w <> "" /\ string_forall not_space w = true)
                         second_words) by apply split_ws_words.
    assert (Htwo : forall words k j middle,
               Forall (fun w => w <> "" /\ string_forall not_space w = true) words ->
               k < List.length words ->
               forall words', Forall (fun w => w <> "" /\ string_forall not_space w = true) words' ->
               j < List.length words' ->
               let i := mkIdentity (nth k words "") middle (nth j words' "")
                                   (search_format (nth j words' "") (nth k words "")) in
               first_name i <> "" /\ last_name i <> ""
               /\ string_forall not_space (last_name i) = true
               /\ search_term i = search_format (last_name i) (first_name i)).
    { intros words k j middle Hw Hk words' Hw' Hj. cbn.
      split; [now apply word_in_range |]. split; [now apply word_in_range |].
      split; [now apply nth_word | reflexivity]. }
    split; [| split; [intros Hraw; specialize (Hamp Hraw); congruence |]].
    { destruct (2 <=? List.length first_owner_words);
        destruct ((List.length second_words =? 1) && (1 <=? List.length first_owner_words));
        try destruct (2 <=? List.length second_words); cbn; lia. }
    destruct (2 <=? List.length first_owner_words) eqn:H1;
      destruct ((List.length second_words =? 1) && (1 <=? List.length first_owner_words))
        eqn:H2;
      try destruct (2 <=? List.length second_words) eqn:H3;
      cbn [app List.length];
      (split; [repeat constructor; try (apply nth_word; assumption) |]);
      try (intros Hlen; discriminate Hlen).
    1, 2: (intros _; apply Nat.leb_le in H1; apply andb_true_iff in H2 as [H2 _];
           apply Nat.eqb_eq in H2;
           constructor; [apply (Htwo first_owner_words 1 0); try assumption; lia |];
           constructor; [| constructor];
           apply (Htwo second_words 0 0); try assumption; lia).
    + intros _. apply Nat.leb_le in H1, H3.
      constructor; [apply (Htwo first_owner_words 1 0); try assumption; lia |].
      constructor; [| constructor].
      apply (Htwo second_words 1 0); try assumption; lia.
  - split; [| split; [intros _ |]].
    + destruct (PyStr.contains "," cleaned); [cbn; lia |].
      destruct (2 <=? List.length (PyStr.split_ws cleaned)); cbn; lia.
    + destruct (PyStr.contains "," cleaned); [reflexivity |].
      destruct (2 <=? List.length (PyStr.split_ws cleaned)); reflexivity.
    + pose proof (split_ws_words cleaned) as Hw.
      destruct (PyStr.contains "," cleaned).
      * split; [| intros Hlen; discriminate Hlen].
        constructor; [| constructor]. cbn.
        split; [apply nth_word, split_ws_words | now left].
      * destruct (2 <=? List.length (PyStr.split_ws cleaned)) eqn:H2.
        -- split; [| intros Hlen; discriminate Hlen].
           constructor; [| constructor]. cbn.
           split; [now apply nth_word | now left].
        -- split; [| intros Hlen; discriminate Hlen].
           constructor; [| constructor]. cbn. split; [reflexivity | now right].
Qed.

Lemma owner_identities_witness :
  List.length (parse_owner_name "SMITH JOHN A EST OF") = 1.
Proof.
  exact (proj1 (proj2 (owner_identities "SMITH JOHN A EST OF")) eq_refl).
Defined.

(* ===================================================================== *)
(** * The tax search: which row is opened, which row wins *)
(* ===================================================================== *)

Lemma length_append : forall a b : string,
  String.length (a ++ b) = String.length a + String.length b.
Proof. induction a as [|c a IH]; intros b; cbn; [reflexivity | now rewrite IH]. Qed.

Lemma prefix_split : forall sub s,
  prefix sub s = true -> s = (sub ++ drop (String.length sub) s)%string.
Proof.
  induction sub as [|a sub IH]; intros s H; [reflexivity |].
  destruct s as [|c s]; [discriminate |]. cbn [prefix] in H.
  destruct (ascii_dec a c) as [<- | _]; [| discriminate].
  cbn [String.length drop append]. f_equal. now apply IH.
Qed.

Lemma find_from_contains : forall sub s i,
  PyStr.contains sub s = true ->
  exists pre,
    find_from sub s i = (i + Z.of_nat (String.length pre))%Z
    /\ s = (pre ++ sub ++ drop (String.length pre + String.length sub) s)%string.
Proof.
  intros sub. induction s as [|c s IH]; intros i H.
  - cbn [PyStr.contains] in H. rewrite orb_false_r in H.
    exists "". cbn [find_from]. rewrite H. split; [cbn; lia |].
    now apply prefix_split.
  - cbn [PyStr.contains] in H. cbn [find_from].
    destruct (prefix sub (String c s)) eqn:Hp.
    + exists "". split; [cbn; lia | now apply prefix_split].
    + cbn [orb] in H. destruct (IH (i + 1)%Z H) as (pre & Hf & Hs).
      exists (String c pre). split; [rewrite Hf; cbn [String.length]; lia |].
      cbn [String.length Nat.add drop append]. f_equal. exact Hs.
Qed.

Lemma rstrip_spaces : forall s,
  string_forall PyStr.is_space s = true <-> PyStr.rstrip s = "".
Proof.
  induction s as [|c s IH]; [split; reflexivity |].
  cbn [string_forall PyStr.rstrip]. split.
  - intros H. apply andb_true_iff in H as [Hc Hs]. apply IH in Hs. now rewrite Hs, Hc.
  - destruct (PyStr.rstrip s) as [|c1 r1]; [| discriminate].
    destruct (PyStr.is_space c); [| discriminate].
    intros _. now apply IH.
Qed.

Lemma lstrip_spaces : forall s,
  string_forall PyStr.is_space (PyStr.lstrip s) = true ->
  string_forall PyStr.is_space s = true.
Proof.
  induction s as [|c s IH]; intros H; [reflexivity |]. cbn [PyStr.lstrip] in H.
  cbn [string_forall]. destruct (PyStr.is_space c) eqn:Hc; [now apply IH |].
  cbn [string_forall] in H. now rewrite Hc in H.
Qed.

Lemma rstrip_app_spaces : forall a r,
  string_forall PyStr.is_space r = true -> PyStr.rstrip (a ++ r) = PyStr.rstrip a.
Proof.
  induction a as [|c a IH]; intros r H; cbn [append].
  - now apply rstrip_spaces.
  - cbn [PyStr.rstrip]. now rewrite IH.
Qed.

Lemma rstrip_length : forall s, String.length (PyStr.rstrip s) <= String.length s.
Proof.
  induction s as [|c s IH]; [cbn; lia |]. cbn [PyStr.rstrip].
  destruct (PyStr.rstrip s) as [|c1 r1].
  - destruct (PyStr.is_space c); cbn; lia.
  - cbn [String.length] in *. lia.
Qed.

(** X17.  [search_and_extract] opens a result row only when its owner text
    starts with ["LAST FIRST"] and holds ["EST OF"], and then, if the name
    line (the first line, trimmed) holds ["EST OF"] at all, that line ends
    with its first ["EST OF"]: nothing follows it, so that a second owner or
    a further ["EST OF"] on the name line keeps the row closed. *)
Theorem opened_row_ends_with_est_of :
  forall owner_text search_pattern,
    TaxSearch.row_accepted owner_text search_pattern = true ->
    PyStr.startswith owner_text search_pattern = true
    /\ PyStr.contains "EST OF" owner_text = true
    /\ (PyStr.contains "EST OF" (TaxSearch.name_line owner_text) = true ->
        exists pre,
          TaxSearch.name_line owner_text = (pre ++ "EST OF")%string
          /\ py_find (TaxSearch.name_line owner_text) "EST OF"
             = Z.of_nat (String.length pre)).
Proof.
  intros owner_text search_pattern H. unfold TaxSearch.row_accepted in H.
  destruct (PyStr.startswith owner_text search_pattern); [| discriminate].
  destruct (PyStr.contains "EST OF" owner_text); [| discriminate].
  cbn [andb] in H. split; [reflexivity |]. split; [reflexivity |].
  intros Hc. rewrite Hc in H. cbn zeta in H.
  set (line := TaxSearch.name_line owner_text) in *.
  destruct (find_from_contains "EST OF" line 0 Hc) as (pre & Hf & Hs).
  unfold py_find in *. rewrite Hf in H |- *.
  replace (Z.to_nat (0 + Z.of_nat (String.length pre) + 6))
    with (String.length pre + String.length "EST OF") in H by (cbn; lia).
  set (rest := drop (String.length pre + String.length "EST OF") line) in *.
  assert (Hrest : string_forall PyStr.is_space rest = true).
  { apply lstrip_spaces, rstrip_spaces. fold (PyStr.strip rest).
    destruct (PyStr.strip rest); [reflexivity | discriminate]. }
  assert (Hline : PyStr.rstrip line = line)
    by (unfold line, TaxSearch.name_line, PyStr.strip; apply rstrip_idempotent).
  assert (Hlen : String.length rest = 0).
  { pose proof (rstrip_length (pre ++ "EST OF")) as Hle.
    rewrite Hs in Hline at 1.
    rewrite <- append_assoc, (rstrip_app_spaces _ _ Hrest) in Hline.
    rewrite Hline in Hle. rewrite Hs in Hle at 1.
    rewrite <- append_assoc, !length_append in Hle. lia. }
  exists pre. split; [| lia].
  destruct rest; [| discriminate]. rewrite Hs at 1. reflexivity.
Qed.

Lemma opened_row_ends_with_est_of_witness :
  exists pre, TaxSearch.name_line doe_cell = (pre ++ "EST OF")%string.
Proof.
  destruct (opened_row_ends_with_est_of doe_cell "DOE JANE" eq_refl) as (_ & _ & H).
  destruct (H eq_refl) as (pre & Hpre & _). exists pre. exact Hpre.
Defined.

Section TaxSearchFacts.

Variable F : Type.
Variable zero : F.
Variable sum : list F -> F.
Variables div mul : F -> F -> F.
Variables gt ge : F -> F -> bool.
Variable is_zero : F -> bool.
Variables MIN_ANNUAL_TAX_RATE MAX_TOTAL_TAX_RATIO : F.
Variable amounts_of : string -> list F.

Local Abbreviation criteria :=
  (TaxCriteria.check_consecutive_unpaid_years
     F zero sum div mul gt ge MIN_ANNUAL_TAX_RATE MAX_TOTAL_TAX_RATIO amounts_of).
Local Abbreviation scan_rows :=
  (TaxSearch.scan_rows F zero sum div mul gt ge is_zero
     MIN_ANNUAL_TAX_RATE MAX_TOTAL_TAX_RATIO amounts_of).
Local Abbreviation search_and_extract :=
  (TaxSearch.search_and_extract F zero sum div mul gt ge is_zero
     MIN_ANNUAL_TAX_RATE MAX_TOTAL_TAX_RATIO amounts_of).
Local Abbreviation passed_over :=
  (TaxSearch.passed_over F zero sum div mul gt ge
     MIN_ANNUAL_TAX_RATE MAX_TOTAL_TAX_RATIO amounts_of).
Local Abbreviation wins :=
  (TaxSearch.wins F zero sum div mul gt ge is_zero
     MIN_ANNUAL_TAX_RATE MAX_TOTAL_TAX_RATIO amounts_of).

Lemma scan_rows_some : forall rows search_pattern pd,
  scan_rows rows search_pattern = Ok (Some pd) <->
  exists k row,
    nth_error rows k = Some row /\ wins row search_pattern pd
    /\ forall j rowj, j < k -> nth_error rows j = Some rowj ->
                      passed_over rowj search_pattern.
Proof.
  induction rows as [|row rows IH]; intros pat pd; cbn [TaxSearch.scan_rows].
  { split; [discriminate | intros (k & r & Hk & _); destruct k; discriminate]. }
  assert (Hnext : passed_over row pat -> ~ wins row pat pd ->
            (scan_rows rows pat = Ok (Some pd) <->
             exists k r,
               nth_error (row :: rows) k = Some r /\ wins r pat pd
               /\ forall j rowj, j < k -> nth_error (row :: rows) j = Some rowj ->
                                 passed_over rowj pat)).
  { intros Hpass Hnw. rewrite IH. split.
    - intros (k & r & Hk & Hw & Hbefore). exists (S k), r. split; [exact Hk |].
      split; [exact Hw |]. intros j rowj Hj Hn. destruct j as [|j].
      + injection Hn as <-. exact Hpass.
      + apply (Hbefore j); [lia | exact Hn].
    - intros (k & r & Hk & Hw & Hbefore). destruct k as [|k].
      + injection Hk as <-. now destruct Hnw.
      + exists k, r. split; [exact Hk |]. split; [exact Hw |].
        intros j rowj Hj Hn. apply (Hbefore (S j)); [lia | exact Hn]. }
  assert (Hstop : forall r0 : res (option (TaxSearch.PropertyData F)),
            r0 <> Ok (Some pd) -> ~ wins row pat pd ->
            (passed_over row pat -> False) ->
            (r0 = Ok (Some pd) <->
             exists k r,
               nth_error (row :: rows) k = Some r /\ wins r pat pd
               /\ forall j rowj, j < k -> nth_error (row :: rows) j = Some rowj ->
                                 passed_over rowj pat)).
  { intros r0 Hr0 Hnw Hnp. split; [intros E; now destruct Hr0 |].
    intros (k & r & Hk & Hw & Hbefore). destruct k as [|k].
    - injection Hk as <-. now destruct Hnw.
    - exfalso. apply Hnp. apply (Hbefore 0 row); [lia | reflexivity]. }
  destruct (TaxSearch.owner_cell F row) as [cell|e] eqn:Hcell; cbn [bind].
  2:{ apply Hstop; [discriminate | |].
      - intros (c & Hc & _). congruence.
      - intros (c & Hc & _). congruence. }
  destruct (TaxSearch.row_accepted (PyStr.strip cell) pat) eqn:Hacc.
  2:{ apply Hnext.
      - exists cell. split; [exact Hcell | left; exact Hacc].
      - intros (c & Hc & Ha & _). congruence. }
  destruct (TaxSearch.open_account F row) as [[]|e] eqn:Hopen; cbn [bind].
  2:{ apply Hstop; [discriminate | |].
      - intros (c & _ & _ & Ho & _). congruence.
      - intros (c & Hc & [Ha | (Ho & _)]); congruence. }
  destruct (TaxSearch.extracted F row) as [property_data|] eqn:Hex.
  2:{ destruct (TaxSearch.search_again F row) as [[]|e] eqn:Hback; cbn [bind].
      - apply Hnext.
        + exists cell. split; [exact Hcell |]. right.
          split; [exact Hopen | split; [exact Hback | left; exact Hex]].
        + intros (c & _ & _ & _ & He & _). congruence.
      - apply Hstop; [discriminate | |].
        + intros (c & _ & _ & _ & He & _). congruence.
        + intros (c & Hc & [Ha | (_ & Hb & _)]); congruence. }
  destruct (criteria (TaxSearch.tax_detail F row) (TaxSearch.market_value F property_data))
    as [[meets yd] total] eqn:Hcrit.
  destruct meets.
  - destruct (is_zero (TaxSearch.market_value F property_data)) eqn:Hz.
    + apply Hstop; [discriminate | |].
      * intros (c & _ & _ & _ & He & _ & Hz' & _).
        rewrite Hex in He; injection He as He. rewrite <- He in Hz'. congruence.
      * intros (c & Hc & [Ha | (_ & _ & [He | (e & He & Hf)])]); try congruence.
        rewrite Hex in He; injection He as <-. rewrite Hcrit in Hf. discriminate.
    + split.
      * intros [= <-]. exists 0, row. split; [reflexivity |]. split; [| intros j ? Hj; lia].
        exists cell.
        cbn [TaxSearch.extracted_data TaxSearch.owner_name TaxSearch.year_data
             TaxSearch.total_tax_owed TaxSearch.tax_to_value_ratio].
        repeat split; assumption || reflexivity.
      * intros (k & r & Hk & Hw & Hbefore). destruct k as [|k].
        -- injection Hk as <-.
           destruct Hw as (c & Hc & _ & _ & He & Hcr & _ & Hn & Hratio).
           rewrite Hcell in Hc. injection Hc as <-. rewrite Hex in He; injection He as He.
           destruct pd as [ed on ydd tt ratio]. cbn in *. subst ed.
           rewrite Hcrit in Hcr. injection Hcr as <- <-. now subst.
        -- exfalso. destruct (Hbefore 0 row ltac:(lia) eq_refl)
             as (c & Hc & [Ha | (_ & _ & [He | (e & He & Hf)])]); try congruence.
           rewrite Hex in He; injection He as <-. rewrite Hcrit in Hf. discriminate.
  - destruct (TaxSearch.search_again F row) as [[]|e] eqn:Hback; cbn [bind].
    + apply Hnext.
      * exists cell. split; [exact Hcell |]. right.
        split; [exact Hopen |]. split; [exact Hback |]. right.
        exists property_data. split; [exact Hex | now rewrite Hcrit].
      * intros (c & _ & _ & _ & He & Hcr & _). rewrite Hex in He; injection He as He.
        rewrite <- He, Hcrit in Hcr. discriminate.
    + apply Hstop; [discriminate | |].
      * intros (c & _ & _ & _ & He & Hcr & _). rewrite Hex in He; injection He as He.
        rewrite <- He, Hcrit in Hcr. discriminate.
      * intros (c & Hc & [Ha | (_ & Hb & _)]); congruence.
Qed.

(** X18.  [search_and_extract] returns a property exactly when the result
    table could be read and some row wins while every row before it was
    passed over: the winning row is the first whose owner cell passes the
    test, whose account gives data, whose tax detail meets the criteria and
    whose market value is not zero; the property returned holds the data
    extracted from that row, its name line, the year data and the total of
    the criteria check, and their ratio.  A property with market value zero
    is never returned. *)
Theorem first_qualifying_row_wins :
  forall search last_name first_name pd,
    (search_and_extract search last_name first_name = Some pd <->
     exists rows k row,
       search = Ok rows /\ nth_error rows k = Some row
       /\ wins row (last_name ++ " " ++ first_name) pd
       /\ forall j rowj, j < k -> nth_error rows j = Some rowj ->
                         passed_over rowj (last_name ++ " " ++ first_name))
    /\ (search_and_extract search last_name first_name = Some pd ->
        is_zero (TaxSearch.market_value F (TaxSearch.extracted_data F pd)) = false).
Proof.
  intros search last_name first_name pd.
  assert (Hiff : search_and_extract search last_name first_name = Some pd <->
                 exists rows k row,
                   search = Ok rows /\ nth_error rows k = Some row
                   /\ wins row (last_name ++ " " ++ first_name) pd
                   /\ forall j rowj, j < k -> nth_error rows j = Some rowj ->
                                     passed_over rowj (last_name ++ " " ++ first_name)).
  { unfold TaxSearch.search_and_extract.
    destruct search as [rows|e]; cbn [bind try_except].
    2:{ split; [discriminate | intros (? & ? & ? & [=] & _)]. }
    pose proof (scan_rows_some rows (last_name ++ " " ++ first_name) pd) as Hs.
    destruct (scan_rows rows (last_name ++ " " ++ first_name)) as [[pd'|]|e];
      cbn [try_except].
    - split.
      + intros [= ->]. destruct (proj1 Hs eq_refl) as (k & row & H). now exists rows, k, row.
      + intros (rows' & k & row & [= <-] & H).
        assert (E : Ok (Some pd') = Ok (Some pd) :> res (option (TaxSearch.PropertyData F)))
          by (apply Hs; now exists k, row).
        injection E as ->. reflexivity.
    - split; [discriminate |]. intros (rows' & k & row & [= <-] & H).
      assert (E : Ok None = Ok (Some pd) :> res (option (TaxSearch.PropertyData F)))
        by (apply Hs; now exists k, row).
      discriminate.
    - split; [discriminate |]. intros (rows' & k & row & [= <-] & H).
      assert (E : Raise e = Ok (Some pd) :> res (option (TaxSearch.PropertyData F)))
        by (apply Hs; now exists k, row).
      discriminate. }
  split; [exact Hiff |].
  intros H. apply Hiff in H as (rows & k & row & _ & _ & Hw & _).
  destruct Hw as (c & _ & _ & _ & _ & _ & Hz & _). exact Hz.
Qed.

End TaxSearchFacts.

Lemma first_qualifying_row_wins_witness :
  sample_search (Ok [doe_row]) "DOE" "JANE" = Some doe_property
  /\ (0 =? 10000000)%Z = false.
Proof.
  assert (H : sample_search (Ok [doe_row]) "DOE" "JANE" = Some doe_property)
    by (vm_compute; reflexivity).
  split; [exact H |].
  exact (proj2 (first_qualifying_row_wins
                  Z 0%Z (fold_right Z.add 0%Z) (fun a b => (a * 100 / b)%Z)
                  (fun a b => (a * b / 1000)%Z) (fun a b => (b <? a)%Z)
                  (fun a b => (b <=? a)%Z) (Z.eqb 0) 15%Z 70%Z sample_amounts
                  (Ok [doe_row]) "DOE" "JANE" doe_property) H).
Defined.
